(** * clubjoy-booking: order-to-booking normalisation, verified against its specification

    A shallow embedding of the Shopify/Cowlendar booking service:
    - [JS]         the JavaScript string, number and exception primitives the code relies on;
    - [Shopify]    services/shopifyService.js (qualification, metadata extraction,
                   schedule parsing, provider resolution, provider queries);
    - [Auth]       middleware/auth.js;
    - [Routes]     routes/orders.js and routes/bookings.js (limit handling, filters);
    - [BookingKit] services/bookingkitService.js (webhook signature check);
    - [Sample]     a small deployment on which the examples are evaluated;
    - [Spec]       the vocabulary of the specification, followed by the properties.

    Strings are sequences of code units below 256 (the Latin-1 range of UTF-16);
    [null] and [undefined] are both [None]. Network collaborators (the order
    store, the product metadata store), moment-timezone and the HMAC primitive
    are records of functions passed to the code that calls them. *)

From Stdlib Require Import String Ascii List ZArith Bool Lia Sorted.
Import ListNotations.

Local Open Scope string_scope.
Local Open Scope list_scope.

(* ------------------------------------------------------------------ *)
(** ** JavaScript primitives *)

Module JS.

(** Exceptions and completions: a call either returns or throws. *)
Inductive Exn : Type :=
| TypeError (msg : string)
| RangeError (msg : string)
| Error (msg : string).

Inductive Completion (A : Type) : Type :=
| Normal (a : A)
| Throw (e : Exn).
Arguments Normal {A} a.
Arguments Throw {A} e.

Definition bind {A B} (c : Completion A) (k : A -> Completion B) : Completion B :=
  match c with
  | Normal a => k a
  | Throw e => Throw e
  end.

(** [try { body } catch (error) { handler }] *)
Definition tryCatch {A} (body : Completion A) (handler : Exn -> Completion A)
  : Completion A :=
  match body with
  | Normal a => Normal a
  | Throw e => handler e
  end.

(** [Promise.all(xs.map(f))] / a loop of awaited calls: the first rejection wins. *)
Fixpoint mapM {A B} (f : A -> Completion B) (xs : list A) : Completion (list B) :=
  match xs with
  | [] => Normal []
  | x :: xs' =>
      bind (f x) (fun y => bind (mapM f xs') (fun ys => Normal (y :: ys)))
  end.

Definition returns {A} (c : Completion A) : Prop := exists a, c = Normal a.

(** Truthiness of an optional string: null, undefined and [""] are falsy. *)
Definition truthy (v : option string) : bool :=
  match v with
  | Some s => negb (s =? "")
  | None => false
  end.

(** [a || b] on optional strings. *)
Definition orElse (a b : option string) : option string :=
  if truthy a then a else b.

(** [a || 'literal']. *)
Definition orDefault (a : option string) (d : string) : string :=
  match a with
  | Some s => if s =? "" then d else s
  | None => d
  end.

(** [a === b] where [b] is a string. *)
Definition strictEq (a : option string) (b : string) : bool :=
  match a with
  | Some s => s =? b
  | None => false
  end.

Definition code (c : ascii) : nat := nat_of_ascii c.

(** WhiteSpace and LineTerminator code units below 256: TAB, LF, VT, FF, CR, SP, NBSP. *)
Definition isWhiteSpace (c : ascii) : bool :=
  let n := code c in
  (((9 <=? n) && (n <=? 13)) || (n =? 32) || (n =? 160))%nat.

Definition isLineTerminator (c : ascii) : bool :=
  let n := code c in ((n =? 10) || (n =? 13))%nat.

Definition isDigit (c : ascii) : bool :=
  let n := code c in ((48 <=? n) && (n <=? 57))%nat.

(** [toLowerCase] on one code unit: A-Z, and the Latin-1 capitals
    U+00C0..U+00DE except the multiplication sign U+00D7. *)
Definition toLowerChar (c : ascii) : ascii :=
  let n := code c in
  if (((65 <=? n) && (n <=? 90))
      || ((192 <=? n) && (n <=? 222) && negb (n =? 215)))%nat
  then ascii_of_nat (n + 32) else c.

Fixpoint toLowerCase (s : string) : string :=
  match s with
  | EmptyString => EmptyString
  | String c s' => String (toLowerChar c) (toLowerCase s')
  end.

Fixpoint startsWith (p s : string) : bool :=
  match p, s with
  | EmptyString, _ => true
  | String _ _, EmptyString => false
  | String a p', String b s' => (a =? b)%char && startsWith p' s'
  end.

Fixpoint includes (sub s : string) : bool :=
  startsWith sub s ||
  match s with
  | EmptyString => false
  | String _ s' => includes sub s'
  end.

Fixpoint trimStart (s : string) : string :=
  match s with
  | EmptyString => EmptyString
  | String c s' => if isWhiteSpace c then trimStart s' else s
  end.

Fixpoint trimEnd (s : string) : string :=
  match s with
  | EmptyString => EmptyString
  | String c s' =>
      match trimEnd s' with
      | EmptyString => if isWhiteSpace c then EmptyString else String c EmptyString
      | t => String c t
      end
  end.

Definition trim (s : string) : string := trimEnd (trimStart s).

(** [s.split(sep)] for a one-character separator; never the empty list. *)
Fixpoint split (sep : ascii) (s : string) : list string :=
  match s with
  | EmptyString => [EmptyString]
  | String c s' =>
      if (c =? sep)%char then EmptyString :: split sep s'
      else match split sep s' with
           | [] => [String c EmptyString]
           | piece :: rest => String c piece :: rest
           end
  end.

Fixpoint drop (n : nat) (s : string) : string :=
  match n, s with
  | O, _ => s
  | S _, EmptyString => EmptyString
  | S n', String _ s' => drop n' s'
  end.

(** [s.replace(pat, rep)] with a string pattern: first occurrence only. *)
Fixpoint replace (pat rep s : string) : string :=
  if startsWith pat s then rep ++ drop (String.length pat) s
  else match s with
       | EmptyString => EmptyString
       | String c s' => String c (replace pat rep s')
       end.

(** Numbers: the integers the code handles, and NaN. *)
Inductive Number : Type :=
| NaN
| Num (z : Z).

Definition digitValue (radix : Z) (c : ascii) : option Z :=
  let n := Z.of_nat (code c) in
  let v := if isDigit c then Some (n - 48)%Z
           else if ((97 <=? n) && (n <=? 122))%Z then Some (n - 87)%Z
           else if ((65 <=? n) && (n <=? 90))%Z then Some (n - 55)%Z
           else None in
  match v with
  | Some d => if (d <? radix)%Z then Some d else None
  | None => None
  end.

(** The longest prefix of radix digits, folded left to right. *)
Fixpoint digits (radix : Z) (acc : option Z) (s : string) : option Z :=
  match s with
  | EmptyString => acc
  | String c s' =>
      match digitValue radix c with
      | Some d =>
          digits radix (Some (match acc with Some a => a * radix + d | None => d end)%Z) s'
      | None => acc
      end
  end.

(** [parseInt(s)] without a radix argument: leading white space, an optional
    sign, an optional [0x]/[0X] prefix, then digits; NaN when there are none.
    The mathematical value is kept exactly (a double is exact up to 2^53 and
    rounding is monotone, which is all that [Math.min] below observes). *)
Definition parseInt (s : string) : Number :=
  let s1 := trimStart s in
  let '(neg, s2) :=
    match s1 with
    | String "-" r => (true, r)
    | String "+" r => (false, r)
    | _ => (false, s1)
    end in
  let '(radix, s3) :=
    match s2 with
    | String "0" (String "x" r) => (16%Z, r)
    | String "0" (String "X" r) => (16%Z, r)
    | _ => (10%Z, s2)
    end in
  match digits radix None s3 with
  | Some v => Num (if neg then - v else v)%Z
  | None => NaN
  end.

(** [Math.min(x, bound)] with a numeric literal as second argument. *)
Definition mathMin (x : Number) (bound : Z) : Number :=
  match x with
  | NaN => NaN
  | Num z => Num (Z.min z bound)
  end.

(** [Buffer.from(s)]: the UTF-8 bytes of a string of code units below 256. *)
Fixpoint utf8 (s : string) : list nat :=
  match s with
  | EmptyString => []
  | String c s' =>
      let n := code c in
      if (n <? 128)%nat then n :: utf8 s'
      else (192 + n / 64) :: (128 + n mod 64) :: utf8 s'
  end.

(** [crypto.timingSafeEqual(a, b)]: throws on buffers of different length. *)
Definition timingSafeEqual (a b : list nat) : Completion bool :=
  if Nat.eqb (List.length a) (List.length b)
  then Normal (forallb (fun p => Nat.eqb (fst p) (snd p)) (combine a b))
  else Throw (RangeError "Input buffers must have the same byte length").

(** [error.message] *)
Definition message (e : Exn) : string :=
  match e with
  | TypeError msg => msg
  | RangeError msg => msg
  | Error msg => msg
  end.

(** A loop of awaited calls that threads an accumulator. *)
Fixpoint foldM {A B} (f : B -> A -> Completion B) (xs : list A) (acc : B)
  : Completion B :=
  match xs with
  | [] => Normal acc
  | x :: xs' => bind (f acc x) (fun acc' => foldM f xs' acc')
  end.

(** [arr.indexOf(x)] on an array of strings; [None] is -1. *)
Fixpoint indexOf (x : string) (arr : list string) : option nat :=
  match arr with
  | [] => None
  | y :: arr' =>
      if x =? y then Some O
      else match indexOf x arr' with
           | Some i => Some (S i)
           | None => None
           end
  end.

(** [arr.filter((x, index, arr) => arr.indexOf(x) === index)] *)
Definition firstOccurrences (arr : list string) : list string :=
  map snd
      (filter (fun p => match indexOf (snd p) arr with
                        | Some i => Nat.eqb i (fst p)
                        | None => false
                        end)
              (combine (seq 0 (List.length arr)) arr)).

Fixpoint insertSorted (x : string) (arr : list string) : list string :=
  match arr with
  | [] => [x]
  | y :: arr' => if (x <=? y)%string then x :: arr else y :: insertSorted x arr'
  end.

(** [arr.sort()] on strings: ascending by code units. Equal strings are the
    same value, so every sorting algorithm yields this array. *)
Definition sort (arr : list string) : list string :=
  fold_right insertSorted [] arr.

(** [set.add(x)] on a Set of strings, kept in insertion order. *)
Definition setAdd (x : string) (set : list string) : list string :=
  if existsb (String.eqb x) set then set else set ++ [x].

(** A [Map] keyed by a string or undefined: entries in insertion order. *)
Definition sameKey (a b : option string) : bool :=
  match a, b with
  | Some x, Some y => x =? y
  | None, None => true
  | _, _ => false
  end.

(** [map.get(key)] *)
Fixpoint mapGet {V} (key : option string) (m : list (option string * V)) : option V :=
  match m with
  | [] => None
  | (k, v) :: m' => if sameKey k key then Some v else mapGet key m'
  end.

(** [map.set(key, v)]: an existing key keeps its place. *)
Fixpoint mapSet {V} (key : option string) (v : V) (m : list (option string * V))
  : list (option string * V) :=
  match m with
  | [] => [(key, v)]
  | (k, w) :: m' => if sameKey k key then (k, v) :: m' else (k, w) :: mapSet key v m'
  end.

(** [map.delete(key)] *)
Fixpoint mapDelete {V} (key : option string) (m : list (option string * V))
  : list (option string * V) :=
  match m with
  | [] => []
  | (k, w) :: m' => if sameKey k key then m' else (k, w) :: mapDelete key m'
  end.

(** A member of a JSON body that the code uses as a string: missing
    (undefined or null), a string, or a value of another type (a number, a
    boolean, an array, an object), of which the code observes the truthiness
    before it calls a string method. *)
Inductive Field : Type :=
| Missing
| Text (s : string)
| NotText (isTruthy : bool).

(** [Math.ceil(x / 1000)] on an integer. *)
Definition ceilThousandth (x : Z) : Z := ((x + 999) / 1000)%Z.

End JS.

Declare Scope js_scope.
Delimit Scope js_scope with js.
Notation "x <- c ;; k" := (JS.bind c (fun x => k))
  (at level 61, c at next level, right associativity) : js_scope.

Local Open Scope js_scope.

(* ------------------------------------------------------------------ *)
(** ** services/shopifyService.js *)

Module Shopify.
Import JS.

(** *** Raw orders, as the store returns them *)

(** An entry of [note_attributes] or of a line item's [properties]. *)
Record Attr : Type := {
  attr_name : option string;
  attr_value : option string
}.

Record LineItem : Type := {
  li_name : option string;
  li_quantity : option Z;
  li_price : option string;
  li_vendor : option string;
  li_product_id : option Z;
  li_properties : option (list Attr)
}.

Record Customer : Type := {
  first_name : option string;
  last_name : option string;
  email : option string;
  phone : option string
}.

Record RawOrder : Type := {
  id : option Z;
  order_number : option Z;
  name : option string;
  customer : option Customer;
  line_items : option (list LineItem);
  note_attributes : option (list Attr);
  created_at : option string;
  financial_status : option string;
  fulfillment_status : option string
}.

(** *** Collaborators *)

(** [process.env]: variable names with their values, in environment order. *)
Definition Env : Type := list (string * string).

Fixpoint getenv (env : Env) (key : string) : option string :=
  match env with
  | [] => None
  | (k, v) :: env' => if k =? key then Some v else getenv env' key
  end.

(** The query sent to [/orders.json]. *)
Record QueryParams : Type := {
  q_status : string;
  q_limit : Number;
  q_fields : string;
  q_email : option string
}.

(** The [params] object a route hands to the service; [None] is an absent key. *)
Record Params : Type := {
  p_limit : option Number;
  p_status : option string;
  p_email : option string
}.

Record Metafield : Type := {
  mf_key : option string;
  mf_namespace : option string;
  mf_value : option string
}.

Record Product : Type := {
  tags : option string
}.

(** moment-timezone, as far as [parseEventDate] calls it. *)
Record MomentLib : Type := {
  Moment : Type;
  (** [moment.tz(input, format, zone)] *)
  moment_tz : string -> string -> string -> Completion Moment;
  (** [m.format(pattern)] *)
  moment_format : Moment -> string -> Completion string;
  (** [m.clone().add(moment.duration(t)).toISOString()]; [None] is null *)
  moment_plus_iso : Moment -> string -> Completion (option string);
  (** whether the zone database knows the name *)
  hasZone : string -> bool
}.

(** [this] of the service: environment, HTTP client end points, date library. *)
Record Service : Type := {
  env : Env;
  (** [client.get('/orders.json', { params })] then [response.data.orders] *)
  fetchOrders : QueryParams -> Completion (list RawOrder);
  (** [client.get('/orders/<id>.json')] then [response.data.order] *)
  fetchOrder : string -> Completion RawOrder;
  (** [client.get('/products/<id>/metafields.json')] then [.data.metafields] *)
  fetchMetafields : Z -> Completion (list Metafield);
  (** [client.get('/products/<id>.json')] then [.data.product] *)
  fetchProduct : Z -> Completion Product;
  momentLib : MomentLib
}.

(** *** getOrders *)

Definition defaultFields : string :=
  "id,order_number,name,customer,line_items,created_at,financial_status,fulfillment_status,note_attributes".

(** [{ ...defaultParams, ...params }] *)
Definition queryParams (params : Params) : QueryParams :=
  {| q_status := match p_status params with Some s => s | None => "any" end;
     q_limit := match p_limit params with Some l => l | None => Num 50 end;
     q_fields := defaultFields;
     q_email := p_email params |}.

(** The detail after the colon is the upstream error text. *)
Definition getOrders (svc : Service) (params : Params) : Completion (list RawOrder) :=
  tryCatch (fetchOrders svc (queryParams params))
           (fun e => Throw (Error ("Failed to fetch orders: " ++ message e))).

(** The detail after the colon is the upstream error text. *)
Definition getOrderById (svc : Service) (orderId : string) : Completion RawOrder :=
  tryCatch (fetchOrder svc orderId)
           (fun e => Throw (Error ("Failed to fetch order " ++ orderId ++ ": " ++ message e))).

(** *** hasCowlendarMetadata *)

(** [process.env.COWLENDAR_METADATA_PREFIX || '__cow_'] *)
Definition metadataPrefix (e : Env) : string :=
  orDefault (getenv e "COWLENDAR_METADATA_PREFIX") "__cow_".

(** [attr.name && attr.name.startsWith(prefix)] *)
Definition namePrefixed (e : Env) (attr : Attr) : bool :=
  truthy (attr_name attr) &&
  match attr_name attr with
  | Some n => startsWith (metadataPrefix e) n
  | None => false
  end.

Definition hasCowlendarMetadata (e : Env) (order : RawOrder) : bool :=
  let hasNoteMetadata :=
    match note_attributes order with
    | Some ((_ :: _) as attrs) => existsb (namePrefixed e) attrs
    | _ => false
    end in
  if hasNoteMetadata then true
  else
    match line_items order with
    | Some ((_ :: _) as items) =>
        existsb (fun item =>
                   match li_properties item with
                   | Some props => existsb (namePrefixed e) props
                   | None => false
                   end) items
    | _ => false
    end.

(** *** extractCowlendarMetadata *)

Record CowlendarMetadata : Type := {
  eventData : option string;
  internalId : option string;
  integrity : option string
}.

(** One round of the [forEach] callback, on the metadata object it mutates. *)
Definition processAttr (metadata : CowlendarMetadata) (attr : Attr) : CowlendarMetadata :=
  if strictEq (attr_name attr) "__cow_internal_id" then
    {| eventData := eventData metadata;
       internalId := attr_value attr;
       integrity := integrity metadata |}
  else if strictEq (attr_name attr) "__cow_integrity" then
    {| eventData := eventData metadata;
       internalId := internalId metadata;
       integrity := attr_value attr |}
  else if strictEq (attr_name attr) "Date" then
    {| eventData := attr_value attr;
       internalId := internalId metadata;
       integrity := integrity metadata |}
  else if truthy (attr_name attr) &&
          match attr_name attr with
          | Some n => includes "data" (toLowerCase n)
          | None => false
          end then
    {| eventData := attr_value attr;
       internalId := internalId metadata;
       integrity := integrity metadata |}
  else metadata.

Definition processAttributes (metadata : CowlendarMetadata) (attrs : list Attr)
  : CowlendarMetadata :=
  fold_left processAttr attrs metadata.

Definition emptyMetadata : CowlendarMetadata :=
  {| eventData := None; internalId := None; integrity := None |}.

Definition extractCowlendarMetadata (order : RawOrder) : CowlendarMetadata :=
  let metadata :=
    match note_attributes order with
    | Some ((_ :: _) as attrs) => processAttributes emptyMetadata attrs
    | _ => emptyMetadata
    end in
  match line_items order with
  | Some ((_ :: _) as items) =>
      fold_left (fun m item =>
                   match li_properties item with
                   | Some ((_ :: _) as props) => processAttributes m props
                   | _ => m
                   end) items metadata
  | _ => metadata
  end.

(** *** parseEventDate *)

Record EventDetails : Type := {
  eventDate : option string;
  startTime : option string;
  endTime : option string;
  timezone : string;
  startDateTime : option string;
  endDateTime : option string
}.

(** The object both the null-input branch and the catch branch return. *)
Definition nullDetails : EventDetails :=
  {| eventDate := None; startTime := None; endTime := None; timezone := "UTC";
     startDateTime := None; endDateTime := None |}.

(** [[^)]+] from the character after an opening parenthesis. *)
Fixpoint spanNotClose (s : string) : string * string :=
  match s with
  | EmptyString => (EmptyString, EmptyString)
  | String c s' =>
      if (c =? ")")%char then (EmptyString, s)
      else let (inside, rest) := spanNotClose s' in (String c inside, rest)
  end.

(** [([^)]+)\)$] just after an opening parenthesis. *)
Definition zoneAt (s : string) : option string :=
  let (inside, rest) := spanNotClose s in
  if inside =? "" then None
  else if rest =? ")" then Some inside
  else None.

(** [s.match(/\(([^)]+)\)$/)], group 1: the leftmost position that matches. *)
Fixpoint timezoneMatch (s : string) : option string :=
  match s with
  | EmptyString => None
  | String c s' =>
      if (c =? "(")%char then
        match zoneAt s' with
        | Some zone => Some zone
        | None => timezoneMatch s'
        end
      else timezoneMatch s'
  end.

(** [(\d{2}:\d{2})] at the head of [s]: the five characters and the rest. *)
Definition timeAt (s : string) : option (string * string) :=
  match s with
  | String a (String b (String c (String d (String e rest))) ) =>
      if isDigit a && isDigit b && (c =? ":")%char && isDigit d && isDigit e
      then Some (String a (String b (String c (String d (String e EmptyString)))), rest)
      else None
  | _ => None
  end.

(** [\s*(\d{2}:\d{2})\s*-\s*(\d{2}:\d{2})] at the head of [s]. *)
Definition timesAt (s : string) : option (string * string) :=
  match timeAt (trimStart s) with
  | Some (startTime, r1) =>
      match trimStart r1 with
      | String "-" r2 =>
          match timeAt (trimStart r2) with
          | Some (endTime, _) => Some (startTime, endTime)
          | None => None
          end
      | _ => None
      end
  | None => None
  end.

(** The lazy [(.+?),] scan: [seen] is what group 1 has taken so far. *)
Fixpoint dateTimeScan (seen s : string) : option (string * string * string) :=
  match s with
  | EmptyString => None
  | String c s' =>
      match (if negb (seen =? "") && (c =? ",")%char then timesAt s' else None) with
      | Some (startTime, endTime) => Some (seen, startTime, endTime)
      | None =>
          if isLineTerminator c then None
          else dateTimeScan (seen ++ String c EmptyString) s'
      end
  end.

(** [s.match(/^(.+?),\s*(\d{2}:\d{2})\s*-\s*(\d{2}:\d{2})/)], groups 1 to 3. *)
Definition dateTimeMatch (s : string) : option (string * string * string) :=
  dateTimeScan EmptyString s.

(** The body of the [try] block. *)
Definition parseEventDateBody (lib : MomentLib) (eventDataString : string)
  : Completion EventDetails :=
  let tz := match timezoneMatch eventDataString with
            | Some zone => zone
            | None => "UTC"
            end in
  match dateTimeMatch eventDataString with
  | None => Throw (Error "Unable to parse event date format")
  | Some (datePart, start, finish) =>
      m <- moment_tz lib datePart "DD MMM YYYY" tz ;;
      formatted <- moment_format lib m "YYYY-MM-DD" ;;
      startIso <- moment_plus_iso lib m start ;;
      endIso <- moment_plus_iso lib m finish ;;
      Normal {| eventDate := Some formatted;
                startTime := Some start;
                endTime := Some finish;
                timezone := tz;
                startDateTime := startIso;
                endDateTime := endIso |}
  end.

Definition parseEventDate (lib : MomentLib) (eventDataString : option string)
  : Completion EventDetails :=
  match eventDataString with
  | None => Normal nullDetails
  | Some s =>
      if s =? "" then Normal nullDetails
      else tryCatch (parseEventDateBody lib s) (fun _ => Normal nullDetails)
  end.

(** *** Provider resolution *)

(** [field.key && (field.key.toLowerCase() === 'host' || field.key === 'Host'
    || field.namespace === 'custom' && field.key === 'host')] *)
Definition isHostMetafield (field : Metafield) : bool :=
  truthy (mf_key field) &&
  match mf_key field with
  | Some k =>
      (toLowerCase k =? "host") || (k =? "Host")
      || (strictEq (mf_namespace field) "custom" && (k =? "host"))
  | None => false
  end.

(** [tag.trim().toLowerCase().startsWith('host:')] *)
Definition isHostTag (tag : string) : bool :=
  startsWith "host:" (toLowerCase (trim tag)).

(** [hostTag.split(':')[1].trim()]; reading [.trim] of a missing element throws. *)
Definition hostTagValue (hostTag : string) : Completion (option string) :=
  match nth_error (split ":" hostTag) 1 with
  | Some v => Normal (Some (trim v))
  | None => Throw (TypeError "Cannot read properties of undefined (reading 'trim')")
  end.

Definition getProductHostBody (svc : Service) (productId : Z)
  : Completion (option string) :=
  metafields <- fetchMetafields svc productId ;;
  match find isHostMetafield metafields with
  | Some hostMetafield => Normal (mf_value hostMetafield)
  | None =>
      product <- fetchProduct svc productId ;;
      if truthy (tags product) then
        match find isHostTag (split "," (orDefault (tags product) "")) with
        | Some hostTag => hostTagValue hostTag
        | None => Normal None
        end
      else Normal None
  end.

Definition getProductHost (svc : Service) (productId : Z) : Completion (option string) :=
  tryCatch (getProductHostBody svc productId) (fun _ => Normal None).

(** A product id is a number; [0] and a missing id are falsy. *)
Definition extractHostFromOrder (svc : Service) (order : RawOrder)
  : Completion (option string) :=
  match line_items order with
  | Some (firstLineItem :: _) =>
      tryCatch
        (match li_product_id firstLineItem with
         | None => Normal None
         | Some pid =>
             if (pid =? 0)%Z then Normal None
             else getProductHost svc pid
         end)
        (fun _ => Normal None)
  | _ => Normal None
  end.

(** [firstLineItem.vendor || null] *)
Definition extractVendorFromOrder (order : RawOrder) : option string :=
  match line_items order with
  | Some (firstLineItem :: _) => orElse (li_vendor firstLineItem) None
  | _ => None
  end.

Definition extractEventName (order : RawOrder) : string :=
  match line_items order with
  | Some (firstLineItem :: _) => orDefault (li_name firstLineItem) "Unknown Event"
  | _ => "Unknown Event"
  end.

(** *** parseOrderWithCowlendar *)

Record BookingCustomer : Type := {
  firstName : string;
  lastName : string;
  customerEmail : string;
  customerPhone : string
}.

Record ItemSummary : Type := {
  item_name : option string;
  item_quantity : option Z;
  item_price : option string;
  item_vendor : option string;
  item_productId : option Z
}.

(** The enriched order the service hands to the routes. *)
Record Booking : Type := {
  shopifyOrderId : option Z;
  orderNumber : option Z;
  orderName : option string;
  bookingCustomer : BookingCustomer;
  eventName : string;
  host : option string;
  vendor : option string;
  provider : option string;
  bookingDate : option string;
  bookingStart : option string;
  bookingEnd : option string;
  bookingZone : string;
  cowlendarId : option string;
  cowlendarIntegrity : option string;
  createdAt : option string;
  financialStatus : option string;
  fulfillmentStatus : option string;
  lineItems : list ItemSummary
}.

(** [order.customer?.field || ''] *)
Definition customerField (order : RawOrder) (field : Customer -> option string) : string :=
  match customer order with
  | Some c => orDefault (field c) ""
  | None => ""
  end.

Definition summarize (item : LineItem) : ItemSummary :=
  {| item_name := li_name item;
     item_quantity := li_quantity item;
     item_price := li_price item;
     item_vendor := li_vendor item;
     item_productId := li_product_id item |}.

Definition parseOrderWithCowlendar (svc : Service) (order : RawOrder)
  : Completion Booking :=
  let cowlendarData := extractCowlendarMetadata order in
  eventDetails <- parseEventDate (momentLib svc) (eventData cowlendarData) ;;
  hostName <- extractHostFromOrder svc order ;;
  let vendorName := extractVendorFromOrder order in
  Normal {| shopifyOrderId := id order;
            orderNumber := order_number order;
            orderName := name order;
            bookingCustomer :=
              {| firstName := customerField order first_name;
                 lastName := customerField order last_name;
                 customerEmail := customerField order email;
                 customerPhone := customerField order phone |};
            eventName := extractEventName order;
            host := orElse hostName vendorName;
            vendor := vendorName;
            provider := orElse hostName vendorName;
            bookingDate := eventDate eventDetails;
            bookingStart := startTime eventDetails;
            bookingEnd := endTime eventDetails;
            bookingZone := timezone eventDetails;
            cowlendarId := internalId cowlendarData;
            cowlendarIntegrity := integrity cowlendarData;
            createdAt := created_at order;
            financialStatus := financial_status order;
            fulfillmentStatus := fulfillment_status order;
            lineItems := match line_items order with
                         | Some items => map summarize items
                         | None => []
                         end |}.

(** *** Queries over event orders *)

Definition getEventOrders (svc : Service) (params : Params) (hostFilter : option string)
  : Completion (list Booking) :=
  tryCatch
    (orders <- getOrders svc params ;;
     let eventOrders := filter (hasCowlendarMetadata (env svc)) orders in
     parsedOrders <- mapM (parseOrderWithCowlendar svc) eventOrders ;;
     match hostFilter with
     | Some h =>
         if h =? "" then Normal parsedOrders
         else Normal (filter (fun order => strictEq (host order) h) parsedOrders)
     | None => Normal parsedOrders
     end)
    (fun e => Throw e).

(** [a && a.toLowerCase() === name.toLowerCase()] *)
Definition sameNameIgnoringCase (a : option string) (name : string) : bool :=
  truthy a &&
  match a with
  | Some s => toLowerCase s =? toLowerCase name
  | None => false
  end.

Definition getOrdersByHost (svc : Service) (hostName : string) (params : Params)
  : Completion (list Booking) :=
  tryCatch
    (eventOrders <- getEventOrders svc params None ;;
     Normal (filter (fun order => sameNameIgnoringCase (host order) hostName) eventOrders))
    (fun e => Throw e).

(** The callback of the filter in [getOrdersByProvider]. *)
Definition providerFilter (providerName : string) (order : Booking) : bool :=
  let hostMatch := sameNameIgnoringCase (host order) providerName in
  let vendorMatch :=
    existsb (fun item => sameNameIgnoringCase (item_vendor item) providerName)
            (lineItems order) in
  hostMatch || vendorMatch.

Definition getOrdersByProvider (svc : Service) (providerName : string) (params : Params)
  : Completion (list Booking) :=
  tryCatch
    (eventOrders <- getEventOrders svc params None ;;
     Normal (filter (providerFilter providerName) eventOrders))
    (fun e => Throw e).

(** Whether the callback of the filter in [getOrdersByProvider] reads
    [providerName.toLowerCase()] on an order: the host is truthy, or one of
    the line items has a truthy vendor. *)
Definition readsProviderName (order : Booking) : bool :=
  truthy (host order)
  || existsb (fun item => truthy (item_vendor item)) (lineItems order).

(** [getOrdersByProvider] handed a truthy value that is not a string (an
    array, an object, a number): it has no [toLowerCase], so the callback
    throws on the first order that reads it, and keeps no other order. *)
Definition getOrdersByProviderOfNonString (svc : Service) (params : Params)
  : Completion (list Booking) :=
  tryCatch
    (eventOrders <- getEventOrders svc params None ;;
     if existsb readsProviderName eventOrders
     then Throw (TypeError "providerName.toLowerCase is not a function")
     else Normal [])
    (fun e => Throw e).

(** [{ ...params, limit: 250 }] *)
Definition withLimit250 (params : Params) : Params :=
  {| p_limit := Some (Num 250); p_status := p_status params; p_email := p_email params |}.

(** *** Listings *)

(** [values.filter(v => v !== null && v !== undefined)] *)
Fixpoint definedStrings (values : list (option string)) : list string :=
  match values with
  | [] => []
  | Some v :: rest => v :: definedStrings rest
  | None :: rest => definedStrings rest
  end.

Definition getAvailableHosts (svc : Service) (params : Params) : Completion (list string) :=
  tryCatch
    (eventOrders <- getEventOrders svc (withLimit250 params) None ;;
     Normal (sort (firstOccurrences (definedStrings (map host eventOrders)))))
    (fun e => Throw e).

(** [if (value) providers.add(value)] *)
Definition addIfTruthy (value : option string) (providers : list string) : list string :=
  match value with
  | Some v => if v =? "" then providers else setAdd v providers
  | None => providers
  end.

(** One round of the [for ... of orders] loop of [getAvailableProviders]. *)
Definition collectProviders (svc : Service) (providers : list string) (order : RawOrder)
  : Completion (list string) :=
  withHost <- (if hasCowlendarMetadata (env svc) order then
                 parsedOrder <- parseOrderWithCowlendar svc order ;;
                 Normal (addIfTruthy (host parsedOrder) providers)
               else Normal providers) ;;
  Normal (match line_items order with
          | Some items =>
              fold_left (fun acc item => addIfTruthy (li_vendor item) acc) items withHost
          | None => withHost
          end).

Definition getAvailableProviders (svc : Service) (params : Params)
  : Completion (list string) :=
  tryCatch
    (orders <- getOrders svc (withLimit250 params) ;;
     providers <- foldM (collectProviders svc) orders [] ;;
     Normal (sort providers))
    (fun e => Throw e).

End Shopify.

(* ------------------------------------------------------------------ *)
(** ** middleware/auth.js *)

Module Auth.
Import JS Shopify.

(** An ordinary object with string values: properties in creation order. *)
Definition Object : Type := list (string * string).

(** [obj[key] = v]: overwrite in place, or create at the end. Assigning a
    string to [__proto__] goes to the prototype setter, which ignores it. *)
Fixpoint setProperty (obj : Object) (key v : string) : Object :=
  match obj with
  | [] => if key =? "__proto__" then [] else [(key, v)]
  | (k, w) :: obj' =>
      if k =? key then (k, v) :: obj'
      else (k, w) :: setProperty obj' key v
  end.

(** A canonical array index: decimal digits without a leading zero, below 2^32 - 1. *)
Definition arrayIndex (key : string) : option Z :=
  match key with
  | EmptyString => None
  | String c rest =>
      if forallb isDigit (list_ascii_of_string key)
         && ((rest =? "") || negb (c =? "0")%char)
      then match digits 10 None key with
           | Some n => if (n <? 4294967295)%Z then Some n else None
           | None => None
           end
      else None
  end.

Fixpoint insertIndex (k : string * Z) (ks : list (string * Z)) : list (string * Z) :=
  match ks with
  | [] => [k]
  | h :: t => if (snd k <=? snd h)%Z then k :: ks else h :: insertIndex k t
  end.

(** [Object.keys(obj)]: array indices in ascending order, then the other
    keys in creation order. *)
Definition keys (obj : Object) : list string :=
  let names := map fst obj in
  let indexed :=
    fold_right (fun k acc => match arrayIndex k with
                             | Some n => insertIndex (k, n) acc
                             | None => acc
                             end) [] names in
  map fst indexed
  ++ filter (fun k => match arrayIndex k with Some _ => false | None => true end) names.

Definition getHostApiKeys (e : Env) : Object :=
  fold_left (fun hostKeys key =>
               if startsWith "HOST_API_KEY_" key then
                 let hostName := toLowerCase (replace "HOST_API_KEY_" "" key) in
                 match getenv e key with
                 | Some v => setProperty hostKeys hostName v
                 | None => hostKeys
                 end
               else hostKeys)
            (map fst e) [].

Record Request : Type := {
  x_api_key : option string;        (* req.headers['x-api-key'] *)
  api_key : option string;          (* req.query.api_key *)
  hostName : string;                (* req.params.hostName *)
  param_email : string;             (* req.params.email *)
  rq_provider : option string;
  rq_customer_email : option string;
  rq_event_date : option string;
  rq_date_from : option string;
  rq_date_to : option string;
  rq_limit : option string;
  rq_status : option string
}.

Inductive Scope : Type := Global | Host.

(** What [authenticateApiKey] leaves on the request. *)
Record Identity : Type := {
  authenticatedAs : option Scope;
  authenticatedHost : option string
}.

Record Failure : Type := {
  failStatus : Z;
  failError : string;
  failMessage : string
}.

(** A middleware either calls [next()] or answers the request itself. *)
Inductive Outcome : Type :=
| Next (who : Identity)
| Respond (failure : Failure).

Definition authenticateApiKey (e : Env) (req : Request) : Outcome :=
  let apiKey := orElse (x_api_key req) (api_key req) in
  let expectedApiKey := getenv e "API_KEY" in
  let hostKeys := getHostApiKeys e in
  let none := {| authenticatedAs := None; authenticatedHost := None |} in
  if strictEq (getenv e "NODE_ENV") "development"
     && negb (truthy expectedApiKey)
     && Nat.eqb (List.length (keys hostKeys)) 0
  then Next none
  else if negb (truthy expectedApiKey) && Nat.eqb (List.length (keys hostKeys)) 0
  then Respond {| failStatus := 500;
                  failError := "Server configuration error";
                  failMessage := "API_KEY or HOST_API_KEY_* not configured" |}
  else
    match apiKey with
    | Some key =>
        if key =? "" then
          Respond {| failStatus := 401;
                     failError := "Authentication required";
                     failMessage := "API key must be provided via X-API-Key header or api_key query parameter" |}
        else if truthy expectedApiKey && strictEq expectedApiKey key then
          Next {| authenticatedAs := Some Global; authenticatedHost := None |}
        else
          let invalid :=
            Respond {| failStatus := 403;
                       failError := "Invalid API key";
                       failMessage := "The provided API key is not valid" |} in
          match find (fun h => strictEq (getenv hostKeys h) key) (keys hostKeys) with
          | Some h =>
              if h =? "" then invalid
              else Next {| authenticatedAs := Some Host; authenticatedHost := Some h |}
          | None => invalid
          end
    | None =>
        Respond {| failStatus := 401;
                   failError := "Authentication required";
                   failMessage := "API key must be provided via X-API-Key header or api_key query parameter" |}
    end.

Definition quoted (s : string) : string :=
  let q := String (ascii_of_nat 34) EmptyString in q ++ s ++ q.

Definition validateHostAccess (who : Identity) (req : Request) : Outcome :=
  match authenticatedAs who with
  | Some Global => Next who
  | Some Host =>
      if strictEq (authenticatedHost who) (toLowerCase (hostName req)) then Next who
      else Respond {| failStatus := 403;
                      failError := "Access denied";
                      failMessage :=
                        "Host " ++ quoted (orDefault (authenticatedHost who) "undefined")
                        ++ " cannot access data for host " ++ quoted (hostName req) |}
  | None =>
      Respond {| failStatus := 403;
                 failError := "Access denied";
                 failMessage := "Invalid authentication" |}
  end.

(** *** rateLimit *)

(** [rateLimitStore]: the request times of each client address. *)
Definition RateStore : Type := list (option string * list Z).

(** [requests.filter(time => time > windowStart)] *)
Definition recent (windowStart : Z) (requests : list Z) : list Z :=
  filter (fun time => (windowStart <? time)%Z) requests.

(** One round of the clean-up loop, on the live map. *)
Definition cleanEntry (windowStart : Z) (store : RateStore) (entry : option string * list Z)
  : RateStore :=
  let store1 := mapSet (fst entry) (recent windowStart (snd entry)) store in
  match mapGet (fst entry) store1 with
  | Some [] => mapDelete (fst entry) store1
  | _ => store1
  end.

(** [for (const [ip, requests] of rateLimitStore.entries()) ...]: every entry
    present at the start is visited once, in insertion order. *)
Definition cleanUp (windowStart : Z) (store : RateStore) : RateStore :=
  fold_left (cleanEntry windowStart) store store.

Inductive RateOutcome : Type :=
| Passed                              (* next() *)
| TooManyRequests (retry_after : Number).  (* 429 *)

(** The middleware [rateLimit(maxRequests, windowMs)] serving one request of
    the client [clientIp] at time [now], on the shared store. *)
Definition rateLimit (maxRequests windowMs : Z) (clientIp : option string) (now : Z)
           (store : RateStore) : RateStore * RateOutcome :=
  let windowStart := (now - windowMs)%Z in
  let cleaned := cleanUp windowStart store in
  let clientRequests := match mapGet clientIp cleaned with
                        | Some requests => requests
                        | None => []
                        end in
  let recentRequests := recent windowStart clientRequests in
  if (maxRequests <=? Z.of_nat (List.length recentRequests))%Z then
    (cleaned,
     TooManyRequests (match recentRequests with
                      | first :: _ => Num (ceilThousandth (first + windowMs - now))
                      | [] => NaN
                      end))
  else (mapSet clientIp (recentRequests ++ [now]) cleaned, Passed).

(** A run of requests [(client, time)] through one limiter, from a store. *)
Definition serve (maxRequests windowMs : Z) (requests : list (option string * Z))
           (store : RateStore) : RateStore :=
  fold_left (fun st request =>
               fst (rateLimit maxRequests windowMs (fst request) (snd request) st))
            requests store.

End Auth.

(* ------------------------------------------------------------------ *)
(** ** routes/orders.js and routes/bookings.js *)

Module Routes.
Import JS Shopify Auth.

(** *** The limit each query path hands to the service *)

(** [const { limit = dflt } = req.query] *)
Definition limitOr (dflt : string) (req : Request) : string :=
  match rq_limit req with
  | Some l => l
  | None => dflt
  end.

(** [if (customer_email) shopifyParams.email = customer_email] *)
Definition emailParam (req : Request) : option string :=
  if truthy (rq_customer_email req) then rq_customer_email req else None.

Inductive QueryPath : Type :=
| OrdersIndex            (* GET /api/orders *)
| OrdersProviders        (* GET /api/orders/providers *)
| BookingsHosts          (* GET /api/bookings/hosts *)
| BookingsHost           (* GET /api/bookings/host/:hostName *)
| BookingsHostCustomer   (* GET /api/bookings/host/:hostName/customer/:email *)
| BookingsHostEvents     (* GET /api/bookings/host/:hostName/events/:date *)
| BookingsIndex          (* GET /api/bookings *)
| BookingsCustomer       (* GET /api/bookings/customer/:email *)
| BookingsEvents         (* GET /api/bookings/events/:date *)
| BookingsDebugOrders.   (* GET /api/bookings/debug/orders *)

Definition onlyLimit (l : Number) : Params :=
  {| p_limit := Some l; p_status := None; p_email := None |}.

(** The [params] argument that reaches [getOrders] on each path. *)
Definition serviceParams (path : QueryPath) (req : Request) : Params :=
  match path with
  | OrdersIndex =>
      {| p_limit := Some (mathMin (parseInt (limitOr "50" req)) 250);
         p_status := Some (match rq_status req with Some st => st | None => "any" end);
         p_email := emailParam req |}
  | OrdersProviders => withLimit250 (onlyLimit (parseInt (limitOr "250" req)))
  | BookingsHosts => withLimit250 (onlyLimit (parseInt (limitOr "250" req)))
  | BookingsHost =>
      {| p_limit := Some (parseInt (limitOr "50" req));
         p_status := Some "any";
         p_email := emailParam req |}
  | BookingsHostCustomer =>
      {| p_limit := Some (parseInt (limitOr "50" req));
         p_status := None;
         p_email := Some (param_email req) |}
  | BookingsHostEvents => onlyLimit (parseInt (limitOr "100" req))
  | BookingsIndex =>
      {| p_limit := Some (parseInt (limitOr "50" req));
         p_status := Some "any";
         p_email := emailParam req |}
  | BookingsCustomer =>
      {| p_limit := Some (parseInt (limitOr "50" req));
         p_status := None;
         p_email := Some (param_email req) |}
  | BookingsEvents => onlyLimit (parseInt (limitOr "100" req))
  | BookingsDebugOrders => onlyLimit (parseInt (limitOr "5" req))
  end.

(** The [limit] of the query that [getOrders] sends to the store. *)
Definition storeLimit (path : QueryPath) (req : Request) : Number :=
  q_limit (queryParams (serviceParams path req)).

(** *** transformForBookingApp *)

Record AppCustomer : Type := {
  app_first_name : string;
  app_last_name : string;
  app_full_name : string;
  app_email : string;
  app_phone : string
}.

Record AppEvent : Type := {
  ev_name : string;
  ev_date : option string;
  ev_start_time : option string;
  ev_end_time : option string;
  ev_timezone : string;
  ev_start_datetime : option string;
  ev_end_datetime : option string
}.

Record AppBooking : Type := {
  booking_id : option Z;
  app_order_number : option Z;
  app_order_name : option string;
  app_customer : AppCustomer;
  app_event : AppEvent;
  app_provider : option string;
  app_host : option string;
  app_vendor : option string;
  app_created_at : option string;
  app_financial_status : option string;
  app_fulfillment_status : option string;
  app_items : list ItemSummary;
  app_internal_id : option string;
  app_integrity : option string;
  app_status : string;
  booking_type : string;
  source : string
}.

(** The enriched order carries no [startDateTime]/[endDateTime], so both
    event instants read as undefined. *)
Definition transformForBookingApp (order : Booking) : AppBooking :=
  let c := bookingCustomer order in
  {| booking_id := shopifyOrderId order;
     app_order_number := orderNumber order;
     app_order_name := orderName order;
     app_customer :=
       {| app_first_name := firstName c;
          app_last_name := lastName c;
          app_full_name := trim (firstName c ++ " " ++ lastName c);
          app_email := customerEmail c;
          app_phone := customerPhone c |};
     app_event :=
       {| ev_name := eventName order;
          ev_date := bookingDate order;
          ev_start_time := bookingStart order;
          ev_end_time := bookingEnd order;
          ev_timezone := bookingZone order;
          ev_start_datetime := None;
          ev_end_datetime := None |};
     app_provider := provider order;
     app_host := host order;
     app_vendor := vendor order;
     app_created_at := createdAt order;
     app_financial_status := financialStatus order;
     app_fulfillment_status := fulfillmentStatus order;
     app_items := lineItems order;
     app_internal_id := cowlendarId order;
     app_integrity := cowlendarIntegrity order;
     app_status := if strictEq (financialStatus order) "paid" then "confirmed" else "pending";
     booking_type := "event";
     source := "shopify_cowlendar" |}.

(** *** GET /api/orders *)

Section Handlers.

(** The order of [+0], which is what [null] converts to, against the number
    a string converts to; [None] when the string is not numeric (NaN). *)
Variable zeroVersus : string -> option comparison.

(** [order.eventDate >= date] *)
Definition notBefore (date : string) (order : Booking) : bool :=
  match bookingDate order with
  | Some d => (date <=? d)%string
  | None => match zeroVersus date with
            | Some Lt => false
            | Some _ => true
            | None => false
            end
  end.

(** [order.eventDate <= date] *)
Definition notAfter (date : string) (order : Booking) : bool :=
  match bookingDate order with
  | Some d => (d <=? date)%string
  | None => match zeroVersus date with
            | Some Gt => false
            | Some _ => true
            | None => false
            end
  end.

(** [if (field) filtered = filtered.filter(test)] *)
Definition filterWhen (field : option string) (test : string -> Booking -> bool)
           (orders : list Booking) : list Booking :=
  match field with
  | Some v => if v =? "" then orders else filter (test v) orders
  | None => orders
  end.

(** Lines 57-76: the three date filters, one after the other. *)
Definition applyDateFilters (req : Request) (orders : list Booking) : list Booking :=
  let byDate :=
    filterWhen (rq_event_date req)
               (fun v order => strictEq (bookingDate order) v) orders in
  let fromDate := filterWhen (rq_date_from req) notBefore byDate in
  filterWhen (rq_date_to req) notAfter fromDate.

Record Response : Type := {
  status : Z;
  success : bool;
  data : list AppBooking;
  count : nat;
  providerEcho : string;
  limitEcho : Number;
  errorText : string
}.

(** The handler behind [authenticateApiKey]. *)
Definition ordersIndexHandler (svc : Service) (req : Request) : Response :=
  let shopifyParams := serviceParams OrdersIndex req in
  let limitNum := mathMin (parseInt (limitOr "50" req)) 250 in
  let fetched :=
    if truthy (rq_provider req)
    then getOrdersByProvider svc (orDefault (rq_provider req) "") shopifyParams
    else getEventOrders svc shopifyParams None in
  match fetched with
  | Normal orders =>
      let bookings := map transformForBookingApp (applyDateFilters req orders) in
      {| status := 200;
         success := true;
         data := bookings;
         count := List.length bookings;
         providerEcho := orDefault (rq_provider req) "all";
         limitEcho := limitNum;
         errorText := "" |}
  | Throw _ =>
      {| status := 500;
         success := false;
         data := [];
         count := 0;
         providerEcho := "";
         limitEcho := limitNum;
         errorText := "Failed to fetch orders" |}
  end.

(** [router.get('/', authenticateApiKey, handler)] *)
Definition ordersIndex (svc : Service) (req : Request) : Response :=
  match authenticateApiKey (env svc) req with
  | Next _ => ordersIndexHandler svc req
  | Respond failure =>
      {| status := failStatus failure;
         success := false;
         data := [];
         count := 0;
         providerEcho := "";
         limitEcho := NaN;
         errorText := failError failure |}
  end.

(** The handler for a request whose [provider] key is repeated or bracketed
    ([?provider=a&provider=b], [?provider[x]=a]): Express hands over an array
    or an object, which is truthy and goes to [getOrdersByProvider] as it is.
    [rq_provider req] is not read; [shown] is the value as the answer echoes
    it. *)
Definition ordersIndexHandlerOfList (svc : Service) (req : Request) (shown : string)
  : Response :=
  let shopifyParams := serviceParams OrdersIndex req in
  let limitNum := mathMin (parseInt (limitOr "50" req)) 250 in
  match getOrdersByProviderOfNonString svc shopifyParams with
  | Normal orders =>
      let bookings := map transformForBookingApp (applyDateFilters req orders) in
      {| status := 200;
         success := true;
         data := bookings;
         count := List.length bookings;
         providerEcho := shown;
         limitEcho := limitNum;
         errorText := "" |}
  | Throw _ =>
      {| status := 500;
         success := false;
         data := [];
         count := 0;
         providerEcho := "";
         limitEcho := limitNum;
         errorText := "Failed to fetch orders" |}
  end.

Definition ordersIndexOfList (svc : Service) (req : Request) (shown : string) : Response :=
  match authenticateApiKey (env svc) req with
  | Next _ => ordersIndexHandlerOfList svc req shown
  | Respond failure =>
      {| status := failStatus failure;
         success := false;
         data := [];
         count := 0;
         providerEcho := "";
         limitEcho := NaN;
         errorText := failError failure |}
  end.

(** The local part of a query over a booking sequence: the provider test of
    [getOrdersByProvider], then the date filters of the route. *)
Definition query (req : Request) (bookings : list Booking) : list Booking :=
  applyDateFilters req
    (filterWhen (rq_provider req) providerFilter bookings).

End Handlers.

(** [router.get('/host/:hostName', authenticateApiKey, validateHostAccess, ...)]:
    the two guards in front of every host-scoped handler. *)
Definition hostGuards (e : Env) (req : Request) : Outcome :=
  match authenticateApiKey e req with
  | Next who => validateHostAccess who req
  | Respond failure => Respond failure
  end.

(** *** GET /api/orders/:orderId *)

Record OrderResponse : Type := {
  orderStatus : Z;
  orderSuccess : bool;
  orderData : option AppBooking;
  orderError : string;
  orderMessage : string
}.

Definition orderByIdHandler (svc : Service) (orderId : string) : OrderResponse :=
  match (order <- getOrderById svc orderId ;;
         if negb (hasCowlendarMetadata (env svc) order) then
           Normal {| orderStatus := 404; orderSuccess := false; orderData := None;
                     orderError := "Order not found";
                     orderMessage := "Order " ++ orderId ++ " is not a bookable event order" |}
         else
           parsedOrder <- parseOrderWithCowlendar svc order ;;
           Normal {| orderStatus := 200; orderSuccess := true;
                     orderData := Some (transformForBookingApp parsedOrder);
                     orderError := ""; orderMessage := "" |}) with
  | Normal response => response
  | Throw e =>
      if includes "Failed to fetch order" (message e) then
        {| orderStatus := 404; orderSuccess := false; orderData := None;
           orderError := "Order not found";
           orderMessage := "Order " ++ orderId ++ " not found" |}
      else
        {| orderStatus := 500; orderSuccess := false; orderData := None;
           orderError := "Failed to fetch order"; orderMessage := message e |}
  end.


(** *** Route tables *)

(** A piece of a route path: a literal, or a [:name] parameter. *)
Inductive Segment : Type :=
| Literal (text : string)
| Param.

(** The pieces of a request path between its slashes; the leading slash and
    one trailing slash do not count. *)
Definition pathSegments (path : string) : list string :=
  let pieces := match split "/" path with
                | EmptyString :: rest => rest
                | pieces => pieces
                end in
  match rev pieces with
  | EmptyString :: front => rev front
  | _ => pieces
  end.

(** Express's default matching of a path against a route: literals compare
    ignoring case, a parameter takes one non-empty piece. The result holds
    the pieces the parameters took. *)
Fixpoint matchRoute (pattern : list Segment) (pieces : list string) : option (list string) :=
  match pattern, pieces with
  | [], [] => Some []
  | Literal text :: pattern', piece :: pieces' =>
      if toLowerCase text =? toLowerCase piece then matchRoute pattern' pieces' else None
  | Param :: pattern', piece :: pieces' =>
      if piece =? "" then None
      else match matchRoute pattern' pieces' with
           | Some taken => Some (piece :: taken)
           | None => None
           end
  | _, _ => None
  end.

(** The first route, in registration order, whose path matches. Every
    handler of the two routers ends the response, so no later route runs.
    The pieces taken are those of the path as written: Express decodes the
    percent escapes of a piece before the handler reads it, and answers a
    malformed escape itself. *)
Fixpoint selectRoute {R} (routes : list (list Segment * R)) (path : string)
  : option (R * list string) :=
  match routes with
  | [] => None
  | (pattern, route) :: routes' =>
      match matchRoute pattern (pathSegments path) with
      | Some taken => Some (route, taken)
      | None => selectRoute routes' path
      end
  end.

Inductive OrdersRoute : Type :=
| OrdersIndexRoute       (* router.get('/') *)
| OrderByIdRoute         (* router.get('/:orderId') *)
| OrdersProvidersRoute.  (* router.get('/providers') *)

(** routes/orders.js, in the order the routes are registered. *)
Definition ordersRoutes : list (list Segment * OrdersRoute) :=
  [([], OrdersIndexRoute);
   ([Param], OrderByIdRoute);
   ([Literal "providers"], OrdersProvidersRoute)].

Inductive BookingsRoute : Type :=
| HostsRoute | HostRoute | HostCustomerRoute | HostEventsRoute | IndexRoute
| ByIdRoute | CustomerRoute | EventsRoute | DebugOrdersRoute.

(** routes/bookings.js, in the order the routes are registered. *)
Definition bookingsRoutes : list (list Segment * BookingsRoute) :=
  [([Literal "hosts"], HostsRoute);
   ([Literal "host"; Param], HostRoute);
   ([Literal "host"; Param; Literal "customer"; Param], HostCustomerRoute);
   ([Literal "host"; Param; Literal "events"; Param], HostEventsRoute);
   ([], IndexRoute);
   ([Param], ByIdRoute);
   ([Literal "customer"; Param], CustomerRoute);
   ([Literal "events"; Param], EventsRoute);
   ([Literal "debug"; Literal "orders"], DebugOrdersRoute)].

(** *** routes/bookings.js *)

(** The query parameters of the legacy routes that [Request] does not carry. *)
Record LegacyQuery : Type := {
  lq_cowlendar_id : option string;
  lq_host : option string;
  lq_order_id : option string;
  lq_id_type : option string
}.

Record BookunEvent : Type := {
  bk_name : string;
  bk_event_host : option string;
  bk_date : option string;
  bk_start_time : option string;
  bk_end_time : option string;
  bk_timezone : string;
  bk_start_datetime : option string;
  bk_end_datetime : option string
}.

Record BookunBooking : Type := {
  bk_booking_id : option Z;
  bk_order_number : option Z;
  bk_order_name : option string;
  bk_customer : AppCustomer;
  bk_event : BookunEvent;
  bk_created_at : option string;
  bk_financial_status : option string;
  bk_fulfillment_status : option string;
  bk_items : list ItemSummary;
  bk_internal_id : option string;
  bk_integrity : option string;
  bk_status : string;
  bk_booking_type : string;
  bk_source : string;
  bk_host : option string
}.

Definition transformForBookun (order : Booking) : BookunBooking :=
  let c := bookingCustomer order in
  {| bk_booking_id := shopifyOrderId order;
     bk_order_number := orderNumber order;
     bk_order_name := orderName order;
     bk_customer :=
       {| app_first_name := firstName c;
          app_last_name := lastName c;
          app_full_name := trim (firstName c ++ " " ++ lastName c);
          app_email := customerEmail c;
          app_phone := customerPhone c |};
     bk_event :=
       {| bk_name := eventName order;
          bk_event_host := host order;
          bk_date := bookingDate order;
          bk_start_time := bookingStart order;
          bk_end_time := bookingEnd order;
          bk_timezone := bookingZone order;
          bk_start_datetime := None;
          bk_end_datetime := None |};
     bk_created_at := createdAt order;
     bk_financial_status := financialStatus order;
     bk_fulfillment_status := fulfillmentStatus order;
     bk_items := lineItems order;
     bk_internal_id := cowlendarId order;
     bk_integrity := cowlendarIntegrity order;
     bk_status := if strictEq (financialStatus order) "paid" then "confirmed" else "pending";
     bk_booking_type := "event";
     bk_source := "shopify_cowlendar";
     bk_host := host order |}.

(** [transformForBookun] handed the promise of a call that was not awaited:
    a promise has no [customer], and reading [firstName] of undefined throws. *)
Definition transformForBookunOfPromise : Completion BookunBooking :=
  Throw (TypeError "Cannot read properties of undefined (reading 'firstName')").

Record ListResponse : Type := {
  listStatus : Z;
  listSuccess : bool;
  listData : list BookunBooking;
  listCount : nat;
  listError : string
}.

Definition listed (bookings : list BookunBooking) : ListResponse :=
  {| listStatus := 200; listSuccess := true; listData := bookings;
     listCount := List.length bookings; listError := "" |}.

Definition failed (code : Z) (error : string) : ListResponse :=
  {| listStatus := code; listSuccess := false; listData := []; listCount := 0;
     listError := error |}.

(** The [event_date] and [cowlendar_id] filters of the legacy routes. *)
Definition legacyFilters (req : Request) (extra : LegacyQuery) (orders : list Booking)
  : list Booking :=
  filterWhen (lq_cowlendar_id extra) (fun v order => strictEq (cowlendarId order) v)
    (filterWhen (rq_event_date req) (fun v order => strictEq (bookingDate order) v) orders).

(** GET /api/bookings/host/:hostName, behind its two guards. *)
Definition bookingsHostHandler (svc : Service) (req : Request) (extra : LegacyQuery)
  : ListResponse :=
  match getOrdersByHost svc (hostName req) (serviceParams BookingsHost req) with
  | Normal hostOrders => listed (map transformForBookun (legacyFilters req extra hostOrders))
  | Throw _ => failed 500 "Failed to fetch host bookings"
  end.

Definition bookingsHost (svc : Service) (req : Request) (extra : LegacyQuery)
  : ListResponse :=
  match hostGuards (env svc) req with
  | Next _ => bookingsHostHandler svc req extra
  | Respond failure => failed (failStatus failure) (failError failure)
  end.

(** GET /api/bookings, behind [authenticateApiKey]. *)
Definition bookingsIndexHandler (svc : Service) (req : Request) (extra : LegacyQuery)
  : ListResponse :=
  let shopifyParams := serviceParams BookingsIndex req in
  match (if truthy (lq_order_id extra) then
           order <- getOrderById svc (orDefault (lq_order_id extra) "") ;;
           parsedOrder <- parseOrderWithCowlendar svc order ;;
           Normal (listed [transformForBookun parsedOrder])
         else
           eventOrders <- (if truthy (lq_host extra)
                           then getOrdersByHost svc (orDefault (lq_host extra) "") shopifyParams
                           else getEventOrders svc shopifyParams None) ;;
           Normal (listed (map transformForBookun (legacyFilters req extra eventOrders)))) with
  | Normal response => response
  | Throw _ => failed 500 "Failed to fetch bookings"
  end.


Record ItemResponse : Type := {
  itemStatus : Z;
  itemSuccess : bool;
  itemData : option BookunBooking;
  itemError : string
}.

(** GET /api/bookings/:id, behind [authenticateApiKey]. In the [shopify]
    branch the call to [parseOrderWithCowlendar] is not awaited. *)
Definition bookingsByIdHandler (svc : Service) (bookingId : string) (extra : LegacyQuery)
  : ItemResponse :=
  let id_type := match lq_id_type extra with Some t => t | None => "shopify" end in
  match (if id_type =? "shopify" then
           order <- getOrderById svc bookingId ;;
           if hasCowlendarMetadata (env svc) order then
             booking <- transformForBookunOfPromise ;;
             Normal (Some booking)
           else Normal None
         else if id_type =? "cowlendar" then
           eventOrders <- getEventOrders svc (onlyLimit (Num 250)) None ;;
           Normal (match find (fun order => strictEq (cowlendarId order) bookingId) eventOrders with
                   | Some foundOrder => Some (transformForBookun foundOrder)
                   | None => None
                   end)
         else Normal None) with
  | Normal (Some booking) =>
      {| itemStatus := 200; itemSuccess := true; itemData := Some booking; itemError := "" |}
  | Normal None =>
      {| itemStatus := 404; itemSuccess := false; itemData := None;
         itemError := "Booking not found" |}
  | Throw _ =>
      {| itemStatus := 500; itemSuccess := false; itemData := None;
         itemError := "Failed to fetch booking" |}
  end.

(** GET /api/bookings/host/:hostName/customer/:email, behind its two guards. *)
Definition bookingsHostCustomerHandler (svc : Service) (req : Request) : ListResponse :=
  match getOrdersByHost svc (hostName req) (serviceParams BookingsHostCustomer req) with
  | Normal hostOrders => listed (map transformForBookun hostOrders)
  | Throw _ => failed 500 "Failed to fetch host customer bookings"
  end.

(** GET /api/bookings/host/:hostName/events/:date, behind its two guards;
    [date] is [req.params.date]. *)
Definition bookingsHostEventsHandler (svc : Service) (req : Request) (date : string)
  : ListResponse :=
  match getOrdersByHost svc (hostName req) (serviceParams BookingsHostEvents req) with
  | Normal hostOrders =>
      let dateFilteredOrders :=
        filter (fun order => strictEq (bookingDate order) date) hostOrders in
      listed (map transformForBookun dateFilteredOrders)
  | Throw _ => failed 500 "Failed to fetch host event bookings"
  end.

(** GET /api/bookings/customer/:email, behind [authenticateApiKey]. *)
Definition bookingsCustomerHandler (svc : Service) (req : Request) : ListResponse :=
  match getEventOrders svc (serviceParams BookingsCustomer req) None with
  | Normal eventOrders => listed (map transformForBookun eventOrders)
  | Throw _ => failed 500 "Failed to fetch customer bookings"
  end.

(** GET /api/bookings/events/:date, behind [authenticateApiKey]. *)
Definition bookingsEventsHandler (svc : Service) (req : Request) (date : string)
  : ListResponse :=
  match getEventOrders svc (serviceParams BookingsEvents req) None with
  | Normal eventOrders =>
      let dateFilteredOrders :=
        filter (fun order => strictEq (bookingDate order) date) eventOrders in
      listed (map transformForBookun dateFilteredOrders)
  | Throw _ => failed 500 "Failed to fetch event bookings"
  end.

End Routes.

(* ------------------------------------------------------------------ *)
(** ** services/bookingkitService.js *)

Module BookingKit.
Import JS.

Section Webhook.

(** [crypto.createHmac('sha256', key).update(payload, 'utf8').digest('hex')] *)
Variable hmacSha256Hex : string -> string -> string.

(** [webhookSecret] is [process.env.BOOKINGKIT_WEBHOOK_SECRET]; [signature]
    is the header value, undefined when the header is missing. *)
Definition verifyWebhookSignature (webhookSecret : option string)
           (payload : string) (signature : option string) : Completion bool :=
  match webhookSecret with
  | None => Normal true
  | Some secret =>
      if secret =? "" then Normal true
      else
        tryCatch
          (let expectedSignature := hmacSha256Hex secret payload in
           match signature with
           | None =>
               Throw (TypeError "Cannot read properties of undefined (reading 'replace')")
           | Some sig =>
               let providedSignature := replace "sha256=" "" sig in
               timingSafeEqual (utf8 expectedSignature) (utf8 providedSignature)
           end)
          (fun _ => Normal false)
  end.

End Webhook.

(** *** OAuth tokens *)

(** [x + y] and [x - y] on numbers: NaN is contagious. *)
Definition plus (x y : Number) : Number :=
  match x, y with
  | Num a, Num b => Num (a + b)
  | _, _ => NaN
  end.

Definition times1000 (x : Number) : Number :=
  match x with
  | Num a => Num (a * 1000)
  | NaN => NaN
  end.

(** [now >= bound]: false against NaN. *)
Definition reached (now : Z) (bound : Number) : bool :=
  match bound with
  | Num b => (b <=? now)%Z
  | NaN => false
  end.

(** The body of a token response; [expires_in] as the number it converts to. *)
Record TokenResponse : Type := {
  tr_access_token : option string;
  tr_refresh_token : option string;
  tr_expires_in : Number;
  tr_token_type : option string
}.

(** An entry of [accessTokens]. *)
Record TokenData : Type := {
  access_token : option string;
  refresh_token : option string;
  expires_at : Number;
  token_type : option string
}.

Definition TokenStore : Type := list (option string * TokenData).

Inductive Grant : Type :=
| AuthorizationCode (code redirect_uri : string)
| RefreshToken (token : string).

(** The OAuth client: its id and [client.post('/oauth/token', grant)] followed
    by [response.data]. *)
Record OAuthClient : Type := {
  clientId : option string;
  postToken : Grant -> Completion TokenResponse
}.

(** Each function takes the reading of [Date.now()] it makes and the token
    map, and returns the map it leaves with its completion. *)
Definition exchangeCodeForToken (client : OAuthClient) (authorizationCode redirectUri : string)
           (now : Z) (store : TokenStore) : TokenStore * Completion TokenResponse :=
  match postToken client (AuthorizationCode authorizationCode redirectUri) with
  | Normal tokenData =>
      (mapSet (clientId client)
              {| access_token := tr_access_token tokenData;
                 refresh_token := tr_refresh_token tokenData;
                 expires_at := plus (Num now) (times1000 (tr_expires_in tokenData));
                 token_type := tr_token_type tokenData |}
              store,
       Normal tokenData)
  | Throw e => (store, Throw (Error ("Failed to exchange code for token: " ++ message e)))
  end.

Definition refreshToken (client : OAuthClient) (token : string) (now : Z)
           (store : TokenStore) : TokenStore * Completion TokenResponse :=
  match postToken client (RefreshToken token) with
  | Normal tokenData =>
      (mapSet (clientId client)
              {| access_token := tr_access_token tokenData;
                 refresh_token := orElse (tr_refresh_token tokenData) (Some token);
                 expires_at := plus (Num now) (times1000 (tr_expires_in tokenData));
                 token_type := tr_token_type tokenData |}
              store,
       Normal tokenData)
  | Throw e => (store, Throw (Error ("Failed to refresh token: " ++ message e)))
  end.

(** [now] is read for the expiry test, [later] by the refresh it may start. *)
Definition getValidAccessToken (client : OAuthClient) (now later : Z) (store : TokenStore)
  : TokenStore * Completion (option string) :=
  match mapGet (clientId client) store with
  | None =>
      (store, Throw (Error "No access token available. Please complete OAuth flow first."))
  | Some tokenData =>
      let isExpired := reached now (plus (expires_at tokenData) (Num (-300000))) in
      if isExpired && truthy (refresh_token tokenData) then
        match refreshToken client (orDefault (refresh_token tokenData) "") later store with
        | (store', Normal newTokenData) => (store', Normal (tr_access_token newTokenData))
        | (store', Throw e) => (store', Throw e)
        end
      else (store, Normal (access_token tokenData))
  end.

(** *** Requests to the partner API *)

Section Requests.

Variables Body Response : Type.

(** The [config] handed to [client.request]: method, url, the token that
    follows [Bearer] in the Authorization header, and the data when given. *)
Record ApiRequest : Type := {
  api_method : string;
  api_url : string;
  api_bearer : option string;
  api_data : option Body
}.

(** [client.request(config)] followed by [response.data]. *)
Variable request : ApiRequest -> Completion Response.

(** [data] is [None] for null, the default. The detail after the colon is
    the upstream error text. *)
Definition makeAuthenticatedRequest (client : OAuthClient) (method endpoint : string)
           (data : option Body) (now later : Z) (store : TokenStore)
  : TokenStore * Completion Response :=
  match getValidAccessToken client now later store with
  | (store', Normal accessToken) =>
      (store',
       tryCatch (request {| api_method := method; api_url := endpoint;
                            api_bearer := accessToken; api_data := data |})
                (fun e => Throw (Error ("API request failed: " ++ message e))))
  | (store', Throw e) => (store', Throw (Error ("API request failed: " ++ message e)))
  end.

Definition createBooking (client : OAuthClient) (bookingData : Body) (now later : Z)
           (store : TokenStore) : TokenStore * Completion Response :=
  match makeAuthenticatedRequest client "POST" "/bookings" (Some bookingData) now later store with
  | (store', Normal response) => (store', Normal response)
  | (store', Throw e) => (store', Throw e)
  end.

(** [bookingId] as the text the template literal gives it. *)
Definition updateBooking (client : OAuthClient) (bookingId : string) (updateData : Body)
           (now later : Z) (store : TokenStore) : TokenStore * Completion Response :=
  match makeAuthenticatedRequest client "PUT" ("/bookings/" ++ bookingId) (Some updateData)
                                 now later store with
  | (store', Normal response) => (store', Normal response)
  | (store', Throw e) => (store', Throw e)
  end.

End Requests.

Arguments api_method {Body} _.
Arguments api_url {Body} _.
Arguments api_bearer {Body} _.
Arguments api_data {Body} _.

(** *** Webhook events *)

(** The [data] member of a webhook payload. *)
Inductive EventData : Type :=
| NoData                          (* undefined or null *)
| ScalarData                      (* a number, string or boolean *)
| ObjectData (id : option string).

(** The [event_type] member: undefined, a string, or any other value, kept as
    the text a template literal gives it. *)
Inductive EventType : Type :=
| NoEventType
| EventName (name : string)
| OtherEventType (shown : string).

(** [event_type === name] *)
Definition isEvent (event_type : EventType) (name : string) : bool :=
  match event_type with
  | EventName t => t =? name
  | _ => false
  end.

(** [`${event_type}`] *)
Definition shownEvent (event_type : EventType) : string :=
  match event_type with
  | NoEventType => "undefined"
  | EventName t => t
  | OtherEventType shown => shown
  end.

(** What [JSON.parse] gave: null, or a value read for [event_type] and
    [data]. *)
Inductive Payload : Type :=
| NullPayload
| Members (event_type : EventType) (data : EventData).

Record Processing : Type := {
  processed : bool;
  action : option string;
  booking_id : option string;
  note : option string
}.

(** [handleBookingCreated] and its two siblings: they differ in the action. *)
Definition handleBooking (actionName : string) (bookingData : EventData)
  : Completion Processing :=
  match bookingData with
  | NoData => Throw (TypeError "Cannot read properties of undefined (reading 'id')")
  | ScalarData =>
      Normal {| processed := true; action := Some actionName; booking_id := None;
                note := None |}
  | ObjectData id =>
      Normal {| processed := true; action := Some actionName; booking_id := id;
                note := None |}
  end.

Definition processWebhook (payload : Payload) : Completion Processing :=
  tryCatch
    (match payload with
     | NullPayload =>
         Throw (TypeError "Cannot destructure property 'event_type' of 'payload' as it is null.")
     | Members event_type data =>
         if isEvent event_type "booking.created" then handleBooking "booking_created" data
         else if isEvent event_type "booking.updated" then handleBooking "booking_updated" data
         else if isEvent event_type "booking.cancelled" then
           handleBooking "booking_cancelled" data
         else
           Normal {| processed := false; action := None; booking_id := None;
                     note := Some ("Unhandled event type: " ++ shownEvent event_type)%string |}
     end)
    (fun e => Throw e).

End BookingKit.

(* ------------------------------------------------------------------ *)
(** ** routes/bookingkit.js *)

Module BookingKitRoutes.
Import JS Shopify Auth Routes BookingKit.

(** *** POST /api/bookingkit/webhooks *)

Record WebhookResponse : Type := {
  hookStatus : Z;
  hookSuccess : bool;
  hookResult : option Processing;
  hookError : string
}.

Section WebhookRoute.

(** The keyed hash of the service and [JSON.parse]. *)
Variable hmacSha256Hex : string -> string -> string.
Variable parseJson : string -> Completion Payload.

(** [signature] is [x-bookingkit-signature || x-webhook-signature]; [body] is
    [payload.toString()], the text that [JSON.parse(payload)] reads as well. *)
Definition webhookRoute (webhookSecret : option string)
           (bookingkitSignature webhookSignature : option string) (body : string)
  : WebhookResponse :=
  let signature := orElse bookingkitSignature webhookSignature in
  match verifyWebhookSignature hmacSha256Hex webhookSecret body signature with
  | Normal true =>
      match parseJson body with
      | Throw _ =>
          {| hookStatus := 400; hookSuccess := false; hookResult := None;
             hookError := "Invalid JSON payload" |}
      | Normal webhookData =>
          match processWebhook webhookData with
          | Normal result =>
              {| hookStatus := 200; hookSuccess := true; hookResult := Some result;
                 hookError := "" |}
          | Throw _ =>
              {| hookStatus := 500; hookSuccess := false; hookResult := None;
                 hookError := "Failed to process webhook" |}
          end
      end
  | Normal false =>
      {| hookStatus := 401; hookSuccess := false; hookResult := None;
         hookError := "Invalid signature" |}
  | Throw _ =>
      {| hookStatus := 500; hookSuccess := false; hookResult := None;
         hookError := "Failed to process webhook" |}
  end.

End WebhookRoute.

(** *** POST /api/bookingkit/sync *)

(** The parsed JSON body: [provider], which may be of any type; [order_ids]
    when it is an array, each element as the text the template literal gives
    it; [limit] when it is not undefined, as the text [parseInt] reads. *)
Record SyncBody : Type := {
  sync_provider : Field;
  sync_order_ids : option (list string);
  sync_limit : option string
}.

Inductive SyncState : Type := Synced | Failed.

Record SyncResult : Type := {
  shopify_order_id : option Z;
  bookingkit_id : option string;
  syncState : SyncState;
  syncError : string
}.

Record SyncResponse : Type := {
  syncStatus : Z;
  syncSuccess : bool;
  syncMessage : string;
  syncedCount : nat;
  failedCount : nat;
  syncResults : list SyncResult
}.

Section SyncRoute.

(** [createBooking(transformShopifyOrderToBookingKit(order))] followed by
    [result.id]: the payload, whose total is a floating-point sum, and the
    request are one step here. *)
Variable createBooking : Booking -> Completion (option string).

(** One round of the loop over [order_ids]: a failed fetch is logged and
    skipped, an order without booking metadata is skipped. *)
Definition collectOrder (svc : Service) (ordersToSync : list Booking) (orderId : string)
  : list Booking :=
  match (order <- getOrderById svc orderId ;;
         if hasCowlendarMetadata (env svc) order then
           parsedOrder <- parseOrderWithCowlendar svc order ;;
           Normal (ordersToSync ++ [parsedOrder])
         else Normal ordersToSync) with
  | Normal collected => collected
  | Throw _ => ordersToSync
  end.

Definition syncParams (body : SyncBody) : Params :=
  onlyLimit (mathMin (parseInt (match sync_limit body with Some l => l | None => "50" end)) 100).

Definition ordersToSync (svc : Service) (body : SyncBody) : Completion (list Booking) :=
  match sync_order_ids body with
  | Some order_ids => Normal (fold_left (collectOrder svc) order_ids [])
  | None =>
      match sync_provider body with
      | Text provider =>
          if provider =? "" then getEventOrders svc (syncParams body) None
          else getOrdersByProvider svc provider (syncParams body)
      | NotText true => getOrdersByProviderOfNonString svc (syncParams body)
      | NotText false => getEventOrders svc (syncParams body) None
      | Missing => getEventOrders svc (syncParams body) None
      end
  end.

(** One round of the loop that sends the orders. *)
Definition syncOrder (order : Booking) : SyncResult :=
  match createBooking order with
  | Normal id =>
      {| shopify_order_id := shopifyOrderId order; bookingkit_id := id;
         syncState := Synced; syncError := "" |}
  | Throw e =>
      {| shopify_order_id := shopifyOrderId order; bookingkit_id := None;
         syncState := Failed; syncError := message e |}
  end.

Definition isSynced (r : SyncResult) : bool :=
  match syncState r with Synced => true | Failed => false end.

Definition isFailed (r : SyncResult) : bool :=
  match syncState r with Synced => false | Failed => true end.

(** The handler behind [authenticateApiKey]. *)
Definition syncHandler (svc : Service) (body : SyncBody) : SyncResponse :=
  match ordersToSync svc body with
  | Throw _ =>
      {| syncStatus := 500; syncSuccess := false; syncMessage := "Sync operation failed";
         syncedCount := 0; failedCount := 0; syncResults := [] |}
  | Normal [] =>
      {| syncStatus := 200; syncSuccess := true; syncMessage := "No orders found to sync";
         syncedCount := 0; failedCount := 0; syncResults := [] |}
  | Normal orders =>
      let results := map syncOrder orders in
      {| syncStatus := 200; syncSuccess := true;
         syncMessage := "Sync completed";   (* followed by the two counts *)
         syncedCount := List.length (filter isSynced results);
         failedCount := List.length (filter isFailed results);
         syncResults := results |}
  end.

(** [router.post('/sync', authenticateApiKey, handler)] *)
Definition syncRoute (svc : Service) (req : Request) (body : SyncBody) : SyncResponse :=
  match authenticateApiKey (env svc) req with
  | Next _ => syncHandler svc body
  | Respond failure =>
      {| syncStatus := failStatus failure; syncSuccess := false;
         syncMessage := failError failure;
         syncedCount := 0; failedCount := 0; syncResults := [] |}
  end.

End SyncRoute.

(** *** GET /api/bookingkit/auth/callback *)

(** [req.query]: [code], [state] and [error]. *)
Record CallbackQuery : Type := {
  cb_code : option string;
  cb_state : option string;
  cb_error : option string
}.

(** [req.session]: [None] without a session object, else its [oauth_state]. *)
Definition Session : Type := option (option string).

(** The answer: on success [callbackToken] is the token response, of which
    [token_type], [expires_in] and [scope] are sent. *)
Record CallbackResponse : Type := {
  callbackStatus : Z;
  callbackSuccess : bool;
  callbackError : string;
  callbackToken : option TokenResponse
}.

Definition refused (code : Z) (error : string) : CallbackResponse :=
  {| callbackStatus := code; callbackSuccess := false; callbackError := error;
     callbackToken := None |}.

(** [sessionState !== state] *)
Definition differs (sessionState state : option string) : bool :=
  negb (sameKey sessionState state).

(** The handler with the session and the token map it leaves; [redirectUri]
    is built from the protocol and the Host header of the request. *)
Definition authCallback (client : OAuthClient) (redirectUri : string) (query : CallbackQuery)
           (session : Session) (now : Z) (store : TokenStore)
  : TokenStore * Session * CallbackResponse :=
  if truthy (cb_error query) then (store, session, refused 400 "Authorization failed")
  else if negb (truthy (cb_code query)) then
    (store, session, refused 400 "Missing authorization code")
  else
    let sessionState := match session with
                        | Some oauth_state => oauth_state
                        | None => None
                        end in
    if negb (truthy sessionState) || differs sessionState (cb_state query) then
      (store, session, refused 400 "Invalid state parameter")
    else
      match exchangeCodeForToken client (orDefault (cb_code query) "") redirectUri now store with
      | (store', Normal tokenData) =>
          (store',
           match session with Some _ => Some None | None => None end,
           {| callbackStatus := 200; callbackSuccess := true; callbackError := "";
              callbackToken := Some tokenData |})
      | (store', Throw _) =>
          (store', session, refused 500 "Failed to complete authorization")
      end.

(** *** GET /api/bookingkit/auth/status *)

Section AuthStatus.

(** The text of a valid time value. *)
Variable isoText : Z -> string.

(** [new Date(t).toISOString()]: a time value is at most 8.64e15 ms from the
    epoch; beyond, and for NaN, the call throws. *)
Definition toISOString (t : Number) : Completion string :=
  match t with
  | Num z =>
      if (Z.abs z <=? 8640000000000000)%Z then Normal (isoText z)
      else Throw (RangeError "Invalid time value")
  | NaN => Throw (RangeError "Invalid time value")
  end.

Record StatusResponse : Type := {
  statusCode : Z;
  statusSuccess : bool;
  authorized : bool;
  token_expired : option bool;
  status_expires_at : option string
}.

(** The handler behind [authenticateApiKey]; the key looked up is
    [process.env.BOOKINGKIT_CLIENT_ID], which the service took as its
    [clientId] when it was built. *)
Definition authStatus (e : Env) (now : Z) (store : TokenStore) : StatusResponse :=
  match mapGet (getenv e "BOOKINGKIT_CLIENT_ID") store with
  | Some tokenData =>
      let isExpired := reached now (expires_at tokenData) in
      match toISOString (expires_at tokenData) with
      | Normal text =>
          {| statusCode := 200; statusSuccess := true; authorized := true;
             token_expired := Some isExpired; status_expires_at := Some text |}
      | Throw _ =>
          {| statusCode := 500; statusSuccess := false; authorized := false;
             token_expired := None; status_expires_at := None |}
      end
  | None =>
      {| statusCode := 200; statusSuccess := true; authorized := false;
         token_expired := None; status_expires_at := None |}
  end.

(** [router.get('/auth/status', authenticateApiKey, handler)] *)
Definition authStatusRoute (e : Env) (req : Request) (now : Z) (store : TokenStore)
  : StatusResponse :=
  match authenticateApiKey e req with
  | Next _ => authStatus e now store
  | Respond failure =>
      {| statusCode := failStatus failure; statusSuccess := false; authorized := false;
         token_expired := None; status_expires_at := None |}
  end.

End AuthStatus.

End BookingKitRoutes.

(* ------------------------------------------------------------------ *)
(** ** A concrete deployment, for the worked examples *)

Module Sample.
Import JS Shopify Auth Routes.

(** The twelve month codes of the schedule text. *)
Definition monthNumber (abbrev : string) : option string :=
  let table :=
    [("jan", "01"); ("feb", "02"); ("mar", "03"); ("apr", "04");
     ("may", "05"); ("jun", "06"); ("jul", "07"); ("aug", "08");
     ("sep", "09"); ("oct", "10"); ("nov", "11"); ("dec", "12")] in
  getenv table (toLowerCase abbrev).

Definition allDigits (s : string) : bool :=
  negb (s =? "") && forallb isDigit (list_ascii_of_string s).

(** A day/month/year reading of ["DD MMM YYYY"] input: year, month and day
    as they print, or nothing for an invalid date. *)
Definition readDate (input : string) : option (string * string * string) :=
  match split " " input with
  | [d; m; y] =>
      match monthNumber m with
      | Some mm =>
          if allDigits d && allDigits y && Nat.eqb (String.length y) 4
             && Nat.leb (String.length d) 2
          then Some (y, mm, if Nat.eqb (String.length d) 1 then ("0" ++ d)%string else d)
          else None
      | None => None
      end
  | _ => None
  end.

(** A stand-in for moment-timezone loaded with no zone data besides UTC:
    no call throws, an unknown zone name is read as UTC, an unreadable date
    formats as ["Invalid date"] and has a null ISO string. Times of day are
    appended as they are, which is right below 24:00. *)
Definition utcMoment : MomentLib :=
  {| Moment := option (string * string * string);
     moment_tz := fun input _ _ => Normal (readDate input);
     moment_format := fun m _ =>
       Normal (match m with
               | Some (y, mm, d) => (y ++ "-" ++ mm ++ "-" ++ d)%string
               | None => "Invalid date"
               end);
     moment_plus_iso := fun m t =>
       Normal (match m with
               | Some (y, mm, d) =>
                   Some (y ++ "-" ++ mm ++ "-" ++ d ++ "T" ++ t ++ ":00.000Z")%string
               | None => None
               end);
     hasZone := fun zone => zone =? "UTC" |}.

Definition attr (k v : string) : Attr :=
  {| attr_name := Some k; attr_value := Some v |}.

Definition lineItem (title : string) (seller : option string) (pid : option Z)
           (props : option (list Attr)) : LineItem :=
  {| li_name := Some title; li_quantity := Some 1%Z; li_price := Some "25.00";
     li_vendor := seller; li_product_id := pid; li_properties := props |}.

Definition order (num : Z) (items : option (list LineItem)) (notes : option (list Attr))
  : RawOrder :=
  {| id := Some num; order_number := Some num; name := Some "#1001";
     customer := Some {| first_name := Some "John"; last_name := Some "Doe";
                         email := Some "john@example.com"; phone := None |};
     line_items := items; note_attributes := notes;
     created_at := Some "2025-11-01T10:00:00Z";
     financial_status := Some "paid"; fulfillment_status := None |}.

Definition schedule : string := "30 nov 2025, 17:00 - 18:30 (Europe/Rome)".

Definition cowNotes : list Attr :=
  [attr "Date" schedule; attr "__cow_internal_id" "abc-123"].

(** Product 1 has a host metafield, product 2 only an empty [host:] tag,
    product 3 cannot be looked up, any other product has neither. *)
Definition metafieldsOf (pid : Z) : Completion (list Metafield) :=
  if (pid =? 1)%Z then
    Normal [{| mf_key := Some "Host"; mf_namespace := Some "custom"; mf_value := Some "Llamas" |}]
  else if (pid =? 3)%Z then Throw (Error "Request failed with status code 404")
  else Normal [].

Definition productOf (pid : Z) : Completion Product :=
  if (pid =? 2)%Z then Normal {| tags := Some "workshop, host:" |}
  else Normal {| tags := None |}.

(** Host metadata "Llamas", first vendor "Other". *)
Definition llamasOrder : RawOrder :=
  order 1 (Some [lineItem "Pottery class" (Some "Other") (Some 1%Z) None]) (Some cowNotes).

(** No host metadata, first vendor "Studio Marta". *)
Definition martaOrder : RawOrder :=
  order 2 (Some [lineItem "Painting class" (Some "Studio Marta") None None]) (Some cowNotes).

(** Neither host nor vendor. *)
Definition orphanOrder : RawOrder :=
  order 3 (Some [lineItem "Open studio" None None (Some [attr "__cow_integrity" "x1"])]) None.

(** An empty [host:] tag on the product, first vendor "Other". *)
Definition emptyHostOrder : RawOrder :=
  order 4 (Some [lineItem "Wine tasting" (Some "Other") (Some 2%Z) None]) (Some cowNotes).

(** An order of another provider. *)
Definition anotherOrder : RawOrder :=
  order 5 (Some [lineItem "Yoga" (Some "Another_Host") None None]) (Some cowNotes).

(** An ordinary shop order, without booking metadata. *)
Definition plainOrder : RawOrder :=
  order 6 (Some [lineItem "Gift card" (Some "Shop") None (Some [attr "Colour" "red"])])
        (Some [attr "gift_note" "hello"]).

(** A schedule and an internal id in the notes and again on the line item. *)
Definition twiceDatedOrder : RawOrder :=
  order 7
    (Some [lineItem "Pottery class" None None
             (Some [attr "Date" "1 dec 2025, 10:00 - 11:00 (UTC)";
                    attr "__cow_internal_id" "item-id"])])
    (Some [attr "__cow_internal_id" "note-id";
           attr "Event Data" "30 nov 2025, 17:00 - 18:30 (Europe/Rome)"]).

Definition environment : Env :=
  [("API_KEY", "global_key_123");
   ("HOST_API_KEY_LLAMAS", "llamas_test_key_456");
   ("NODE_ENV", "production")].

Definition service : Service :=
  {| env := environment;
     fetchOrders := fun _ =>
       Normal [llamasOrder; martaOrder; orphanOrder; emptyHostOrder; anotherOrder; plainOrder];
     fetchOrder := fun _ => Throw (Error "Request failed with status code 404");
     fetchMetafields := metafieldsOf;
     fetchProduct := productOf;
     momentLib := utcMoment |}.

Definition noParams : Params :=
  {| p_limit := None; p_status := None; p_email := None |}.

Definition request (key : option string) (providerName limit : option string) : Request :=
  {| x_api_key := key; api_key := None; hostName := "Another_Host"; param_email := "";
     rq_provider := providerName; rq_customer_email := None; rq_event_date := None;
     rq_date_from := None; rq_date_to := None; rq_limit := limit; rq_status := None |}.


(** The host-scoped caller of the sample asking for another provider. *)
Definition crossRequest : Request :=
  request (Some "llamas_test_key_456") (Some "Another_Host") None.

(** Date strings are never numeric. *)
Definition datesOnly : string -> option comparison := fun _ => None.

Definition hexOfPayload : string -> string -> string :=
  fun _ _ => "3b5d5c3712955042212316173ccf37be800b1c9a2e6de4b7a1f0c3d5e8a9b6c4".

(** An order whose product cannot be looked up. *)
Definition brokenLookupOrder : RawOrder :=
  order 8 (Some [lineItem "Candle making" (Some "Wax Works") (Some 3%Z) None]) (Some cowNotes).

(** Three requests of one client and one of another, two per minute allowed. *)
Definition traffic : list (option string * Z) :=
  [(Some "10.0.0.1", 1000%Z); (Some "10.0.0.1", 2000%Z);
   (Some "10.0.0.2", 2500%Z); (Some "10.0.0.1", 3000%Z)].

(** The host-scoped caller asking for its own host, in another case. *)
Definition ownRequest : Request :=
  {| x_api_key := Some "llamas_test_key_456"; api_key := None;
     hostName := "LLamas"; param_email := "";
     rq_provider := None; rq_customer_email := None; rq_event_date := None;
     rq_date_from := None; rq_date_to := None; rq_limit := None; rq_status := None |}.

(** The store of the sample, answering order lookups for ids 1 and 6. *)
Definition shop : Service :=
  {| env := environment;
     fetchOrders := fetchOrders service;
     fetchOrder := fun orderId =>
       if orderId =? "1" then Normal llamasOrder
       else if orderId =? "6" then Normal plainOrder
       else Throw (Error "Request failed with status code 404");
     fetchMetafields := metafieldsOf;
     fetchProduct := productOf;
     momentLib := utcMoment |}.

(** A request for the bookings of one host on one day, at most twenty orders. *)
Definition dayRequest : Request :=
  {| x_api_key := Some "llamas_test_key_456"; api_key := None;
     hostName := "LLamas"; param_email := "";
     rq_provider := None; rq_customer_email := None; rq_event_date := Some "2024-03-15";
     rq_date_from := None; rq_date_to := None; rq_limit := Some "20"; rq_status := None |}.

(** A partner API that answers every request with the token it was sent. *)
Definition echoBearer : BookingKit.ApiRequest unit -> Completion (option string) :=
  fun config => Normal (BookingKit.api_bearer config).

(** The callback of an authorisation that was started with state [4f2a]. *)
Definition callback : BookingKitRoutes.CallbackQuery :=
  {| BookingKitRoutes.cb_code := Some "code-1"; BookingKitRoutes.cb_state := Some "4f2a";
     BookingKitRoutes.cb_error := None |}.

(** An OAuth server whose tokens carry no lifetime. *)
Definition openEnded : BookingKit.OAuthClient :=
  {| BookingKit.clientId := Some "clubjoy";
     BookingKit.postToken := fun _ =>
       Normal {| BookingKit.tr_access_token := Some "access-1";
                 BookingKit.tr_refresh_token := None;
                 BookingKit.tr_expires_in := NaN;
                 BookingKit.tr_token_type := Some "Bearer" |} |}.

Definition noText : Z -> string := fun _ => "".

(** The sample deployment with its partner client id. *)
Definition partnerEnvironment : Env :=
  ("BOOKINGKIT_CLIENT_ID", "clubjoy") :: environment.

(** A caller holding the global key. *)
Definition globalRequest : Request :=
  request (Some "global_key_123") None None.

Definition noExtra : LegacyQuery :=
  {| lq_cowlendar_id := None; lq_host := None; lq_order_id := None; lq_id_type := None |}.

Definition byOrderId (orderId : string) : LegacyQuery :=
  {| lq_cowlendar_id := None; lq_host := None; lq_order_id := Some orderId;
     lq_id_type := None |}.

(** An OAuth server that grants one-hour tokens and renews them. *)
Definition oauth : BookingKit.OAuthClient :=
  {| BookingKit.clientId := Some "clubjoy";
     BookingKit.postToken := fun grant =>
       match grant with
       | BookingKit.AuthorizationCode _ _ =>
           Normal {| BookingKit.tr_access_token := Some "access-1";
                     BookingKit.tr_refresh_token := Some "refresh-1";
                     BookingKit.tr_expires_in := Num 3600;
                     BookingKit.tr_token_type := Some "Bearer" |}
       | BookingKit.RefreshToken _ =>
           Normal {| BookingKit.tr_access_token := Some "access-2";
                     BookingKit.tr_refresh_token := None;
                     BookingKit.tr_expires_in := Num 3600;
                     BookingKit.tr_token_type := Some "Bearer" |}
       end |}.

(** A partner API that refuses the booking of order 2. *)
Definition createSample (order : Booking) : Completion (option string) :=
  match shopifyOrderId order with
  | Some 2%Z => Throw (Error "API request failed: validation")
  | _ => Normal (Some "bk-1")
  end.

Definition syncAll : BookingKitRoutes.SyncBody :=
  {| BookingKitRoutes.sync_provider := Missing;
     BookingKitRoutes.sync_order_ids := None;
     BookingKitRoutes.sync_limit := Some "1000" |}.

(** A parser that reads every body as a refund event without data. *)
Definition parseAsRefund (body : string) : Completion BookingKit.Payload :=
  Normal (BookingKit.Members (BookingKit.EventName "booking.refunded") BookingKit.NoData).

(** A token map holding a token that expired long ago and cannot be renewed. *)
Definition staleStore : BookingKit.TokenStore :=
  [(Some "clubjoy",
    {| BookingKit.access_token := Some "old"; BookingKit.refresh_token := None;
       BookingKit.expires_at := Num 5; BookingKit.token_type := None |})].

End Sample.

(* ------------------------------------------------------------------ *)
(** ** The specification's vocabulary *)

Module Spec.
Import JS Shopify Auth Routes.

Definition noteAttrs (order : RawOrder) : list Attr :=
  match note_attributes order with Some attrs => attrs | None => [] end.

Definition itemsOf (order : RawOrder) : list LineItem :=
  match line_items order with Some items => items | None => [] end.

Definition propsOf (item : LineItem) : list Attr :=
  match li_properties item with Some props => props | None => [] end.


(** The combined scan: note attributes, then each line item's properties. *)
Definition scanOrder (order : RawOrder) : list Attr :=
  noteAttrs order ++ flat_map propsOf (itemsOf order).

(** The value of the last attribute of a scan that a rule recognises. *)
Definition lastMatching (rule : Attr -> bool) (scan : list Attr) : option string :=
  match find rule (rev scan) with
  | Some a => attr_value a
  | None => None
  end.

Definition isInternalIdKey (a : Attr) : bool := strictEq (attr_name a) "__cow_internal_id".

Definition isIntegrityKey (a : Attr) : bool := strictEq (attr_name a) "__cow_integrity".

(** The exact key [Date], or a key whose lowercase form contains [data]. *)
Definition isScheduleKey (a : Attr) : bool :=
  match attr_name a with
  | Some key => (key =? "Date") || includes "data" (toLowerCase key)
  | None => false
  end.

(** Case-insensitive equality of a field, when it is there, with a name. *)
Definition equalIgnoringCase (field : option string) (name : string) : bool :=
  match field with
  | Some s => toLowerCase s =? toLowerCase name
  | None => false
  end.

(** The host-or-any-vendor union of the provider filter. *)
Definition providerOrAnyVendor (name : string) (b : Booking) : bool :=
  equalIgnoringCase (provider b) name
  || existsb (fun item => equalIgnoringCase (item_vendor item) name) (lineItems b).

(** Provider precedence as the resolution invariant words it: host when
    non-null, else vendor. *)
Definition hostElseVendor (h v : option string) : option string :=
  match h with
  | Some x => Some x
  | None => v
  end.

(** The same with an empty host counted as missing. *)
Definition presentHostElseVendor (h v : option string) : option string :=
  match h with
  | Some x => if x =? "" then v else Some x
  | None => v
  end.

(** The locally applied fields of a filter spec. *)
Inductive Field : Type := ByProvider | ByEventDate | ByDateFrom | ByDateTo.






(** The limit a path uses when the caller names none. *)
Definition defaultLimit (path : QueryPath) : string :=
  match path with
  | OrdersIndex | BookingsHost | BookingsHostCustomer | BookingsIndex
  | BookingsCustomer => "50"
  | OrdersProviders | BookingsHosts => "250"
  | BookingsHostEvents | BookingsEvents => "100"
  | BookingsDebugOrders => "5"
  end.

(** The paths that hand the parsed limit to the store as it is. *)
Definition unclampedPaths : list QueryPath :=
  [BookingsHost; BookingsHostCustomer; BookingsHostEvents; BookingsIndex;
   BookingsCustomer; BookingsEvents; BookingsDebugOrders].

(** [xs] is [ys] with some elements left out, the others in place. *)
Inductive Subsequence {A} : list A -> list A -> Prop :=
| sub_nil : Subsequence [] []
| sub_skip : forall x xs ys, Subsequence xs ys -> Subsequence xs (x :: ys)
| sub_keep : forall x xs ys, Subsequence xs ys -> Subsequence (x :: xs) (x :: ys).


(** The zone name that [parseEventDate] reads off a schedule text. *)
Definition zoneOf (s : string) : string :=
  match timezoneMatch s with
  | Some zone => zone
  | None => "UTC"
  end.

(** A date library with another zone database. *)
Definition withZones (lib : MomentLib) (known : string -> bool) : MomentLib :=
  {| Moment := Moment lib;
     moment_tz := moment_tz lib;
     moment_format := moment_format lib;
     moment_plus_iso := moment_plus_iso lib;
     hasZone := known |}.

(** The claim that every path fetches with a limit of at most 250. *)
Definition limitNeverAbove250 : Prop :=
  forall (path : QueryPath) (req : Request) (n : Z),
    storeLimit path req = Num n -> (n <= 250)%Z.

(** The claim that an unrecognised zone name is replaced by UTC. *)
Definition unknownZoneBecomesUTC (lib : MomentLib) : Prop :=
  forall (s zone : string) (r : EventDetails),
    timezoneMatch s = Some zone ->
    hasZone lib zone = false ->
    parseEventDate lib (Some s) = Normal r ->
    timezone r = "UTC".

(** The claim that the provider is the host whenever the host is non-null. *)
Definition providerIsHostElseVendor (svc : Service) : Prop :=
  forall (order : RawOrder) (h : option string) (b : Booking),
    extractHostFromOrder svc order = Normal h ->
    parseOrderWithCowlendar svc order = Normal b ->
    provider b = hostElseVendor h (extractVendorFromOrder order).

(** A character occurs in a string. *)
Definition occurs (c : ascii) (s : string) : Prop := In c (list_ascii_of_string s).

(** Two digits, a colon, two digits. *)
Definition clockShaped (t : string) : bool :=
  match t with
  | String a (String b (String c (String d (String e EmptyString)))) =>
      isDigit a && isDigit b && (c =? ":")%char && isDigit d && isDigit e
  | _ => false
  end.

(** Ascending by code units. *)
Definition ascending (names : list string) : Prop :=
  Sorted (fun a b => (a <=? b)%string = true) names.

(** The store with every client's old times dropped and emptied clients removed. *)
Definition swept (windowStart : Z) (store : RateStore) : RateStore :=
  filter (fun entry => match snd entry with [] => false | _ => true end)
         (map (fun entry => (fst entry, recent windowStart (snd entry))) store).

(** The times the store holds for a client. *)
Definition stored (client : option string) (store : RateStore) : list Z :=
  match mapGet client store with
  | Some times => times
  | None => []
  end.

(** One entry per client, none of them empty, none longer than the limit. *)
Definition tidy (maxRequests : Z) (store : RateStore) : Prop :=
  NoDup (map fst store)
  /\ forall client times,
       In (client, times) store ->
       times <> [] /\ (Z.of_nat (List.length times) <= maxRequests)%Z.

(** The event types that [processWebhook] handles. *)
(** Two list answers with the same status and the same bookings; the error
    texts of the routes differ. *)
Definition sameAnswer (a b : ListResponse) : Prop :=
  listStatus a = listStatus b /\ listSuccess a = listSuccess b
  /\ listData a = listData b /\ listCount a = listCount b.

(** A number that [Date] takes as a time value. *)
Definition timeValue (t : Number) : bool :=
  match t with
  | Num z => (Z.abs z <=? 8640000000000000)%Z
  | NaN => false
  end.

Definition handledEvent (event_type : BookingKit.EventType) : bool :=
  match event_type with
  | BookingKit.EventName name =>
      existsb (String.eqb name) ["booking.created"; "booking.updated"; "booking.cancelled"]
  | _ => false
  end.

End Spec.

(* ------------------------------------------------------------------ *)
(** ** Properties *)

Import JS Shopify Auth Routes Spec.

(** *** Completions *)

Lemma bind_normal {A B} (c : Completion A) (k : A -> Completion B) (b : B) :
  bind c k = Normal b -> exists a, c = Normal a /\ k a = Normal b.
Proof.
  destruct c as [a|e]; simpl; intro H; [eauto | discriminate].
Qed.

Lemma tryCatch_rethrow {A} (c : Completion A) :
  tryCatch c (fun e => Throw e) = c.
Proof. destruct c; reflexivity. Qed.

Lemma tryCatch_absorb {A} (c : Completion A) (d : A) :
  returns (tryCatch c (fun _ => Normal d)).
Proof. destruct c; simpl; unfold returns; eauto. Qed.

Lemma mapM_normal {A B} (f : A -> Completion B) (xs : list A) (ys : list B) :
  mapM f xs = Normal ys -> Forall2 (fun x y => f x = Normal y) xs ys.
Proof.
  revert ys; induction xs as [|x xs IH]; simpl; intros ys H.
  - injection H as <-. constructor.
  - apply bind_normal in H as (y & Hy & H).
    apply bind_normal in H as (ys' & Hys & H).
    injection H as <-. constructor; auto.
Qed.

Lemma mapM_total {A B} (f : A -> Completion B) (xs : list A) :
  (forall x, returns (f x)) -> returns (mapM f xs).
Proof.
  intro Hf; induction xs as [|x xs [ys IH]]; simpl.
  - eexists; reflexivity.
  - destruct (Hf x) as [y Hy]. rewrite Hy; simpl. rewrite IH; simpl.
    eexists; reflexivity.
Qed.

Lemma Forall2_In_r {A B} (R : A -> B -> Prop) xs ys y :
  Forall2 R xs ys -> In y ys -> exists x, In x xs /\ R x y.
Proof.
  induction 1 as [|x y' xs ys HR _ IH]; simpl; [tauto|].
  intros [->|Hin]; [eauto|]. destruct (IH Hin) as (x' & ? & ?); eauto.
Qed.

Lemma Forall2_In_l {A B} (R : A -> B -> Prop) xs ys x :
  Forall2 R xs ys -> In x xs -> exists y, In y ys /\ R x y.
Proof.
  induction 1 as [|x' y xs ys HR _ IH]; simpl; [tauto|].
  intros [->|Hin]; [eauto|]. destruct (IH Hin) as (y' & ? & ?); eauto.
Qed.

(** *** Strings *)





(** *** Qualification *)

Section Qualification.

Variable e : Env.






End Qualification.

Lemma getEventOrders_normal (svc : Service) params hostFilter bs :
  getEventOrders svc params hostFilter = Normal bs ->
  exists orders parsed,
    getOrders svc params = Normal orders
    /\ Forall2 (fun o b => parseOrderWithCowlendar svc o = Normal b)
               (filter (hasCowlendarMetadata (env svc)) orders) parsed
    /\ (forall b, In b bs -> In b parsed)
    /\ (truthy hostFilter = false -> bs = parsed).
Proof.
  unfold getEventOrders. rewrite tryCatch_rethrow. intro H.
  apply bind_normal in H as (orders & Horders & H).
  apply bind_normal in H as (parsed & Hparsed & H).
  exists orders, parsed. split; [exact Horders|].
  split; [apply mapM_normal; exact Hparsed|].
  destruct hostFilter as [h|]; simpl.
  - destruct (String.eqb_spec h "") as [->|Hh]; simpl in *.
    + injection H as <-. auto.
    + injection H as <-. split; [|discriminate].
      intros b Hb. apply filter_In in Hb. tauto.
  - injection H as <-. auto.
Qed.


(** *** Metadata extraction *)

(** What one callback round does to each field, rule by rule. *)
Lemma processAttr_fields (m : CowlendarMetadata) (a : Attr) :
  processAttr m a =
  {| eventData := if isScheduleKey a then attr_value a else eventData m;
     internalId := if isInternalIdKey a then attr_value a else internalId m;
     integrity := if isIntegrityKey a then attr_value a else integrity m |}.
Proof.
  unfold processAttr, isScheduleKey, isInternalIdKey, isIntegrityKey, strictEq, truthy.
  destruct m as [ed ii ig]; destruct (attr_name a) as [key|]; simpl; [|reflexivity].
  destruct (String.eqb_spec key "__cow_internal_id") as [->|_]; [reflexivity|].
  destruct (String.eqb_spec key "__cow_integrity") as [->|_]; [reflexivity|].
  destruct (String.eqb_spec key "Date") as [->|_]; [reflexivity|].
  destruct (String.eqb_spec key "") as [->|_]; [reflexivity|].
  simpl. destruct (includes "data" (toLowerCase key)); reflexivity.
Qed.

(** A scan leaves in each field the value of the last attribute its rule
    recognises, or what the field held before. *)
Lemma processAttributes_last (attrs : list Attr) (m : CowlendarMetadata) :
  processAttributes m attrs =
  {| eventData := match find isScheduleKey (rev attrs) with
                  | Some a => attr_value a
                  | None => eventData m
                  end;
     internalId := match find isInternalIdKey (rev attrs) with
                   | Some a => attr_value a
                   | None => internalId m
                   end;
     integrity := match find isIntegrityKey (rev attrs) with
                  | Some a => attr_value a
                  | None => integrity m
                  end |}.
Proof.
  induction attrs as [|a attrs IH] using rev_ind.
  - destruct m; reflexivity.
  - unfold processAttributes in *. rewrite fold_left_app; simpl.
    rewrite IH, processAttr_fields, rev_unit; simpl.
    destruct (isScheduleKey a), (isInternalIdKey a), (isIntegrityKey a); reflexivity.
Qed.

Lemma processAttributes_app (m : CowlendarMetadata) (xs ys : list Attr) :
  processAttributes (processAttributes m xs) ys = processAttributes m (xs ++ ys).
Proof. unfold processAttributes. now rewrite fold_left_app. Qed.

Lemma lineItems_scan (items : list LineItem) (m : CowlendarMetadata) :
  fold_left (fun m item =>
               match li_properties item with
               | Some ((_ :: _) as props) => processAttributes m props
               | _ => m
               end) items m
  = processAttributes m (flat_map propsOf items).
Proof.
  revert m; induction items as [|item items IH]; intro m; simpl; [reflexivity|].
  rewrite IH, <- processAttributes_app. unfold propsOf.
  destruct (li_properties item) as [[|p props]|]; reflexivity.
Qed.

(** The two-phase walk of the source is one pass over the combined scan. *)
Lemma extract_single_pass (order : RawOrder) :
  extractCowlendarMetadata order = processAttributes emptyMetadata (scanOrder order).
Proof.
  unfold extractCowlendarMetadata, scanOrder, noteAttrs, itemsOf.
  rewrite <- processAttributes_app.
  destruct (note_attributes order) as [[|a attrs]|];
    destruct (line_items order) as [[|item items]|];
    try reflexivity; apply lineItems_scan.
Qed.

Lemma lastMatching_none (rule : Attr -> bool) (scan : list Attr) :
  (forall a, In a scan -> rule a = false) -> lastMatching rule scan = None.
Proof.
  intro H. unfold lastMatching.
  destruct (find rule (rev scan)) as [a|] eqn:Hf; [|reflexivity].
  apply find_some in Hf as [Hin Ha]. apply in_rev in Hin.
  rewrite (H a Hin) in Ha. discriminate.
Qed.

(** [lastMatching] picks the attribute after which the scan has no match. *)
Lemma lastMatching_split (rule : Attr -> bool) (before after : list Attr) (a : Attr) :
  rule a = true ->
  (forall x, In x after -> rule x = false) ->
  lastMatching rule (before ++ a :: after) = attr_value a.
Proof.
  intros Ha Hafter. unfold lastMatching.
  rewrite rev_app_distr; simpl. rewrite <- app_assoc; simpl.
  assert (Hfind : forall l rest, (forall x, In x l -> rule x = false) ->
                                 find rule (l ++ rest) = find rule rest).
  { induction l as [|x l IH]; simpl; intros rest Hl; [reflexivity|].
    rewrite (Hl x (or_introl eq_refl)). apply IH. auto. }
  rewrite Hfind; [simpl; rewrite Ha; reflexivity|].
  intros x Hx. apply Hafter, in_rev. exact Hx.
Qed.

(** C4. Extraction reads the note attributes and then each line item's
    properties as one scan; the internal id, the integrity token and the
    schedule text are each the value of the last attribute of that scan that
    the field's rule recognises ([__cow_internal_id], [__cow_integrity], and
    [Date] or a key whose lowercase form contains [data]), later matches
    overwriting earlier ones; a field whose rule recognises nothing is null.
    The function is total and returns a fresh record. *)
Theorem C4_extract_last_match_wins (order : RawOrder) :
  extractCowlendarMetadata order =
  {| eventData := lastMatching isScheduleKey (scanOrder order);
     internalId := lastMatching isInternalIdKey (scanOrder order);
     integrity := lastMatching isIntegrityKey (scanOrder order) |}
  /\ (forall rule before a after,
        scanOrder order = before ++ a :: after ->
        rule a = true ->
        (forall x, In x after -> rule x = false) ->
        lastMatching rule (scanOrder order) = attr_value a)
  /\ (forall rule,
        (forall a, In a (scanOrder order) -> rule a = false) ->
        lastMatching rule (scanOrder order) = None).
Proof.
  split; [|split].
  - rewrite extract_single_pass, processAttributes_last. unfold lastMatching; simpl.
    destruct (find isScheduleKey _), (find isInternalIdKey _), (find isIntegrityKey _);
      reflexivity.
  - intros rule before a after -> Ha Hafter. apply lastMatching_split; assumption.
  - intro rule. apply lastMatching_none.
Qed.

(** A line-item [Date] after a note attribute [Event Data]: the later one wins. *)
Lemma C4_witness :
  eventData (extractCowlendarMetadata Sample.twiceDatedOrder)
  = Some "1 dec 2025, 10:00 - 11:00 (UTC)"
  /\ internalId (extractCowlendarMetadata Sample.twiceDatedOrder) = Some "item-id"
  /\ integrity (extractCowlendarMetadata Sample.twiceDatedOrder) = None.
Proof.
  pose proof (C4_extract_last_match_wins Sample.twiceDatedOrder) as (Heq & Hlast & Hnone).
  rewrite Heq; simpl.
  split; [|split].
  - apply (Hlast isScheduleKey
                 [Sample.attr "__cow_internal_id" "note-id";
                  Sample.attr "Event Data" "30 nov 2025, 17:00 - 18:30 (Europe/Rome)"]
                 (Sample.attr "Date" "1 dec 2025, 10:00 - 11:00 (UTC)")
                 [Sample.attr "__cow_internal_id" "item-id"]);
      [reflexivity | reflexivity |].
    intros x [<-|[]]. reflexivity.
  - apply (Hlast isInternalIdKey
                 [Sample.attr "__cow_internal_id" "note-id";
                  Sample.attr "Event Data" "30 nov 2025, 17:00 - 18:30 (Europe/Rome)";
                  Sample.attr "Date" "1 dec 2025, 10:00 - 11:00 (UTC)"]
                 (Sample.attr "__cow_internal_id" "item-id") []);
      [reflexivity | reflexivity |].
    intros x [].
  - apply Hnone. intros a Ha. simpl in Ha.
    repeat (destruct Ha as [<-|Ha]; [reflexivity|]). destruct Ha.
Defined.

(** *** Schedule parsing *)

Section ScheduleParser.

Variable lib : MomentLib.

(** When the [try] block runs to its end, the pattern matched and the
    result carries its groups and the zone text as found. *)
Lemma parseEventDateBody_normal (s : string) (r : EventDetails) :
  parseEventDateBody lib s = Normal r ->
  exists datePart start finish formatted,
    dateTimeMatch s = Some (datePart, start, finish)
    /\ eventDate r = Some formatted
    /\ startTime r = Some start
    /\ endTime r = Some finish
    /\ timezone r = match timezoneMatch s with
                    | Some zone => zone
                    | None => "UTC"
                    end.
Proof.
  unfold parseEventDateBody.
  destruct (dateTimeMatch s) as [[[datePart start] finish]|]; [|discriminate].
  intro H.
  apply bind_normal in H as (m & _ & H).
  apply bind_normal in H as (formatted & _ & H).
  apply bind_normal in H as (startIso & _ & H).
  apply bind_normal in H as (endIso & _ & H).
  injection H as <-. simpl. exists datePart, start, finish, formatted. auto.
Qed.

Lemma parseEventDate_cases (v : option string) (r : EventDetails) :
  parseEventDate lib v = Normal r ->
  r = nullDetails
  \/ exists s, v = Some s /\ parseEventDateBody lib s = Normal r.
Proof.
  unfold parseEventDate. destruct v as [s|].
  - destruct (s =? ""); [intro H; injection H as <-; auto|].
    destruct (parseEventDateBody lib s) as [r'|err] eqn:Hbody; simpl; intro H;
      injection H as <-; eauto.
  - intro H; injection H as <-; auto.
Qed.

Lemma parseEventDate_returns (v : option string) : returns (parseEventDate lib v).
Proof.
  unfold parseEventDate. destruct v as [s|]; [|eexists; reflexivity].
  destruct (s =? ""); [eexists; reflexivity | apply tryCatch_absorb].
Qed.

Lemma parseEventDate_no_match (s : string) :
  dateTimeMatch s = None -> parseEventDate lib (Some s) = Normal nullDetails.
Proof.
  intro H. unfold parseEventDate, parseEventDateBody. rewrite H.
  destruct (s =? ""); reflexivity.
Qed.

Lemma parseEventDate_null_date (v : option string) (r : EventDetails) :
  parseEventDate lib v = Normal r -> eventDate r = None -> r = nullDetails.
Proof.
  intros Hr Hdate.
  apply parseEventDate_cases in Hr as [->|(s & _ & Hbody)]; [reflexivity|].
  apply parseEventDateBody_normal in Hbody as (? & ? & ? & formatted & _ & Hd & _).
  congruence.
Qed.

End ScheduleParser.

(** C3. The schedule parser always returns, whatever the date library does:
    null and the empty string give the all-null shape with timezone "UTC"; so
    does every string that the leading date-and-times pattern does not match;
    and a result whose date is null has null times and null instants (and the
    timezone "UTC"). *)
Theorem C3_parse_never_raises (lib : MomentLib) :
  (forall v, returns (parseEventDate lib v))
  /\ parseEventDate lib None = Normal nullDetails
  /\ parseEventDate lib (Some "") = Normal nullDetails
  /\ (forall s, dateTimeMatch s = None ->
                parseEventDate lib (Some s) = parseEventDate lib None)
  /\ (forall v r, parseEventDate lib v = Normal r ->
                  eventDate r = None ->
                  startTime r = None /\ endTime r = None
                  /\ startDateTime r = None /\ endDateTime r = None
                  /\ timezone r = "UTC").
Proof.
  split; [apply parseEventDate_returns|].
  split; [reflexivity|]. split; [reflexivity|].
  split; [intros s H; apply parseEventDate_no_match; exact H|].
  intros v r Hr Hdate.
  rewrite (parseEventDate_null_date lib v r Hr Hdate). repeat split.
Qed.

(** The text "garbage" parses to what null parses to. *)
Lemma C3_witness :
  parseEventDate Sample.utcMoment (Some "garbage") = Normal nullDetails
  /\ startTime nullDetails = None.
Proof.
  pose proof (C3_parse_never_raises Sample.utcMoment) as (_ & Hnull & _ & Hno & Hshape).
  split.
  - rewrite (Hno "garbage" eq_refl). exact Hnull.
  - exact (proj1 (Hshape None nullDetails Hnull eq_refl)).
Defined.

(** The zone name is copied from the text as it stands. *)
Lemma C6_counterexample :
  timezoneMatch "30 nov 2025, 17:00 - 18:30 (Mars/Olympus)" = Some "Mars/Olympus"
  /\ hasZone Sample.utcMoment "Mars/Olympus" = false
  /\ (exists r, parseEventDate Sample.utcMoment
                                (Some "30 nov 2025, 17:00 - 18:30 (Mars/Olympus)") = Normal r
                /\ eventDate r = Some "2025-11-30"
                /\ timezone r = "Mars/Olympus")
  /\ ~ unknownZoneBecomesUTC Sample.utcMoment.
Proof.
  split; [reflexivity|]. split; [reflexivity|].
  split; [eexists; split; [vm_compute; reflexivity | split; reflexivity]|].
  intro H.
  specialize (H "30 nov 2025, 17:00 - 18:30 (Mars/Olympus)" "Mars/Olympus" _
                eq_refl eq_refl eq_refl).
  discriminate H.
Qed.

(** C6 (amended). The parser does not consult the zone database: the
    trailing parenthesised text goes to the date library as it stands, and a
    schedule that parses carries it verbatim as its timezone, recognised or
    not, and "UTC" when there is no such text. Whether the schedule parses is
    decided by the date and time pattern and by the library calls alone: when
    they return, the result has the date and that timezone; when the first of
    them throws, as when the text does not match, the parse collapses to the
    all-null shape, whose timezone is "UTC". The parser returns in every
    case. *)
Theorem C6_zone_text_kept_verbatim (lib : MomentLib) (s : string) (r : EventDetails) :
  parseEventDate lib (Some s) = Normal r ->
  (eventDate r <> None ->
   timezone r = match timezoneMatch s with
                | Some zone => zone
                | None => "UTC"
                end)
  /\ (eventDate r = None -> timezone r = "UTC")
  /\ returns (parseEventDate lib (Some s))
  /\ (forall known, parseEventDate (withZones lib known) (Some s) = Normal r)
  /\ (dateTimeMatch s = None -> r = nullDetails)
  /\ (forall datePart start finish,
        dateTimeMatch s = Some (datePart, start, finish) ->
        (forall e, moment_tz lib datePart "DD MMM YYYY" (zoneOf s) = Throw e ->
                   r = nullDetails)
        /\ (forall m e,
              moment_tz lib datePart "DD MMM YYYY" (zoneOf s) = Normal m ->
              moment_format lib m "YYYY-MM-DD" = Throw e
              \/ moment_plus_iso lib m start = Throw e
              \/ moment_plus_iso lib m finish = Throw e ->
              r = nullDetails)
        /\ (forall m formatted startIso endIso,
              moment_tz lib datePart "DD MMM YYYY" (zoneOf s) = Normal m ->
              moment_format lib m "YYYY-MM-DD" = Normal formatted ->
              moment_plus_iso lib m start = Normal startIso ->
              moment_plus_iso lib m finish = Normal endIso ->
              eventDate r = Some formatted /\ timezone r = zoneOf s)).
Proof.
  intro Hr. split; [|split; [|split; [|split; [|split]]]].
  - intro Hdate.
    apply parseEventDate_cases in Hr as [->|(s' & Hs & Hbody)]; [now destruct Hdate|].
    injection Hs as <-.
    apply parseEventDateBody_normal in Hbody as (? & ? & ? & ? & _ & _ & _ & _ & Hz).
    exact Hz.
  - intro Hdate.
    rewrite (parseEventDate_null_date lib (Some s) r Hr Hdate). reflexivity.
  - apply parseEventDate_returns.
  - intro known. exact Hr.
  - intro Hnone. unfold parseEventDate in Hr.
    destruct (s =? ""); [injection Hr as <-; reflexivity|].
    unfold parseEventDateBody in Hr. rewrite Hnone in Hr.
    cbn [tryCatch] in Hr. injection Hr as <-. reflexivity.
  - intros datePart start finish Hmatch.
    assert (Hbody : tryCatch (parseEventDateBody lib s) (fun _ => Normal nullDetails)
                    = Normal r).
    { unfold parseEventDate in Hr. destruct (String.eqb_spec s "") as [->|_];
        [discriminate Hmatch | exact Hr]. }
    unfold parseEventDateBody in Hbody. rewrite Hmatch in Hbody.
    fold (zoneOf s) in Hbody. split; [|split].
    + intros e He. rewrite He in Hbody. cbn [bind tryCatch] in Hbody.
      injection Hbody as <-. reflexivity.
    + intros m e Hm Hthrow. rewrite Hm in Hbody. cbn [bind] in Hbody.
      destruct (moment_format lib m "YYYY-MM-DD") as [formatted|e1];
        cbn [bind tryCatch] in Hbody; [|injection Hbody as <-; reflexivity].
      destruct (moment_plus_iso lib m start) as [startIso|e2];
        cbn [bind tryCatch] in Hbody; [|injection Hbody as <-; reflexivity].
      destruct (moment_plus_iso lib m finish) as [endIso|e3];
        cbn [bind tryCatch] in Hbody; [|injection Hbody as <-; reflexivity].
      destruct Hthrow as [H|[H|H]]; discriminate H.
    + intros m formatted startIso endIso Hm Hf Hs He.
      rewrite Hm in Hbody. cbn [bind] in Hbody.
      rewrite Hf in Hbody. cbn [bind] in Hbody.
      rewrite Hs in Hbody. cbn [bind] in Hbody.
      rewrite He in Hbody. cbn [bind tryCatch] in Hbody.
      injection Hbody as <-. split; reflexivity.
Qed.

(** A Mars zone stays in the result, with the date parsed all the same. *)
Lemma C6_witness :
  exists r, parseEventDate Sample.utcMoment
                           (Some "30 nov 2025, 17:00 - 18:30 (Mars/Olympus)") = Normal r
            /\ eventDate r = Some "2025-11-30"
            /\ timezone r = "Mars/Olympus".
Proof.
  eexists; split; [vm_compute; reflexivity|]. split; [reflexivity|].
  refine (proj1 (C6_zone_text_kept_verbatim Sample.utcMoment
                   "30 nov 2025, 17:00 - 18:30 (Mars/Olympus)" _ eq_refl) _).
  discriminate.
Defined.

(** *** Provider resolution *)

Lemma orElse_present (h v : option string) :
  orElse h v = presentHostElseVendor h v.
Proof.
  unfold orElse, presentHostElseVendor, truthy.
  destruct h as [x|]; [|reflexivity]. destruct (x =? ""); reflexivity.
Qed.

Lemma extractHostFromOrder_returns (svc : Service) (order : RawOrder) :
  returns (extractHostFromOrder svc order).
Proof.
  unfold extractHostFromOrder.
  destruct (line_items order) as [[|item items]|]; try (eexists; reflexivity).
  apply tryCatch_absorb.
Qed.

(** The resolved vendor is the first line item's, when it has a non-empty one. *)
Lemma extractVendorFromOrder_first (order : RawOrder) (v : string) :
  extractVendorFromOrder order = Some v <->
  exists item rest, line_items order = Some (item :: rest)
                    /\ li_vendor item = Some v /\ v <> "".
Proof.
  unfold extractVendorFromOrder, orElse, truthy.
  destruct (line_items order) as [[|item rest]|].
  - split; [discriminate | intros (? & ? & H & _); discriminate].
  - destruct (li_vendor item) as [w|] eqn:Hw.
    + destruct (String.eqb_spec w "") as [->|Hne]; simpl.
      * split; [discriminate|].
        intros (i & r & H & Hv & Hnon). injection H as <- <-.
        rewrite Hw in Hv. injection Hv as <-. contradiction.
      * split.
        -- intro H; injection H as <-. exists item, rest. auto.
        -- intros (i & r & H & Hv & _). injection H as <- <-. congruence.
    + split; [discriminate|].
      intros (i & r & H & Hv & _). injection H as <- <-. congruence.
  - split; [discriminate | intros (? & ? & H & _); discriminate].
Qed.

(** Normalisation always returns, and its provider fields are built from the
    resolved host and the first vendor. *)
Lemma parseOrderWithCowlendar_fields (svc : Service) (order : RawOrder) :
  exists h b,
    extractHostFromOrder svc order = Normal h
    /\ parseOrderWithCowlendar svc order = Normal b
    /\ provider b = orElse h (extractVendorFromOrder order)
    /\ host b = provider b
    /\ vendor b = extractVendorFromOrder order.
Proof.
  unfold parseOrderWithCowlendar.
  destruct (parseEventDate_returns (momentLib svc)
              (eventData (extractCowlendarMetadata order))) as [details ->].
  destruct (extractHostFromOrder_returns svc order) as [h Hh].
  exists h. rewrite Hh; simpl. eexists. repeat split.
Qed.

Lemma parseOrderWithCowlendar_returns (svc : Service) (order : RawOrder) :
  returns (parseOrderWithCowlendar svc order).
Proof.
  destruct (parseOrderWithCowlendar_fields svc order) as (h & b & _ & Hb & _).
  exists b. exact Hb.
Qed.

(** *** Qualification *)




(** Without a host filter every qualifying fetched order is parsed and kept,
    in order. *)
Lemma getEventOrders_all (svc : Service) (params : Params) (orders : list RawOrder) :
  getOrders svc params = Normal orders ->
  exists bs,
    getEventOrders svc params None = Normal bs
    /\ Forall2 (fun o b => parseOrderWithCowlendar svc o = Normal b)
               (filter (hasCowlendarMetadata (env svc)) orders) bs.
Proof.
  intro Ho. unfold getEventOrders. rewrite tryCatch_rethrow, Ho; simpl.
  destruct (mapM_total (parseOrderWithCowlendar svc)
              (filter (hasCowlendarMetadata (env svc)) orders)
              (parseOrderWithCowlendar_returns svc)) as [bs Hbs].
  exists bs. rewrite Hbs; simpl. split; [reflexivity|].
  apply mapM_normal. exact Hbs.
Qed.

(** A product tagged [host:] with nothing after the colon resolves to the
    empty host, and the provider is then the vendor, not the host. *)
Lemma C1_counterexample :
  extractHostFromOrder Sample.service Sample.emptyHostOrder = Normal (Some "")
  /\ extractVendorFromOrder Sample.emptyHostOrder = Some "Other"
  /\ (exists b, parseOrderWithCowlendar Sample.service Sample.emptyHostOrder = Normal b
                /\ provider b = Some "Other")
  /\ ~ providerIsHostElseVendor Sample.service.
Proof.
  split; [reflexivity|]. split; [reflexivity|].
  split; [eexists; split; [vm_compute; reflexivity | reflexivity]|].
  intro H.
  destruct (parseOrderWithCowlendar Sample.service Sample.emptyHostOrder) as [b|] eqn:Hb;
    [|discriminate Hb].
  specialize (H Sample.emptyHostOrder (Some "") b eq_refl Hb).
  injection Hb as <-. discriminate H.
Qed.

(** C1 (amended). Normalisation always returns a booking whose provider is
    the resolved host when that is non-null and non-empty, else the first
    line item's vendor (null when absent or empty), else null; and a
    qualifying order is in the event orders whatever its provider, null
    included. *)
Theorem C1_provider_is_present_host_else_vendor (svc : Service) (order : RawOrder) :
  exists h b,
    extractHostFromOrder svc order = Normal h
    /\ parseOrderWithCowlendar svc order = Normal b
    /\ provider b = presentHostElseVendor h (extractVendorFromOrder order)
    /\ (forall x, h = Some x -> x <> "" -> provider b = Some x)
    /\ (h = None -> provider b = extractVendorFromOrder order)
    /\ (h = None -> extractVendorFromOrder order = None -> provider b = None)
    /\ (forall v, extractVendorFromOrder order = Some v <->
                  exists item rest, line_items order = Some (item :: rest)
                                    /\ li_vendor item = Some v /\ v <> "")
    /\ (forall params orders,
          getOrders svc params = Normal orders ->
          In order orders ->
          hasCowlendarMetadata (env svc) order = true ->
          exists bs, getEventOrders svc params None = Normal bs /\ In b bs).
Proof.
  destruct (parseOrderWithCowlendar_fields svc order) as (h & b & Hh & Hb & Hp & _ & _).
  exists h, b. rewrite orElse_present in Hp.
  split; [exact Hh|]. split; [exact Hb|]. split; [exact Hp|].
  split; [|split; [|split; [|split]]].
  - intros x -> Hx. rewrite Hp; simpl.
    destruct (String.eqb_spec x ""); [contradiction | reflexivity].
  - intros ->. exact Hp.
  - intros -> Hv. rewrite Hp; simpl. exact Hv.
  - intro v. apply extractVendorFromOrder_first.
  - intros params orders Ho Hin Hq.
    destruct (getEventOrders_all svc params orders Ho) as (bs & Hbs & Hall).
    exists bs. split; [exact Hbs|].
    assert (Hin' : In order (filter (hasCowlendarMetadata (env svc)) orders))
      by (apply filter_In; auto).
    destruct (Forall2_In_l _ _ _ _ Hall Hin') as (b' & Hb' & Hparse).
    rewrite Hb in Hparse. injection Hparse as <-. exact Hb'.
Qed.

(** The order with neither host nor vendor stays among the event orders of
    the sample, with a null provider. *)
Lemma C1_witness :
  exists b bs,
    parseOrderWithCowlendar Sample.service Sample.orphanOrder = Normal b
    /\ provider b = None
    /\ getEventOrders Sample.service Sample.noParams None = Normal bs
    /\ In b bs.
Proof.
  destruct (C1_provider_is_present_host_else_vendor Sample.service Sample.orphanOrder)
    as (h & b & Hh & Hb & _ & _ & _ & Hnull & _ & Hkept).
  injection Hh as <-.
  destruct (Hkept Sample.noParams _ eq_refl
                  (or_intror (or_intror (or_introl eq_refl))) eq_refl)
    as (bs & Hbs & Hin).
  exists b, bs. split; [exact Hb|]. split; [apply Hnull; reflexivity|].
  split; [exact Hbs | exact Hin].
Defined.

(** Host metadata "Llamas" beats the first vendor "Other". *)
Example provider_precedence :
  exists b, parseOrderWithCowlendar Sample.service Sample.llamasOrder = Normal b
            /\ vendor b = Some "Other" /\ provider b = Some "Llamas".
Proof. eexists; split; [vm_compute; reflexivity|]. split; reflexivity. Qed.

(** Without host metadata the vendor "Studio Marta" is the provider. *)
Example provider_fallback :
  exists b, parseOrderWithCowlendar Sample.service Sample.martaOrder = Normal b
            /\ provider b = Some "Studio Marta".
Proof. eexists; split; [vm_compute; reflexivity|]. reflexivity. Qed.

(** *** Provider filter *)

Lemma sameName_equalIgnoringCase (field : option string) (name : string) :
  name <> "" -> sameNameIgnoringCase field name = equalIgnoringCase field name.
Proof.
  intro Hname. unfold sameNameIgnoringCase, equalIgnoringCase, truthy.
  destruct field as [s|]; [|reflexivity].
  destruct (String.eqb_spec s "") as [->|_]; [|reflexivity].
  destruct name as [|c name]; [contradiction | reflexivity].
Qed.

Lemma providerFilter_union (name : string) (b : Booking) :
  name <> "" -> host b = provider b ->
  providerFilter name b = providerOrAnyVendor name b.
Proof.
  intros Hname Hhost. unfold providerFilter, providerOrAnyVendor.
  rewrite Hhost, sameName_equalIgnoringCase by exact Hname. f_equal.
  induction (lineItems b) as [|item items IH]; simpl; [reflexivity|].
  rewrite IH, sameName_equalIgnoringCase by exact Hname. reflexivity.
Qed.

Lemma eventOrders_host_is_provider (svc : Service) params hostFilter bs :
  getEventOrders svc params hostFilter = Normal bs ->
  forall b, In b bs -> host b = provider b.
Proof.
  intros Hbs b Hb.
  apply getEventOrders_normal in Hbs as (orders & parsed & _ & Hall & Hsub & _).
  destruct (Forall2_In_r _ _ _ _ Hall (Hsub b Hb)) as (o & _ & Ho).
  destruct (parseOrderWithCowlendar_fields svc o) as (h & b' & _ & Hb' & _ & Hhost & _).
  rewrite Ho in Hb'. injection Hb' as <-. exact Hhost.
Qed.

(** C5. For a provider name (non-empty, as both callers guarantee), the
    provider query keeps exactly the event orders whose resolved provider
    equals the name ignoring case or one of whose line items has a vendor
    equal to the name ignoring case, in their order. *)
Theorem C5_provider_filter_is_union (svc : Service) (name : string) (params : Params)
        (bs : list Booking) :
  name <> "" ->
  getEventOrders svc params None = Normal bs ->
  getOrdersByProvider svc name params = Normal (filter (providerOrAnyVendor name) bs)
  /\ (forall b, In b (filter (providerOrAnyVendor name) bs) <->
                In b bs /\ (equalIgnoringCase (provider b) name = true
                            \/ exists item, In item (lineItems b)
                                            /\ equalIgnoringCase (item_vendor item) name = true)).
Proof.
  intros Hname Hbs. split.
  - unfold getOrdersByProvider. rewrite tryCatch_rethrow, Hbs; simpl. f_equal.
    apply filter_ext_in. intros b Hb. apply providerFilter_union; [exact Hname|].
    exact (eventOrders_host_is_provider svc params None bs Hbs b Hb).
  - intro b. rewrite filter_In. unfold providerOrAnyVendor.
    rewrite orb_true_iff, existsb_exists. tauto.
Qed.

(** Asked for "OTHER", the sample keeps the Llamas booking as well, through
    the vendor of its line item. *)
Lemma C5_witness :
  exists bs,
    getEventOrders Sample.service Sample.noParams None = Normal bs
    /\ getOrdersByProvider Sample.service "OTHER" Sample.noParams
       = Normal (filter (providerOrAnyVendor "OTHER") bs)
    /\ map provider (filter (providerOrAnyVendor "OTHER") bs)
       = [Some "Llamas"; Some "Other"].
Proof.
  eexists. split; [vm_compute; reflexivity|]. split; [|reflexivity].
  refine (proj1 (C5_provider_filter_is_union Sample.service "OTHER" Sample.noParams _ _ eq_refl)).
  discriminate.
Defined.

(** *** Filter composition *)



Lemma filter_subsequence {A} (p : A -> bool) (l : list A) :
  Subsequence (filter p l) l.
Proof.
  induction l as [|x l IH]; simpl; [constructor|].
  destruct (p x); constructor; exact IH.
Qed.

Section FilterComposition.

Variable zeroVersus : string -> option comparison.
Variable req : Request.




End FilterComposition.


(** The route answers with the local query over the event orders. *)
Lemma ordersIndexHandler_runs_query (zeroVersus : string -> option comparison)
      (svc : Service) (req : Request) (bs : list Booking) :
  getEventOrders svc (serviceParams OrdersIndex req) None = Normal bs ->
  data (ordersIndexHandler zeroVersus svc req)
  = map transformForBookingApp (query zeroVersus req bs).
Proof.
  intro Hbs. unfold ordersIndexHandler, query, getOrdersByProvider, truthy.
  rewrite tryCatch_rethrow, Hbs; simpl.
  destruct (rq_provider req) as [p|]; simpl; [|reflexivity].
  destruct (p =? ""); reflexivity.
Qed.


(** *** Authorization *)

(** The guard of the host-scoped routes: a host identity passes exactly when
    it equals the lowercased requested name, and is answered 403 otherwise;
    the global identity always passes. *)
Lemma validateHostAccess_scoped (who : Identity) (req : Request) (h : string) :
  authenticatedAs who = Some Host ->
  authenticatedHost who = Some h ->
  (h = toLowerCase (hostName req) -> validateHostAccess who req = Next who)
  /\ (h <> toLowerCase (hostName req) ->
      exists failure, validateHostAccess who req = Respond failure
                      /\ failStatus failure = 403%Z).
Proof.
  intros Has Hhost. unfold validateHostAccess. rewrite Has, Hhost; simpl.
  destruct (String.eqb_spec h (toLowerCase (hostName req))); split; intro;
    try contradiction; eauto.
Qed.

Lemma validateHostAccess_global (who : Identity) (req : Request) :
  authenticatedAs who = Some Global -> validateHostAccess who req = Next who.
Proof. intro H. unfold validateHostAccess. rewrite H. reflexivity. Qed.

Lemma toLowerChar_idempotent (c : ascii) :
  toLowerChar (toLowerChar c) = toLowerChar c.
Proof.
  destruct c as [b0 b1 b2 b3 b4 b5 b6 b7].
  destruct b0, b1, b2, b3, b4, b5, b6, b7; reflexivity.
Qed.

Lemma toLowerCase_idempotent (s : string) :
  toLowerCase (toLowerCase s) = toLowerCase s.
Proof.
  induction s as [|c s IH]; simpl; [reflexivity|].
  now rewrite toLowerChar_idempotent, IH.
Qed.

Lemma insertIndex_In (k x : string * Z) (ks : list (string * Z)) :
  In x (insertIndex k ks) -> x = k \/ In x ks.
Proof.
  induction ks as [|h t IH]; simpl.
  - intros [<-|[]]; auto.
  - destruct (snd k <=? snd h)%Z; simpl; intros [<-|H]; auto.
    destruct (IH H); auto.
Qed.

Lemma keys_subset (obj : Object) (k : string) :
  In k (keys obj) -> In k (map fst obj).
Proof.
  unfold keys. rewrite in_app_iff. intros [H|H].
  - apply in_map_iff in H as ([k' n] & <- & H); simpl.
    induction (map fst obj) as [|x names IH]; simpl in *; [destruct H|].
    destruct (arrayIndex x) as [m|]; [|auto].
    apply insertIndex_In in H as [H|H]; [injection H as -> _; auto | auto].
  - apply filter_In in H. tauto.
Qed.

Lemma setProperty_names (obj : Object) (key v k : string) :
  In k (map fst (setProperty obj key v)) -> k = key \/ In k (map fst obj).
Proof.
  induction obj as [|[k' w] obj IH]; simpl.
  - destruct (key =? "__proto__"); simpl; [tauto | intros [<-|[]]; auto].
  - destruct (String.eqb_spec k' key) as [->|_]; simpl; [tauto|].
    intros [<-|H]; [auto | destruct (IH H); auto].
Qed.

(** Every host name the environment yields is in lowercase. *)
Lemma getHostApiKeys_lowercase (e : Env) (k : string) :
  In k (map fst (getHostApiKeys e)) -> toLowerCase k = k.
Proof.
  unfold getHostApiKeys.
  set (step := fun (hostKeys : Object) (key : string) => _).
  assert (Hfold : forall names hostKeys,
             (forall x, In x (map fst hostKeys) -> toLowerCase x = x) ->
             forall x, In x (map fst (fold_left step names hostKeys)) ->
                       toLowerCase x = x).
  { induction names as [|key names IH]; cbn [fold_left]; intros hostKeys Hinv;
      [exact Hinv|].
    apply IH. intros x Hx. unfold step in Hx.
    destruct (startsWith "HOST_API_KEY_" key); [|auto].
    destruct (getenv e key) as [v|]; [|auto].
    apply setProperty_names in Hx as [->|Hx]; [apply toLowerCase_idempotent | auto]. }
  apply Hfold. intros x [].
Qed.

(** A host identity set by [authenticateApiKey] names a lowercase host. *)
Lemma authenticateApiKey_host (e : Env) (req : Request) (who : Identity) :
  authenticateApiKey e req = Next who ->
  authenticatedAs who = Some Host ->
  exists h, authenticatedHost who = Some h /\ toLowerCase h = h.
Proof.
  unfold authenticateApiKey.
  destruct (strictEq (getenv e "NODE_ENV") "development" && _ && _);
    [intro H; injection H as <-; discriminate|].
  destruct (negb _ && _); [discriminate|].
  destruct (orElse (x_api_key req) (api_key req)) as [key|]; [|discriminate].
  destruct (key =? ""); [discriminate|].
  destruct (truthy (getenv e "API_KEY") && _);
    [intro H; injection H as <-; discriminate|].
  destruct (find _ (keys (getHostApiKeys e))) as [h|] eqn:Hfind; [|discriminate].
  destruct (h =? ""); [discriminate|].
  intro H; injection H as <-. intros _. exists h. split; [reflexivity|].
  apply find_some in Hfind as [Hin _].
  apply (getHostApiKeys_lowercase e), keys_subset, Hin.
Qed.

(** X11. Behind both guards a host-scoped caller passes exactly when the
    requested name equals its own ignoring case, and is answered 403
    otherwise; the holder of the global key always passes. *)
Lemma hostGuards_compare_ignoring_case (e : Env) (req : Request) (who : Identity) :
  authenticateApiKey e req = Next who ->
  (authenticatedAs who = Some Global -> hostGuards e req = Next who)
  /\ (authenticatedAs who = Some Host ->
      exists h,
        authenticatedHost who = Some h
        /\ (equalIgnoringCase (Some h) (hostName req) = true ->
            hostGuards e req = Next who)
        /\ (equalIgnoringCase (Some h) (hostName req) = false ->
            exists failure, hostGuards e req = Respond failure
                            /\ failStatus failure = 403%Z)).
Proof.
  intro Hauth. unfold hostGuards. rewrite Hauth. split.
  - apply validateHostAccess_global.
  - intro Hhost.
    destruct (authenticateApiKey_host e req who Hauth Hhost) as (h & Hh & Hlower).
    exists h. split; [exact Hh|].
    destruct (validateHostAccess_scoped who req h Hhost Hh) as [Hyes Hno].
    unfold equalIgnoringCase. rewrite Hlower. split; intro Heq.
    + apply Hyes. apply String.eqb_eq. exact Heq.
    + apply Hno. apply String.eqb_neq. exact Heq.
Qed.

(** C8 (the code at the failing input). With the key of host "llamas", a
    request for provider "Another_Host" is refused with 403 behind the
    host-scoped guards, but GET /api/orders authenticates the same caller as
    host "llamas" and answers 200 with the other provider's booking. *)
Theorem C8_orders_route_skips_host_check :
  authenticateApiKey Sample.environment Sample.crossRequest
  = Next {| authenticatedAs := Some Host; authenticatedHost := Some "llamas" |}
  /\ (exists failure,
        hostGuards Sample.environment Sample.crossRequest = Respond failure
        /\ failStatus failure = 403%Z)
  /\ status (ordersIndex Sample.datesOnly Sample.service Sample.crossRequest) = 200%Z
  /\ success (ordersIndex Sample.datesOnly Sample.service Sample.crossRequest) = true
  /\ map app_provider (data (ordersIndex Sample.datesOnly Sample.service Sample.crossRequest))
     = [Some "Another_Host"].
Proof.
  split; [vm_compute; reflexivity|].
  split; [eexists; split; [vm_compute; reflexivity | reflexivity]|].
  split; [vm_compute; reflexivity|].
  split; vm_compute; reflexivity.
Qed.

(** *** Limits *)

Lemma mathMin_bound (x : Number) (bound n : Z) :
  mathMin x bound = Num n -> (n <= bound)%Z.
Proof.
  destruct x as [|z]; simpl; [discriminate|].
  intro H; injection H as <-. apply Z.le_min_r.
Qed.

(** The legacy host route sends a requested 1000 to the store as 1000. *)
Lemma C9_counterexample :
  storeLimit BookingsHost (Sample.request None None (Some "1000")) = Num 1000
  /\ ~ limitNeverAbove250.
Proof.
  split; [reflexivity|]. intro H.
  specialize (H BookingsHost (Sample.request None None (Some "1000")) 1000%Z eq_refl).
  lia.
Qed.

(** C9 (amended). On GET /api/orders the store is asked for
    min(parseInt(limit), 250): a number whenever the requested limit parses
    as one, at most 250 then, and 250 for a requested 1000; the provider and
    host listings always ask for 250; the other /api/bookings paths ask for
    parseInt(limit) as it is. *)
Theorem C9_orders_route_clamps_limit (req : Request) :
  storeLimit OrdersIndex req = mathMin (parseInt (limitOr "50" req)) 250
  /\ (forall n, parseInt (limitOr "50" req) = Num n ->
                storeLimit OrdersIndex req = Num (Z.min n 250))
  /\ (parseInt (limitOr "50" req) = NaN -> storeLimit OrdersIndex req = NaN)
  /\ (forall n, storeLimit OrdersIndex req = Num n -> (n <= 250)%Z)
  /\ (rq_limit req = Some "1000" -> storeLimit OrdersIndex req = Num 250)
  /\ storeLimit OrdersProviders req = Num 250
  /\ storeLimit BookingsHosts req = Num 250
  /\ (forall path, In path unclampedPaths ->
                   storeLimit path req = parseInt (limitOr (defaultLimit path) req)).
Proof.
  split; [reflexivity|].
  split; [intros n H; unfold storeLimit; cbn; rewrite H; reflexivity|].
  split; [intro H; unfold storeLimit; cbn; rewrite H; reflexivity|].
  split; [|split; [|split; [|split]]].
  - intros n H. exact (mathMin_bound _ _ _ H).
  - intro H. unfold storeLimit; simpl. unfold limitOr. rewrite H. reflexivity.
  - reflexivity.
  - reflexivity.
  - intros path Hin. simpl in Hin.
    repeat (destruct Hin as [<-|Hin]; [reflexivity|]). destruct Hin.
Qed.

Lemma C9_witness :
  storeLimit OrdersIndex (Sample.request None None (Some "1000")) = Num 250
  /\ (250 <= 250)%Z
  /\ storeLimit BookingsHost (Sample.request None None (Some "1000")) = Num 1000.
Proof.
  pose proof (C9_orders_route_clamps_limit (Sample.request None None (Some "1000")))
    as (_ & _ & _ & Hbound & Hclamp & _ & _ & Hlegacy).
  split; [exact (Hclamp eq_refl)|].
  split; [exact (Hbound 250%Z (Hclamp eq_refl))|].
  exact (Hlegacy BookingsHost (or_introl eq_refl)).
Defined.

(** *** Webhook signatures *)

Section WebhookSignature.

Variable hmacSha256Hex : string -> string -> string.

Lemma timingSafeEqual_length (a b : list nat) :
  List.length a <> List.length b ->
  exists err, timingSafeEqual a b = Throw err.
Proof.
  intro H. unfold timingSafeEqual.
  destruct (Nat.eqb_spec (List.length a) (List.length b)); [contradiction|].
  eexists; reflexivity.
Qed.

Lemma verifyWebhookSignature_returns secret payload signature :
  returns (BookingKit.verifyWebhookSignature hmacSha256Hex secret payload signature).
Proof.
  unfold BookingKit.verifyWebhookSignature.
  destruct secret as [s|]; [|eexists; reflexivity].
  destruct (s =? ""); [eexists; reflexivity | apply tryCatch_absorb].
Qed.

End WebhookSignature.

(** C10. Without a webhook secret (unset or empty) every payload and
    signature is accepted; with or without one the check returns a boolean and
    never throws; a missing signature, and a signature whose bytes after
    dropping [sha256=] differ in number from the expected digest's, give
    false. *)
Theorem C10_webhook_check_total (hmacSha256Hex : string -> string -> string)
        (secret : option string) (payload : string) (signature : option string) :
  (truthy secret = false ->
   BookingKit.verifyWebhookSignature hmacSha256Hex secret payload signature = Normal true)
  /\ returns (BookingKit.verifyWebhookSignature hmacSha256Hex secret payload signature)
  /\ (truthy secret = true -> signature = None ->
      BookingKit.verifyWebhookSignature hmacSha256Hex secret payload signature = Normal false)
  /\ (forall key sig,
        secret = Some key -> key <> "" -> signature = Some sig ->
        List.length (utf8 (hmacSha256Hex key payload))
        <> List.length (utf8 (replace "sha256=" "" sig)) ->
        BookingKit.verifyWebhookSignature hmacSha256Hex secret payload signature
        = Normal false).
Proof.
  unfold BookingKit.verifyWebhookSignature, truthy.
  split; [|split; [|split]].
  - destruct secret as [s|]; [|reflexivity].
    destruct (s =? ""); [reflexivity | discriminate].
  - apply verifyWebhookSignature_returns.
  - intros Hs ->. destruct secret as [s|]; [|discriminate].
    destruct (s =? ""); [discriminate | reflexivity].
  - intros key sig -> Hkey -> Hlen.
    destruct (String.eqb_spec key ""); [contradiction|].
    destruct (timingSafeEqual_length _ _ Hlen) as [err ->]. reflexivity.
Qed.

Lemma C10_witness :
  BookingKit.verifyWebhookSignature Sample.hexOfPayload None "{}" (Some "sha256=00")
  = Normal true
  /\ BookingKit.verifyWebhookSignature Sample.hexOfPayload (Some "s3cret") "{}" None
     = Normal false
  /\ BookingKit.verifyWebhookSignature Sample.hexOfPayload (Some "s3cret") "{}"
                                       (Some "sha256=00")
     = Normal false.
Proof.
  split; [|split].
  - exact (proj1 (C10_webhook_check_total Sample.hexOfPayload None "{}" (Some "sha256=00"))
                 eq_refl).
  - exact (proj1 (proj2 (proj2 (C10_webhook_check_total Sample.hexOfPayload
                                   (Some "s3cret") "{}" None))) eq_refl eq_refl).
  - refine (proj2 (proj2 (proj2 (C10_webhook_check_total Sample.hexOfPayload
                                   (Some "s3cret") "{}" (Some "sha256=00"))))
                  "s3cret" "sha256=00" eq_refl _ eq_refl _).
    + discriminate.
    + vm_compute. discriminate.
Defined.


(* ------------------------------------------------------------------ *)
(** ** Further properties of the service, the middleware and the routes *)

(** *** Host lookup *)

Lemma getProductHost_returns (svc : Service) (pid : Z) :
  returns (getProductHost svc pid).
Proof. apply tryCatch_absorb. Qed.

Lemma extractHostFromOrder_first (svc : Service) (order : RawOrder)
      (item : LineItem) (rest : list LineItem) (pid : Z) :
  line_items order = Some (item :: rest) ->
  li_product_id item = Some pid ->
  pid <> 0%Z ->
  extractHostFromOrder svc order = getProductHost svc pid.
Proof.
  intros Hitems Hpid Hnz. unfold extractHostFromOrder. rewrite Hitems, Hpid.
  destruct (Z.eqb_spec pid 0); [contradiction|].
  destruct (getProductHost_returns svc pid) as [h ->]. reflexivity.
Qed.

(** X1. A failed host lookup is absorbed: when the metafields request of the
    first product fails, or it yields no host metafield and the product
    request fails, the host is null, normalisation still returns, and the
    provider is the first line item's vendor. *)
Theorem host_lookup_failure_falls_back_to_vendor (svc : Service) (order : RawOrder)
        (item : LineItem) (rest : list LineItem) (pid : Z) (e : Exn) :
  line_items order = Some (item :: rest) ->
  li_product_id item = Some pid ->
  pid <> 0%Z ->
  fetchMetafields svc pid = Throw e
  \/ (exists metafields, fetchMetafields svc pid = Normal metafields
                         /\ find isHostMetafield metafields = None
                         /\ fetchProduct svc pid = Throw e) ->
  extractHostFromOrder svc order = Normal None
  /\ exists b, parseOrderWithCowlendar svc order = Normal b
               /\ provider b = extractVendorFromOrder order.
Proof.
  intros Hitems Hpid Hnz Hfail.
  assert (Hhost : extractHostFromOrder svc order = Normal None).
  { rewrite (extractHostFromOrder_first svc order item rest pid Hitems Hpid Hnz).
    unfold getProductHost, getProductHostBody.
    destruct Hfail as [->|(metafields & -> & Hfind & Hprod)]; [reflexivity|].
    simpl. rewrite Hfind, Hprod. reflexivity. }
  split; [exact Hhost|].
  destruct (parseOrderWithCowlendar_fields svc order) as (h & b & Hh & Hb & Hp & _).
  exists b. split; [exact Hb|].
  rewrite Hhost in Hh. injection Hh as <-. exact Hp.
Qed.

Lemma host_lookup_failure_witness :
  extractHostFromOrder Sample.service Sample.brokenLookupOrder = Normal None
  /\ exists b, parseOrderWithCowlendar Sample.service Sample.brokenLookupOrder = Normal b
               /\ provider b = Some "Wax Works".
Proof.
  exact (host_lookup_failure_falls_back_to_vendor
           Sample.service Sample.brokenLookupOrder _ [] 3%Z
           (Error "Request failed with status code 404")
           eq_refl eq_refl ltac:(discriminate) (or_introl eq_refl)).
Defined.

(** X2. The three-way key test of the host metafield is a case-insensitive
    comparison of the key with "host": the literal "Host" and the namespaced
    "custom"/"host" alternatives add nothing, and the namespace plays no role.
    When the product has such a metafield, the host is the value of the first
    one, and neither the product nor its tags are consulted. *)
Theorem host_metafield_is_key_ignoring_case (svc : Service) (pid : Z) :
  (forall field, isHostMetafield field = true <->
                 exists key, mf_key field = Some key /\ toLowerCase key = "host")
  /\ (forall metafields field,
        fetchMetafields svc pid = Normal metafields ->
        find isHostMetafield metafields = Some field ->
        getProductHost svc pid = Normal (mf_value field)).
Proof.
  split.
  - intro field. unfold isHostMetafield, truthy, strictEq.
    destruct (mf_key field) as [key|];
      [|split; [discriminate | intros (? & H & _); discriminate]].
    destruct (String.eqb_spec key "") as [Hempty|Hne].
    { subst key. split; [discriminate | intros (? & H & Hl)].
      injection H as <-. discriminate Hl. }
    cbn [negb andb].
    destruct (String.eqb_spec (toLowerCase key) "host") as [Hk|Hnk].
    { split; [eauto | reflexivity]. }
    split; [|intros (key' & Hk & Hlower); injection Hk as <-; contradiction].
    cbn [orb]. intro H. exfalso. apply Hnk.
    destruct (String.eqb_spec key "Host") as [HH|_]; [subst key; reflexivity|].
    cbn [orb] in H.
    destruct (mf_namespace field) as [ns|]; [|discriminate].
    apply andb_true_iff in H as [_ H]. apply String.eqb_eq in H. subst key. reflexivity.
  - intros metafields field Hm Hfind.
    unfold getProductHost, getProductHostBody. rewrite Hm; simpl. rewrite Hfind.
    reflexivity.
Qed.

Lemma host_metafield_witness :
  isHostMetafield {| mf_key := Some "HOST"; mf_namespace := None; mf_value := Some "Llamas" |}
  = true
  /\ getProductHost Sample.service 1 = Normal (Some "Llamas").
Proof.
  split.
  - apply (proj1 (host_metafield_is_key_ignoring_case Sample.service 1)).
    exists "HOST". split; reflexivity.
  - exact (proj2 (host_metafield_is_key_ignoring_case Sample.service 1) _ _ eq_refl eq_refl).
Defined.

(** *** Host tags *)

Lemma occurs_trimStart (c : ascii) (s : string) :
  occurs c (trimStart s) -> occurs c s.
Proof.
  unfold occurs. induction s as [|a s IH]; simpl; [tauto|].
  destruct (isWhiteSpace a); simpl; auto.
Qed.

Lemma occurs_trimEnd (c : ascii) (s : string) :
  occurs c (trimEnd s) -> occurs c s.
Proof.
  unfold occurs. induction s as [|a s IH]; simpl; [tauto|].
  destruct (trimEnd s) as [|b t].
  - destruct (isWhiteSpace a); simpl; tauto.
  - simpl in *. intros [H|H]; auto.
Qed.

Lemma toLowerChar_colon (c : ascii) :
  toLowerChar c = ":"%char -> c = ":"%char.
Proof.
  destruct c as [b0 b1 b2 b3 b4 b5 b6 b7].
  destruct b0, b1, b2, b3, b4, b5, b6, b7; intro H;
    first [reflexivity | vm_compute in H; discriminate H].
Qed.

Lemma occurs_toLowerCase_colon (s : string) :
  occurs ":" (toLowerCase s) -> occurs ":" s.
Proof.
  unfold occurs. induction s as [|a s IH]; simpl; [tauto|].
  intros [H|H]; [left; apply toLowerChar_colon; exact H | auto].
Qed.

Lemma startsWith_prefix (p s : string) :
  startsWith p s = true -> exists rest, s = (p ++ rest)%string.
Proof.
  revert s; induction p as [|a p IH]; intros s; simpl; [eauto|].
  destruct s as [|b s]; [discriminate|].
  intro H. apply andb_true_iff in H as [Hab H].
  apply Ascii.eqb_eq in Hab. subst b.
  destruct (IH s H) as [rest ->]. eauto.
Qed.

Lemma startsWith_host_colon (s : string) :
  startsWith "host:" s = true -> occurs ":" s.
Proof.
  intro H. apply startsWith_prefix in H as [rest ->].
  unfold occurs. simpl. tauto.
Qed.

Lemma split_two_pieces (sep : ascii) (s : string) :
  occurs sep s -> exists first second rest, split sep s = first :: second :: rest.
Proof.
  unfold occurs. induction s as [|a s IH]; simpl; [tauto|].
  intro H. destruct (Ascii.eqb_spec a sep) as [->|Hne].
  - destruct s as [|b s]; simpl; [eauto|].
    destruct (b =? sep)%char; [eauto|].
    destruct (split sep s); eauto.
  - destruct H as [H|H]; [congruence|].
    destruct (IH H) as (first & second & rest & ->). eauto.
Qed.

(** X3. A tag recognised as a host tag always has a piece after its first
    colon, so reading the host value from it cannot throw. *)
Theorem host_tag_value_never_throws (tag : string) :
  isHostTag tag = true ->
  exists value, hostTagValue tag = Normal (Some value).
Proof.
  intro H. unfold isHostTag in H.
  apply startsWith_host_colon, occurs_toLowerCase_colon in H.
  unfold trim in H. apply occurs_trimEnd, occurs_trimStart in H.
  destruct (split_two_pieces ":" tag H) as (first & second & rest & Hs).
  unfold hostTagValue. rewrite Hs. simpl. eauto.
Qed.

Lemma host_tag_value_witness :
  exists value, hostTagValue " Host: Llamas " = Normal (Some value).
Proof. exact (host_tag_value_never_throws " Host: Llamas " eq_refl). Defined.

(** *** The two patterns of the schedule parser *)

Lemma spanNotClose_split (s inside rest : string) :
  spanNotClose s = (inside, rest) ->
  s = (inside ++ rest)%string
  /\ ~ occurs ")" inside
  /\ (rest = "" \/ exists rest', rest = String ")" rest').
Proof.
  unfold occurs. revert inside rest; induction s as [|c s IH]; simpl; intros inside rest H.
  - injection H as <- <-. simpl. tauto.
  - destruct (Ascii.eqb_spec c ")") as [->|Hne].
    + injection H as <- <-. simpl. split; [reflexivity|]. split; [tauto | eauto].
    + destruct (spanNotClose s) as [inside' rest'] eqn:Hs.
      injection H as <- <-. destruct (IH _ _ eq_refl) as (-> & Hno & Hrest).
      split; [reflexivity|]. split; [|exact Hrest].
      simpl. intros [H|H]; [congruence | auto].
Qed.

Lemma spanNotClose_closed (zone tail : string) :
  ~ occurs ")" zone ->
  spanNotClose (zone ++ String ")" tail) = (zone, String ")" tail).
Proof.
  unfold occurs. induction zone as [|c zone IH]; simpl; intro H; [reflexivity|].
  destruct (Ascii.eqb_spec c ")") as [->|_]; [tauto|].
  rewrite IH by tauto. reflexivity.
Qed.

Lemma zoneAt_shape (s zone : string) :
  zoneAt s = Some zone ->
  s = (zone ++ ")")%string /\ zone <> "" /\ ~ occurs ")" zone.
Proof.
  unfold zoneAt. destruct (spanNotClose s) as [inside rest] eqn:Hs.
  apply spanNotClose_split in Hs as (-> & Hno & _).
  destruct (String.eqb_spec inside ""); [discriminate|].
  destruct (String.eqb_spec rest ")") as [->|_]; [|discriminate].
  intro H; injection H as <-. auto.
Qed.

(** X4. A timezone found by the trailing-parenthesis pattern is non-empty,
    holds no closing parenthesis, and the text ends with it in parentheses;
    and every text that ends with a non-empty parenthesised group free of
    closing parentheses has one. *)
Theorem timezone_pattern_shape (s : string) :
  (forall zone, timezoneMatch s = Some zone ->
                zone <> "" /\ ~ occurs ")" zone
                /\ exists before, s = (before ++ "(" ++ zone ++ ")")%string)
  /\ (forall before zone,
        zone <> "" -> ~ occurs ")" zone ->
        s = (before ++ "(" ++ zone ++ ")")%string ->
        exists found, timezoneMatch s = Some found).
Proof.
  split.
  - induction s as [|c s IH]; simpl; intro zone; [discriminate|].
    assert (Hrec : timezoneMatch s = Some zone ->
                   zone <> "" /\ ~ occurs ")" zone
                   /\ exists before, String c s = (before ++ "(" ++ zone ++ ")")%string).
    { intro H. destruct (IH zone H) as (Hne & Hno & before & ->).
      split; [exact Hne|]. split; [exact Hno|]. exists (String c before). reflexivity. }
    destruct (Ascii.eqb_spec c "(") as [->|_]; [|exact Hrec].
    destruct (zoneAt s) as [z|] eqn:Hz; [|exact Hrec].
    intro H; injection H as <-. apply zoneAt_shape in Hz as (-> & Hne & Hno).
    split; [exact Hne|]. split; [exact Hno|]. exists "". reflexivity.
  - intros before zone Hne Hno ->.
    induction before as [|c before IH]; simpl.
    + unfold zoneAt. rewrite (spanNotClose_closed zone "" Hno).
      destruct (String.eqb_spec zone ""); [contradiction|]. simpl. eauto.
    + destruct IH as [found IH].
      destruct (c =? "(")%char; [|eauto].
      destruct (zoneAt _); eauto.
Qed.

Lemma timezone_pattern_witness :
  (exists before, "30 nov 2025, 17:00 - 18:30 (Europe/Rome)"
                  = (before ++ "(" ++ "Europe/Rome" ++ ")")%string)
  /\ exists found, timezoneMatch "a (b (c)" = Some found.
Proof.
  split.
  - exact (proj2 (proj2 (proj1 (timezone_pattern_shape
                                  "30 nov 2025, 17:00 - 18:30 (Europe/Rome)")
                               "Europe/Rome" eq_refl))).
  - refine (proj2 (timezone_pattern_shape "a (b (c)") "a (b " "c" _ _ eq_refl).
    + discriminate.
    + unfold occurs; simpl. intros [H|[]]. discriminate H.
Defined.

Lemma append_empty (s : string) : (s ++ "")%string = s.
Proof. induction s; simpl; congruence. Qed.

Lemma append_associative (a b c : string) :
  ((a ++ b) ++ c)%string = (a ++ b ++ c)%string.
Proof. induction a; simpl; congruence. Qed.

Lemma timeAt_shape (s t rest : string) :
  timeAt s = Some (t, rest) -> clockShaped t = true /\ s = (t ++ rest)%string.
Proof.
  unfold timeAt, clockShaped.
  destruct s as [|a [|b [|c [|d [|e s]]]]]; try discriminate.
  destruct (isDigit a && isDigit b && (c =? ":")%char && isDigit d && isDigit e) eqn:H;
    [|discriminate].
  intro Heq; injection Heq as <- <-. split; [exact H | reflexivity].
Qed.

Lemma timesAt_shape (s start finish : string) :
  timesAt s = Some (start, finish) ->
  clockShaped start = true /\ clockShaped finish = true.
Proof.
  unfold timesAt.
  destruct (timeAt (trimStart s)) as [[t1 r1]|] eqn:H1; [|discriminate].
  destruct (trimStart r1) as [|c r2]; [discriminate|].
  destruct c as [[] [] [] [] [] [] [] []]; try discriminate.
  destruct (timeAt (trimStart r2)) as [[t2 r3]|] eqn:H2; [|discriminate].
  intro H; injection H as <- <-.
  apply timeAt_shape in H1, H2. tauto.
Qed.

Lemma dateTimeScan_shape (s seen datePart start finish : string) :
  dateTimeScan seen s = Some (datePart, start, finish) ->
  clockShaped start = true /\ clockShaped finish = true
  /\ exists taken rest,
       datePart = (seen ++ taken)%string
       /\ datePart <> ""
       /\ s = (taken ++ "," ++ rest)%string
       /\ forall c, occurs c taken -> isLineTerminator c = false.
Proof.
  revert seen; induction s as [|c s IH]; simpl; intros seen H; [discriminate|].
  destruct (if negb (seen =? "") && (c =? ",")%char then timesAt s else None)
    as [[st en]|] eqn:Hhere.
  - injection H as <- <- <-.
    destruct (String.eqb_spec seen "") as [->|Hne]; [discriminate|].
    destruct (Ascii.eqb_spec c ",") as [->|_]; [|discriminate]. simpl in Hhere.
    apply timesAt_shape in Hhere as [Hs He].
    split; [exact Hs|]. split; [exact He|].
    exists "", s. split; [now rewrite append_empty|]. split; [exact Hne|].
    split; [reflexivity|]. intros c' [].
  - destruct (isLineTerminator c) eqn:Hlt; [discriminate|].
    destruct (IH _ H) as (Hs & He & taken & rest & Hd & Hne & -> & Hno).
    split; [exact Hs|]. split; [exact He|].
    exists (String c taken), rest.
    split; [rewrite Hd, append_associative; reflexivity|].
    split; [exact Hne|]. split; [reflexivity|].
    unfold occurs; simpl. intros c' [<-|Hc]; [exact Hlt | apply Hno, Hc].
Qed.

(** X5. Whenever a schedule parses to a date, the text starts with a
    non-empty date part on one line followed by a comma, and the start and
    end times of the result are each two digits, a colon and two digits. *)
Theorem parsed_schedule_has_clock_times (lib : MomentLib) (s : string) (r : EventDetails) :
  parseEventDate lib (Some s) = Normal r ->
  eventDate r <> None ->
  exists datePart start finish rest,
    startTime r = Some start /\ clockShaped start = true
    /\ endTime r = Some finish /\ clockShaped finish = true
    /\ datePart <> ""
    /\ s = (datePart ++ "," ++ rest)%string
    /\ forall c, occurs c datePart -> isLineTerminator c = false.
Proof.
  intros Hr Hdate.
  apply parseEventDate_cases in Hr as [->|(s' & Hs & Hbody)]; [now destruct Hdate|].
  injection Hs as <-.
  apply parseEventDateBody_normal in Hbody
    as (datePart & start & finish & formatted & Hm & _ & Hst & Hen & _).
  unfold dateTimeMatch in Hm.
  apply dateTimeScan_shape in Hm as (Hs & He & taken & rest & Hd & Hne & Hsplit & Hno).
  simpl in Hd. subst taken.
  exists datePart, start, finish, rest. auto 10.
Qed.

Lemma parsed_schedule_witness :
  exists r, parseEventDate Sample.utcMoment (Some Sample.schedule) = Normal r
            /\ exists start, startTime r = Some start /\ clockShaped start = true.
Proof.
  eexists. split; [vm_compute; reflexivity|].
  destruct (parsed_schedule_has_clock_times Sample.utcMoment Sample.schedule _ eq_refl)
    as (_ & start & _ & _ & Hs & Hc & _); [discriminate|].
  exists start. split; [exact Hs | exact Hc].
Defined.

(** *** What can make a query fail *)

Lemma getOrders_returns (svc : Service) (params : Params) :
  returns (getOrders svc params) <-> returns (fetchOrders svc (queryParams params)).
Proof.
  unfold getOrders, returns.
  destruct (fetchOrders svc (queryParams params)) as [orders|e]; simpl.
  - split; eauto.
  - split; intros [x H]; discriminate H.
Qed.

Lemma getEventOrders_returns (svc : Service) (params : Params) (hostFilter : option string) :
  returns (getEventOrders svc params hostFilter) <-> returns (getOrders svc params).
Proof.
  unfold getEventOrders. rewrite tryCatch_rethrow.
  destruct (getOrders svc params) as [orders|e]; simpl.
  - destruct (mapM_total (parseOrderWithCowlendar svc)
                (filter (hasCowlendarMetadata (env svc)) orders)
                (parseOrderWithCowlendar_returns svc)) as [bs ->]; simpl.
    split; [intros _; eexists; reflexivity|]. intros _.
    destruct hostFilter as [h|]; [destruct (h =? "")|]; eexists; reflexivity.
  - split; intros [x H]; discriminate H.
Qed.

Lemma bind_returns {A B} (c : Completion A) (k : A -> Completion B) :
  (forall a, returns (k a)) -> (returns (bind c k) <-> returns c).
Proof.
  intro Hk. destruct c as [a|e]; simpl.
  - split; [intros _; eexists; reflexivity | intros _; apply Hk].
  - split; intros [x H]; discriminate H.
Qed.

Lemma collectProviders_returns (svc : Service) (providers : list string) (order : RawOrder) :
  returns (collectProviders svc providers order).
Proof.
  unfold collectProviders.
  destruct (hasCowlendarMetadata (env svc) order); simpl; [|eexists; reflexivity].
  destruct (parseOrderWithCowlendar_returns svc order) as [b ->]; simpl.
  eexists; reflexivity.
Qed.

Lemma foldM_returns {A B} (f : B -> A -> Completion B) (xs : list A) (acc : B) :
  (forall b a, returns (f b a)) -> returns (foldM f xs acc).
Proof.
  intro Hf. revert acc; induction xs as [|x xs IH]; intro acc; simpl.
  - eexists; reflexivity.
  - destruct (Hf acc x) as [acc' ->]; simpl. apply IH.
Qed.

(** X6. The order fetch is the only thing that can make a booking query or a
    listing fail: each of them returns exactly when the store answers the
    order request, whatever the product lookups and the date library do. *)
Theorem only_the_order_fetch_can_fail (svc : Service) (params : Params) :
  (forall hostFilter,
      returns (getEventOrders svc params hostFilter)
      <-> returns (fetchOrders svc (queryParams params)))
  /\ (forall hostName,
        returns (getOrdersByHost svc hostName params)
        <-> returns (fetchOrders svc (queryParams params)))
  /\ (forall providerName,
        returns (getOrdersByProvider svc providerName params)
        <-> returns (fetchOrders svc (queryParams params)))
  /\ (returns (getAvailableHosts svc params)
      <-> returns (fetchOrders svc (queryParams (withLimit250 params))))
  /\ (returns (getAvailableProviders svc params)
      <-> returns (fetchOrders svc (queryParams (withLimit250 params)))).
Proof.
  split; [|split; [|split; [|split]]].
  - intro hostFilter. rewrite getEventOrders_returns. apply getOrders_returns.
  - intro hostName. unfold getOrdersByHost. rewrite tryCatch_rethrow.
    rewrite bind_returns by (intro; eexists; reflexivity).
    rewrite getEventOrders_returns. apply getOrders_returns.
  - intro providerName. unfold getOrdersByProvider. rewrite tryCatch_rethrow.
    rewrite bind_returns by (intro; eexists; reflexivity).
    rewrite getEventOrders_returns. apply getOrders_returns.
  - unfold getAvailableHosts. rewrite tryCatch_rethrow.
    rewrite bind_returns by (intro; eexists; reflexivity).
    rewrite getEventOrders_returns. apply getOrders_returns.
  - unfold getAvailableProviders. rewrite tryCatch_rethrow.
    rewrite bind_returns.
    + apply getOrders_returns.
    + intro orders. apply bind_returns; [intro; eexists; reflexivity|].
      apply foldM_returns. apply collectProviders_returns.
Qed.

Lemma only_the_order_fetch_witness :
  returns (getOrdersByProvider Sample.service "Other" Sample.noParams)
  /\ returns (getAvailableProviders Sample.service Sample.noParams).
Proof.
  pose proof (only_the_order_fetch_can_fail Sample.service Sample.noParams)
    as (_ & _ & Hprovider & _ & Hlisting).
  split.
  - apply Hprovider. eexists; reflexivity.
  - apply Hlisting. eexists; reflexivity.
Defined.

(** *** Host query and provider query *)

Lemma filter_implied {A} (p q : A -> bool) (l : list A) :
  (forall x, In x l -> p x = true -> q x = true) ->
  filter p l = filter p (filter q l).
Proof.
  intro H. induction l as [|x l IH]; simpl; [reflexivity|].
  assert (IH' : filter p l = filter p (filter q l))
    by (apply IH; intros y Hy; apply H; right; exact Hy).
  destruct (p x) eqn:Hp.
  - rewrite (H x (or_introl eq_refl) Hp); simpl. rewrite Hp, IH'. reflexivity.
  - destruct (q x); simpl; [rewrite Hp|]; exact IH'.
Qed.

Lemma strictEq_sameName (a : option string) (name : string) :
  name <> "" -> strictEq a name = true -> sameNameIgnoringCase a name = true.
Proof.
  intros Hne H. unfold strictEq in H. destruct a as [s|]; [|discriminate].
  apply String.eqb_eq in H. subst s. unfold sameNameIgnoringCase, truthy.
  destruct (String.eqb_spec name ""); [contradiction|]. simpl. apply String.eqb_refl.
Qed.

(** X7. The provider query is at least as wide as the host query, which is
    at least as wide as the host filter of [getEventOrders]: for the same name
    and parameters, what the host query returns is what the provider query
    returns with the bookings of other hosts left out, and what the
    case-sensitive host filter returns is what the host query returns with
    the differently-cased hosts left out. *)
Theorem host_query_within_provider_query (svc : Service) (name : string) (params : Params)
        (hostOrders : list Booking) :
  getOrdersByHost svc name params = Normal hostOrders ->
  (exists providerOrders,
      getOrdersByProvider svc name params = Normal providerOrders
      /\ hostOrders
         = filter (fun order => sameNameIgnoringCase (host order) name) providerOrders
      /\ Subsequence hostOrders providerOrders)
  /\ (name <> "" ->
      exists exact,
        getEventOrders svc params (Some name) = Normal exact
        /\ exact = filter (fun order => strictEq (host order) name) hostOrders
        /\ Subsequence exact hostOrders).
Proof.
  unfold getOrdersByHost, getOrdersByProvider. rewrite !tryCatch_rethrow. intro H.
  apply bind_normal in H as (all & Hall & H). injection H as <-.
  split.
  - rewrite Hall; simpl. eexists. split; [reflexivity|].
    assert (Heq : filter (fun order => sameNameIgnoringCase (host order) name) all
                  = filter (fun order => sameNameIgnoringCase (host order) name)
                           (filter (providerFilter name) all)).
    { apply filter_implied. intros b _ Hb. unfold providerFilter. rewrite Hb. reflexivity. }
    split; [exact Heq|]. rewrite Heq. apply filter_subsequence.
  - intro Hne.
    unfold getEventOrders in *. rewrite tryCatch_rethrow in *.
    apply bind_normal in Hall as (orders & Ho & Hall). rewrite Ho; simpl.
    apply bind_normal in Hall as (parsed & Hp & Hall). rewrite Hp; simpl.
    injection Hall as <-.
    destruct (String.eqb_spec name ""); [contradiction|].
    eexists. split; [reflexivity|].
    assert (Heq : filter (fun order => strictEq (host order) name) parsed
                  = filter (fun order => strictEq (host order) name)
                           (filter (fun order => sameNameIgnoringCase (host order) name)
                                   parsed)).
    { apply filter_implied. intros b _ Hb. apply strictEq_sameName; assumption. }
    split; [exact Heq|]. rewrite Heq. apply filter_subsequence.
Qed.

Lemma host_query_witness :
  exists hostOrders providerOrders,
    getOrdersByHost Sample.service "other" Sample.noParams = Normal hostOrders
    /\ getOrdersByProvider Sample.service "other" Sample.noParams = Normal providerOrders
    /\ map provider hostOrders = [Some "Other"]
    /\ map provider providerOrders = [Some "Llamas"; Some "Other"]
    /\ Subsequence hostOrders providerOrders.
Proof.
  eexists. 
  destruct (proj1 (host_query_within_provider_query Sample.service "other" Sample.noParams
                     _ eq_refl)) as (providerOrders & Hp & Heq & Hsub).
  exists providerOrders. split; [reflexivity|]. split; [exact Hp|].
  split; [reflexivity|]. split; [|exact Hsub].
  vm_compute in Hp. injection Hp as <-. reflexivity.
Defined.

(** *** Listings of hosts and providers *)

Lemma insertSorted_In (x y : string) (l : list string) :
  In y (insertSorted x l) <-> y = x \/ In y l.
Proof.
  induction l as [|z l IH]; simpl; [intuition|].
  destruct (x <=? z)%string; simpl; [intuition|]. rewrite IH. intuition.
Qed.

Lemma sort_In (y : string) (l : list string) : In y (sort l) <-> In y l.
Proof.
  induction l as [|x l IH]; simpl; [tauto|].
  rewrite insertSorted_In, IH. intuition.
Qed.

Lemma insertSorted_NoDup (x : string) (l : list string) :
  NoDup l -> ~ In x l -> NoDup (insertSorted x l).
Proof.
  induction l as [|z l IH]; simpl; intros Hnd Hx.
  - constructor; [tauto | constructor].
  - destruct (x <=? z)%string; [constructor; [simpl; tauto | exact Hnd]|].
    inversion Hnd as [|? ? Hz Hl]; subst. constructor.
    + rewrite insertSorted_In. intros [->|H]; tauto.
    + apply IH; tauto.
Qed.

Lemma sort_NoDup (l : list string) : NoDup l -> NoDup (sort l).
Proof.
  induction 1 as [|x l Hx Hnd IH]; simpl; [constructor|].
  apply insertSorted_NoDup; [exact IH|]. rewrite sort_In. exact Hx.
Qed.

Lemma insertSorted_ascending (x : string) (l : list string) :
  ascending l -> ascending (insertSorted x l).
Proof.
  unfold ascending. induction l as [|z l IH]; simpl; intro Hs.
  - repeat constructor.
  - destruct (x <=? z)%string eqn:Hxz.
    + constructor; [exact Hs | constructor; exact Hxz].
    + inversion Hs as [|? ? Hl Hhd]; subst.
      assert (Hzx : (z <=? x)%string = true).
      { destruct (String.leb_total x z) as [H|H]; [congruence | exact H]. }
      constructor; [apply IH; exact Hl|].
      destruct l as [|w l]; simpl; [constructor; exact Hzx|].
      destruct (x <=? w)%string; constructor; [exact Hzx|].
      inversion Hhd; assumption.
Qed.

Lemma sort_ascending (l : list string) : ascending (sort l).
Proof.
  induction l as [|x l IH]; simpl; [constructor|].
  apply insertSorted_ascending, IH.
Qed.

Lemma indexOf_nth (x : string) (l : list string) (i : nat) :
  indexOf x l = Some i -> nth_error l i = Some x.
Proof.
  revert i; induction l as [|y l IH]; simpl; intro i; [discriminate|].
  destruct (String.eqb_spec x y) as [->|_].
  - intro H; injection H as <-. reflexivity.
  - destruct (indexOf x l) as [j|]; [|discriminate].
    intro H; injection H as <-. simpl. apply IH. reflexivity.
Qed.

Lemma indexOf_In (x : string) (l : list string) :
  In x l -> exists i, indexOf x l = Some i.
Proof.
  induction l as [|y l IH]; simpl; [tauto|].
  destruct (String.eqb_spec x y) as [->|Hne]; [eauto|].
  intros [H|H]; [congruence|]. destruct (IH H) as [i ->]. eauto.
Qed.

Lemma combine_seq_nth (l : list string) (start i : nat) (x : string) :
  nth_error l i = Some x -> In (start + i, x) (combine (seq start (List.length l)) l).
Proof.
  revert start i; induction l as [|y l IH]; intros start i; simpl.
  - destruct i; discriminate.
  - destruct i as [|i]; simpl.
    + intro H; injection H as <-. left. f_equal. lia.
    + intro H. right. replace (start + S i) with (S start + i) by lia. apply IH, H.
Qed.

Lemma combine_NoDup {A B} (a : list A) (b : list B) :
  NoDup a -> NoDup (combine a b).
Proof.
  intro H. revert b; induction H as [|x a Hx Hnd IH]; intro b; simpl; [constructor|].
  destruct b as [|y b]; constructor; [|apply IH].
  intro Hin. apply in_combine_l in Hin. contradiction.
Qed.

Lemma map_NoDup {A B} (f : A -> B) (l : list A) :
  (forall x y, In x l -> In y l -> f x = f y -> x = y) ->
  NoDup l -> NoDup (map f l).
Proof.
  intros Hinj H. induction H as [|x l Hx Hnd IH]; simpl; [constructor|].
  constructor.
  - intro Hin. apply in_map_iff in Hin as (y & Hy & Hin).
    assert (y = x) by (apply Hinj; simpl; auto). subst. contradiction.
  - apply IH. intros a b Ha Hb. apply Hinj; simpl; auto.
Qed.

Lemma firstOccurrences_In (x : string) (l : list string) :
  In x (firstOccurrences l) <-> In x l.
Proof.
  unfold firstOccurrences. rewrite in_map_iff. split.
  - intros ([i y] & <- & H). apply filter_In in H as [H _].
    apply in_combine_r in H. exact H.
  - intro H. destruct (indexOf_In x l H) as [i Hi].
    exists (i, x). split; [reflexivity|]. apply filter_In. split.
    + apply (combine_seq_nth l 0 i x), indexOf_nth, Hi.
    + simpl. rewrite Hi. apply Nat.eqb_refl.
Qed.

Lemma firstOccurrences_NoDup (l : list string) : NoDup (firstOccurrences l).
Proof.
  unfold firstOccurrences. apply map_NoDup.
  - intros [i x] [j y] Hx Hy; simpl; intros <-.
    apply filter_In in Hx as [_ Hx], Hy as [_ Hy]; simpl in *.
    destruct (indexOf x l) as [k|]; [|discriminate].
    apply Nat.eqb_eq in Hx, Hy. congruence.
  - apply NoDup_filter, combine_NoDup, seq_NoDup.
Qed.

Lemma definedStrings_In (x : string) (values : list (option string)) :
  In x (definedStrings values) <-> In (Some x) values.
Proof.
  induction values as [|[v|] values IH]; simpl; [tauto| |].
  - rewrite IH. split; intros [H|H]; auto; [left; congruence | left; congruence].
  - rewrite IH. split; [auto | intros [H|H]; [discriminate | exact H]].
Qed.

(** X8. The host listing is in ascending order of code units, has no
    duplicates, and holds exactly the non-null hosts of the event orders
    fetched with limit 250. *)
Theorem host_listing_sorted_unique (svc : Service) (params : Params) (hosts : list string) :
  getAvailableHosts svc params = Normal hosts ->
  exists eventOrders,
    getEventOrders svc (withLimit250 params) None = Normal eventOrders
    /\ ascending hosts
    /\ NoDup hosts
    /\ forall h, In h hosts <-> exists b, In b eventOrders /\ host b = Some h.
Proof.
  unfold getAvailableHosts. rewrite tryCatch_rethrow. intro H.
  apply bind_normal in H as (eventOrders & He & H). injection H as <-.
  exists eventOrders. split; [exact He|].
  split; [apply sort_ascending|].
  split; [apply sort_NoDup, firstOccurrences_NoDup|].
  intro h. rewrite sort_In, firstOccurrences_In, definedStrings_In, in_map_iff.
  split; intros (b & H1 & H2); exists b; auto.
Qed.

Lemma host_listing_witness :
  exists hosts, getAvailableHosts Sample.service Sample.noParams = Normal hosts
                /\ hosts = ["Another_Host"; "Llamas"; "Other"; "Studio Marta"]
                /\ NoDup hosts.
Proof.
  eexists. split; [vm_compute; reflexivity|]. split; [reflexivity|].
  destruct (host_listing_sorted_unique Sample.service Sample.noParams _ eq_refl)
    as (_ & _ & _ & Hnd & _).
  exact Hnd.
Defined.

Lemma setAdd_In (x y : string) (set : list string) :
  In y (setAdd x set) <-> y = x \/ In y set.
Proof.
  unfold setAdd. destruct (existsb (String.eqb x) set) eqn:Hex.
  - apply existsb_exists in Hex as (z & Hz & Hxz). apply String.eqb_eq in Hxz. subst z.
    split; [auto | intros [->|H]; auto].
  - rewrite in_app_iff; simpl. intuition.
Qed.

Lemma setAdd_NoDup (x : string) (set : list string) :
  NoDup set -> NoDup (setAdd x set).
Proof.
  intro H. unfold setAdd. destruct (existsb (String.eqb x) set) eqn:Hex; [exact H|].
  apply NoDup_app; [exact H | repeat constructor; simpl; tauto |].
  intros y Hy [Heq|[]]. subst y.
  assert (existsb (String.eqb x) set = true)
    by (apply existsb_exists; exists x; split; [exact Hy | apply String.eqb_refl]).
  congruence.
Qed.

Lemma addIfTruthy_In (value : option string) (y : string) (set : list string) :
  In y (addIfTruthy value set) <-> (value = Some y /\ y <> "") \/ In y set.
Proof.
  unfold addIfTruthy. destruct value as [v|].
  - destruct (String.eqb_spec v "") as [->|Hne].
    + split; [auto | intros [[H Hy]|H]; [congruence | exact H]].
    + rewrite setAdd_In. split.
      * intros [->|H]; auto.
      * intros [[H _]|H]; [injection H as <-; auto | auto].
  - split; [auto | intros [[H _]|H]; [discriminate | exact H]].
Qed.

Lemma addIfTruthy_NoDup (value : option string) (set : list string) :
  NoDup set -> NoDup (addIfTruthy value set).
Proof.
  intro H. unfold addIfTruthy. destruct value as [v|]; [|exact H].
  destruct (v =? ""); [exact H | apply setAdd_NoDup, H].
Qed.

Lemma vendors_fold (items : list LineItem) (set : list string) :
  (NoDup set ->
   NoDup (fold_left (fun acc item => addIfTruthy (li_vendor item) acc) items set))
  /\ forall y,
       In y (fold_left (fun acc item => addIfTruthy (li_vendor item) acc) items set)
       <-> (exists item, In item items /\ li_vendor item = Some y /\ y <> "") \/ In y set.
Proof.
  revert set; induction items as [|item items IH]; intro set; simpl.
  - split; [auto|]. intro y. split; [auto | intros [(? & [] & _)|H]; exact H].
  - destruct (IH (addIfTruthy (li_vendor item) set)) as [Hnd Hin]. split.
    + intro H. apply Hnd, addIfTruthy_NoDup, H.
    + intro y. rewrite Hin, addIfTruthy_In. split.
      * intros [(i & Hi & Hv)|[Hv|H]]; [left; eauto | left; exists item; tauto | auto].
      * intros [(i & [<-|Hi] & Hv)|H]; [tauto | left; eauto | auto].
Qed.

Lemma host_never_empty (svc : Service) (order : RawOrder) (b : Booking) :
  parseOrderWithCowlendar svc order = Normal b -> host b <> Some "".
Proof.
  intro Hb.
  destruct (parseOrderWithCowlendar_fields svc order) as (h & b' & _ & Hb' & Hp & Hh & _).
  rewrite Hb in Hb'. injection Hb' as <-. rewrite Hh, Hp.
  unfold orElse, extractVendorFromOrder, truthy.
  destruct h as [x|].
  - destruct (String.eqb_spec x "") as [->|Hne]; simpl; [|congruence].
    destruct (line_items order) as [[|item rest]|]; try discriminate.
    unfold orElse, truthy. destruct (li_vendor item) as [v|]; [|discriminate].
    destruct (String.eqb_spec v ""); simpl; congruence.
  - destruct (line_items order) as [[|item rest]|]; try discriminate.
    unfold orElse, truthy. destruct (li_vendor item) as [v|]; [|discriminate].
    destruct (String.eqb_spec v ""); simpl; congruence.
Qed.

Lemma collectProviders_spec (svc : Service) (orders : list RawOrder)
      (set providers : list string) :
  foldM (collectProviders svc) orders set = Normal providers ->
  (NoDup set -> NoDup providers)
  /\ forall p,
       In p providers
       <-> (exists o b, In o orders /\ hasCowlendarMetadata (env svc) o = true
                        /\ parseOrderWithCowlendar svc o = Normal b /\ host b = Some p)
           \/ (exists o item, In o orders /\ In item (itemsOf o)
                              /\ li_vendor item = Some p /\ p <> "")
           \/ In p set.
Proof.
  revert set; induction orders as [|o orders IH]; intro set; simpl.
  - intro H; injection H as <-. split; [auto|]. intro p.
    split; [auto | intros [(? & ? & [] & _)|[(? & ? & [] & _)|H]]; exact H].
  - intro H. apply bind_normal in H as (set' & Hstep & H).
    destruct (IH set' H) as [Hnd Hin]. clear IH H.
    unfold collectProviders in Hstep.
    apply bind_normal in Hstep as (withHost & Hhost & Hstep). injection Hstep as <-.
    assert (Hitems : (NoDup withHost ->
                      NoDup (match line_items o with
                             | Some items =>
                                 fold_left (fun acc item => addIfTruthy (li_vendor item) acc)
                                           items withHost
                             | None => withHost
                             end))
                     /\ forall y,
                         In y (match line_items o with
                               | Some items =>
                                   fold_left (fun acc item => addIfTruthy (li_vendor item) acc)
                                             items withHost
                               | None => withHost
                               end)
                         <-> (exists item, In item (itemsOf o)
                                           /\ li_vendor item = Some y /\ y <> "")
                             \/ In y withHost).
    { unfold itemsOf. destruct (line_items o) as [items|]; [apply vendors_fold|].
      split; [auto|]. intro y. split; [auto | intros [(? & [] & _)|Hy]; exact Hy]. }
    destruct Hitems as [HndI HinI].
    assert (Hw : (NoDup set -> NoDup withHost)
                 /\ forall y, In y withHost
                              <-> (exists b, hasCowlendarMetadata (env svc) o = true
                                             /\ parseOrderWithCowlendar svc o = Normal b
                                             /\ host b = Some y)
                                  \/ In y set).
    { destruct (hasCowlendarMetadata (env svc) o).
      - apply bind_normal in Hhost as (b & Hb & Hhost). injection Hhost as <-.
        split; [apply addIfTruthy_NoDup|]. intro y. rewrite addIfTruthy_In. split.
        + intros [[Hy _]|Hy]; [left; eauto | auto].
        + intros [(b' & _ & Hb' & Hy)|Hy]; [|auto].
          rewrite Hb in Hb'. injection Hb' as <-. left. split; [exact Hy|].
          intros ->. exact (host_never_empty svc o b Hb Hy).
      - injection Hhost as <-. split; [auto|]. intro y.
        split; [auto | intros [(? & Hq & _)|Hy]; [discriminate | exact Hy]]. }
    destruct Hw as [HndW HinW].
    split; [intro Hs; apply Hnd, HndI, HndW, Hs|].
    intro p. rewrite Hin, HinI, HinW. split.
    + intros [(o' & b & Ho & Hq)|[(o' & item & Ho & Hi)|[Hi|[(b & Hq)|H]]]].
      * left. exists o', b. tauto.
      * right; left. exists o', item. tauto.
      * right; left. destruct Hi as (item & Hi). exists o, item. tauto.
      * left. exists o, b. tauto.
      * right; right. exact H.
    + intros [(o' & b & [<-|Ho] & Hq)|[(o' & item & [<-|Ho] & Hi)|H]].
      * right; right; right; left. exists b. tauto.
      * left. exists o', b. tauto.
      * right; right; left. exists item. tauto.
      * right; left. exists o', item. tauto.
      * right; right; right; right. exact H.
Qed.

(** X9. The provider listing is in ascending order of code units, has no
    duplicates, and holds exactly the hosts of the fetched orders that
    qualify as bookings together with every non-empty line-item vendor of
    every fetched order, qualifying or not. *)
Theorem provider_listing_sorted_unique (svc : Service) (params : Params)
        (providers : list string) :
  getAvailableProviders svc params = Normal providers ->
  exists orders,
    getOrders svc (withLimit250 params) = Normal orders
    /\ ascending providers
    /\ NoDup providers
    /\ forall p,
         In p providers
         <-> (exists o b, In o orders /\ hasCowlendarMetadata (env svc) o = true
                          /\ parseOrderWithCowlendar svc o = Normal b /\ host b = Some p)
             \/ (exists o item, In o orders /\ In item (itemsOf o)
                                /\ li_vendor item = Some p /\ p <> "").
Proof.
  unfold getAvailableProviders. rewrite tryCatch_rethrow. intro H.
  apply bind_normal in H as (orders & Ho & H).
  apply bind_normal in H as (set & Hset & H). injection H as <-.
  exists orders. split; [exact Ho|].
  destruct (collectProviders_spec svc orders [] set Hset) as [Hnd Hin].
  split; [apply sort_ascending|].
  split; [apply sort_NoDup, Hnd; constructor|].
  intro p. rewrite sort_In, Hin. simpl. tauto.
Qed.

(** The vendor of the plain shop order is listed as a provider. *)
Lemma provider_listing_witness :
  exists providers,
    getAvailableProviders Sample.service Sample.noParams = Normal providers
    /\ providers = ["Another_Host"; "Llamas"; "Other"; "Shop"; "Studio Marta"]
    /\ NoDup providers.
Proof.
  eexists. split; [vm_compute; reflexivity|]. split; [reflexivity|].
  destruct (provider_listing_sorted_unique Sample.service Sample.noParams _ eq_refl)
    as (_ & _ & _ & Hnd & _).
  exact Hnd.
Defined.

(** *** API keys *)

Lemma getenv_setProperty (obj : Object) (key v h w : string) :
  getenv (setProperty obj key v) h = Some w ->
  (h = key /\ w = v) \/ getenv obj h = Some w.
Proof.
  induction obj as [|[k x] obj IH]; simpl.
  - destruct (key =? "__proto__"); simpl; [discriminate|].
    destruct (String.eqb_spec key h) as [->|_]; [|discriminate].
    intro H; injection H as <-. auto.
  - destruct (String.eqb_spec k key) as [->|Hne]; simpl.
    + destruct (String.eqb_spec key h) as [->|_]; [|auto].
      intro H; injection H as <-. auto.
    + destruct (String.eqb_spec k h) as [->|_]; [auto | exact IH].
Qed.

(** Every host key comes from a [HOST_API_KEY_] variable of the environment. *)
Lemma getHostApiKeys_origin (e : Env) (h v : string) :
  getenv (getHostApiKeys e) h = Some v ->
  exists name, startsWith "HOST_API_KEY_" name = true
               /\ getenv e name = Some v
               /\ h = toLowerCase (replace "HOST_API_KEY_" "" name).
Proof.
  unfold getHostApiKeys.
  set (step := fun (hostKeys : Object) (key : string) => _).
  set (P := fun (h v : string) =>
              exists name, startsWith "HOST_API_KEY_" name = true
                           /\ getenv e name = Some v
                           /\ h = toLowerCase (replace "HOST_API_KEY_" "" name)).
  assert (Hfold : forall names hostKeys,
             (forall h v, getenv hostKeys h = Some v -> P h v) ->
             forall h v, getenv (fold_left step names hostKeys) h = Some v -> P h v).
  { induction names as [|key names IH]; cbn [fold_left]; intros hostKeys Hinv;
      [exact Hinv|].
    apply IH. intros h' v' H. unfold step in H.
    destruct (startsWith "HOST_API_KEY_" key) eqn:Hp; [|auto].
    destruct (getenv e key) as [x|] eqn:Hx; [|auto].
    apply getenv_setProperty in H as [[-> ->]|H]; [|auto].
    exists key. auto. }
  apply Hfold. intros h' v' H. discriminate H.
Qed.

(** X10. The API-key gate lets a request through only in three cases: no key
    of any kind is configured and NODE_ENV is development (no identity is
    set); the presented key is the non-empty API_KEY (global identity); or the
    presented key is the value of a HOST_API_KEY_ variable, whose lowercased
    suffix becomes the host identity. A presented key equal to API_KEY is
    always accepted as global, also when a host key has the same value. *)
Theorem api_key_gate_is_sound (e : Env) (req : Request) :
  (forall who,
      authenticateApiKey e req = Next who ->
      (authenticatedAs who = None
       /\ getenv e "NODE_ENV" = Some "development"
       /\ truthy (getenv e "API_KEY") = false
       /\ keys (getHostApiKeys e) = [])
      \/ exists key,
           orElse (x_api_key req) (api_key req) = Some key /\ key <> ""
           /\ ((authenticatedAs who = Some Global /\ getenv e "API_KEY" = Some key)
               \/ (authenticatedAs who = Some Host
                   /\ exists name h,
                        startsWith "HOST_API_KEY_" name = true
                        /\ getenv e name = Some key
                        /\ h = toLowerCase (replace "HOST_API_KEY_" "" name)
                        /\ h <> ""
                        /\ authenticatedHost who = Some h)))
  /\ (forall key,
        getenv e "API_KEY" = Some key -> key <> "" ->
        orElse (x_api_key req) (api_key req) = Some key ->
        authenticateApiKey e req
        = Next {| authenticatedAs := Some Global; authenticatedHost := None |}).
Proof.
  split.
  - intro who. unfold authenticateApiKey.
    destruct (strictEq (getenv e "NODE_ENV") "development") eqn:Hdev; simpl.
    + destruct (truthy (getenv e "API_KEY")) eqn:Hkey; simpl.
      * destruct (orElse (x_api_key req) (api_key req)) as [key|] eqn:Hk; [|discriminate].
        destruct (String.eqb_spec key "") as [->|Hne]; [discriminate|].
        destruct (strictEq (getenv e "API_KEY") key) eqn:Heq.
        -- intro H; injection H as <-. right. exists key. split; [reflexivity|].
           split; [exact Hne|]. left. split; [reflexivity|].
           unfold strictEq in Heq. destruct (getenv e "API_KEY") as [k|]; [|discriminate].
           apply String.eqb_eq in Heq. congruence.
        -- destruct (find _ (keys (getHostApiKeys e))) as [h|] eqn:Hfind; [|discriminate].
           destruct (String.eqb_spec h "") as [->|Hh]; [discriminate|].
           intro H; injection H as <-. right. exists key. split; [reflexivity|].
           split; [exact Hne|]. right. split; [reflexivity|].
           apply find_some in Hfind as [_ Hv]. unfold strictEq in Hv.
           destruct (getenv (getHostApiKeys e) h) as [v|] eqn:Hg; [|discriminate].
           apply String.eqb_eq in Hv. subst v.
           apply getHostApiKeys_origin in Hg as (name & Hp & Hn & Hl).
           exists name, h. auto 6.
      * destruct (Nat.eqb_spec (List.length (keys (getHostApiKeys e))) 0) as [Hz|Hnz]; simpl.
        -- intro H; injection H as <-. left. split; [reflexivity|].
           unfold strictEq in Hdev. destruct (getenv e "NODE_ENV") as [n|]; [|discriminate].
           apply String.eqb_eq in Hdev. subst n. split; [reflexivity|].
           split; [reflexivity|]. destruct (keys (getHostApiKeys e)); [reflexivity | discriminate].
        -- destruct (orElse (x_api_key req) (api_key req)) as [key|] eqn:Hk; [|discriminate].
           destruct (String.eqb_spec key "") as [->|Hne]; [discriminate|].
           destruct (find _ (keys (getHostApiKeys e))) as [h|] eqn:Hfind; [|discriminate].
           destruct (String.eqb_spec h "") as [->|Hh]; [discriminate|].
           intro H; injection H as <-. right. exists key. split; [reflexivity|].
           split; [exact Hne|]. right. split; [reflexivity|].
           apply find_some in Hfind as [_ Hv]. unfold strictEq in Hv.
           destruct (getenv (getHostApiKeys e) h) as [v|] eqn:Hg; [|discriminate].
           apply String.eqb_eq in Hv. subst v.
           apply getHostApiKeys_origin in Hg as (name & Hp & Hn & Hl).
           exists name, h. auto 6.
    + destruct (negb (truthy (getenv e "API_KEY")) && _) eqn:Hcfg; [discriminate|].
      destruct (orElse (x_api_key req) (api_key req)) as [key|] eqn:Hk; [|discriminate].
      destruct (String.eqb_spec key "") as [->|Hne]; [discriminate|].
      destruct (truthy (getenv e "API_KEY") && strictEq (getenv e "API_KEY") key) eqn:Heq.
      * intro H; injection H as <-. right. exists key. split; [reflexivity|].
        split; [exact Hne|]. left. split; [reflexivity|].
        apply andb_true_iff in Heq as [_ Heq]. unfold strictEq in Heq.
        destruct (getenv e "API_KEY") as [k|]; [|discriminate].
        apply String.eqb_eq in Heq. congruence.
      * destruct (find _ (keys (getHostApiKeys e))) as [h|] eqn:Hfind; [|discriminate].
        destruct (String.eqb_spec h "") as [->|Hh]; [discriminate|].
        intro H; injection H as <-. right. exists key. split; [reflexivity|].
        split; [exact Hne|]. right. split; [reflexivity|].
        apply find_some in Hfind as [_ Hv]. unfold strictEq in Hv.
        destruct (getenv (getHostApiKeys e) h) as [v|] eqn:Hg; [|discriminate].
        apply String.eqb_eq in Hv. subst v.
        apply getHostApiKeys_origin in Hg as (name & Hp & Hn & Hl).
        exists name, h. auto 6.
  - intros key Hkey Hne Hk. unfold authenticateApiKey. rewrite Hkey, Hk.
    unfold truthy, strictEq.
    destruct (String.eqb_spec key "") as [|_]; [contradiction|]. simpl.
    rewrite !andb_false_r. simpl. rewrite String.eqb_refl. reflexivity.
Qed.

Lemma api_key_gate_witness :
  authenticateApiKey Sample.environment (Sample.request (Some "global_key_123") None None)
  = Next {| authenticatedAs := Some Global; authenticatedHost := None |}
  /\ exists name, getenv Sample.environment name = Some "llamas_test_key_456"
                  /\ startsWith "HOST_API_KEY_" name = true.
Proof.
  pose proof (api_key_gate_is_sound Sample.environment
                (Sample.request (Some "global_key_123") None None)) as [_ Hglobal].
  split; [apply (Hglobal "global_key_123"); [reflexivity | discriminate | reflexivity]|].
  destruct (proj1 (api_key_gate_is_sound Sample.environment Sample.crossRequest) _ eq_refl)
    as [(H & _)|(key & Hk & _ & [(H & _)|(_ & name & h & Hp & Hn & _)])];
    [discriminate H | discriminate H |].
  injection Hk as <-. exists name. split; [exact Hn | exact Hp].
Defined.

(** The host-scoped caller of the sample is refused a differently named host
    and let in to its own, whatever the case. *)
Lemma hostGuards_witness :
  (exists failure,
      hostGuards Sample.environment Sample.crossRequest = Respond failure
      /\ failStatus failure = 403%Z)
  /\ hostGuards Sample.environment Sample.ownRequest
     = Next {| authenticatedAs := Some Host; authenticatedHost := Some "llamas" |}.
Proof.
  split.
  - destruct (proj2 (hostGuards_compare_ignoring_case Sample.environment Sample.crossRequest
                       _ eq_refl) eq_refl) as (h & Hh & _ & Hno).
    injection Hh as <-. apply Hno. reflexivity.
  - destruct (proj2 (hostGuards_compare_ignoring_case Sample.environment Sample.ownRequest
                       {| authenticatedAs := Some Host; authenticatedHost := Some "llamas" |}
                       eq_refl) eq_refl)
      as (h & Hh & Hyes & _).
    injection Hh as <-. apply Hyes. reflexivity.
Defined.

(** *** The rate limiter *)

Lemma sameKey_eq (a b : option string) : sameKey a b = true <-> a = b.
Proof.
  destruct a as [x|], b as [y|]; simpl; try (split; [discriminate | discriminate]);
    try tauto.
  rewrite String.eqb_eq. split; congruence.
Qed.

Lemma sameKey_neq (a b : option string) : sameKey a b = false <-> a <> b.
Proof.
  rewrite <- sameKey_eq. destruct (sameKey a b); split; congruence.
Qed.

Lemma sameKey_sym (a b : option string) : sameKey a b = sameKey b a.
Proof.
  destruct a as [x|], b as [y|]; simpl; try reflexivity. apply String.eqb_sym.
Qed.

Section Maps.

Context {V : Type}.
Implicit Types (m : list (option string * V)) (k : option string).

Lemma mapGet_In m k v :
  NoDup (map fst m) -> (mapGet k m = Some v <-> In (k, v) m).
Proof.
  induction m as [|[k' w] m IH]; simpl; intro Hnd; [split; [discriminate | tauto]|].
  inversion Hnd as [|? ? Hk Hm]; subst.
  destruct (sameKey k' k) eqn:Hs.
  - apply sameKey_eq in Hs. subst k'. split.
    + intro H; injection H as <-. auto.
    + intros [H|H]; [congruence|].
      exfalso. apply Hk. apply in_map_iff. exists (k, v). auto.
  - apply sameKey_neq in Hs. rewrite (IH Hm). split; [auto|].
    intros [H|H]; [congruence | exact H].
Qed.

Lemma mapGet_absent m k :
  ~ In k (map fst m) -> mapGet k m = None.
Proof.
  induction m as [|[k' w] m IH]; simpl; intro H; [reflexivity|].
  destruct (sameKey k' k) eqn:Hs; [apply sameKey_eq in Hs; tauto | apply IH; tauto].
Qed.

Lemma mapSet_keys m k v :
  map fst (mapSet k v m)
  = if existsb (fun k' => sameKey k' k) (map fst m) then map fst m else map fst m ++ [k].
Proof.
  induction m as [|[k' w] m IH]; simpl; [reflexivity|].
  destruct (sameKey k' k); simpl; [reflexivity|].
  rewrite IH. destruct (existsb _ (map fst m)); reflexivity.
Qed.

Lemma mapSet_NoDup m k v :
  NoDup (map fst m) -> NoDup (map fst (mapSet k v m)).
Proof.
  intro H. rewrite mapSet_keys.
  destruct (existsb (fun k' => sameKey k' k) (map fst m)) eqn:Hex; [exact H|].
  apply NoDup_app; [exact H | repeat constructor; simpl; tauto|].
  intros x Hx [<-|[]].
  assert (existsb (fun k' => sameKey k' k) (map fst m) = true); [|congruence].
  apply existsb_exists. exists k. split; [exact Hx | apply sameKey_eq; reflexivity].
Qed.

Lemma mapGet_mapSet m k v k' :
  mapGet k' (mapSet k v m) = if sameKey k k' then Some v else mapGet k' m.
Proof.
  induction m as [|[k0 w] m IH]; simpl; [reflexivity|].
  destruct (sameKey k0 k) eqn:Hs; simpl.
  - apply sameKey_eq in Hs. rewrite <- Hs. destruct (sameKey k0 k'); reflexivity.
  - rewrite IH. destruct (sameKey k0 k') eqn:Hs'; [|reflexivity].
    apply sameKey_eq in Hs'. rewrite <- Hs', sameKey_sym, Hs. reflexivity.
Qed.

Lemma mapSet_In m k v k' v' :
  NoDup (map fst m) ->
  In (k', v') (mapSet k v m) ->
  (k' = k /\ v' = v) \/ In (k', v') m.
Proof.
  intros Hnd Hin.
  apply (mapGet_In _ _ _ (mapSet_NoDup m k v Hnd)) in Hin.
  rewrite mapGet_mapSet in Hin. destruct (sameKey k k') eqn:Hs.
  - apply sameKey_eq in Hs. injection Hin as <-. auto.
  - right. apply mapGet_In; assumption.
Qed.

Lemma mapSet_fresh m k v :
  ~ In k (map fst m) -> mapSet k v m = m ++ [(k, v)].
Proof.
  induction m as [|[k0 w] m IH]; simpl; intro H; [reflexivity|].
  destruct (sameKey k0 k) eqn:Hs; [apply sameKey_eq in Hs; tauto|].
  rewrite IH by tauto. reflexivity.
Qed.

Lemma mapSet_after m1 m2 k v w :
  ~ In k (map fst m1) ->
  mapSet k v (m1 ++ (k, w) :: m2) = m1 ++ (k, v) :: m2.
Proof.
  induction m1 as [|[k0 x] m1 IH]; simpl; intro H.
  - assert (Hs : sameKey k k = true) by (apply sameKey_eq; reflexivity).
    rewrite Hs. reflexivity.
  - destruct (sameKey k0 k) eqn:Hs; [apply sameKey_eq in Hs; tauto|].
    rewrite IH by tauto. reflexivity.
Qed.

Lemma mapGet_after m1 m2 k v :
  ~ In k (map fst m1) -> mapGet k (m1 ++ (k, v) :: m2) = Some v.
Proof.
  induction m1 as [|[k0 x] m1 IH]; simpl; intro H.
  - assert (Hs : sameKey k k = true) by (apply sameKey_eq; reflexivity).
    rewrite Hs. reflexivity.
  - destruct (sameKey k0 k) eqn:Hs; [apply sameKey_eq in Hs; tauto|].
    apply IH. tauto.
Qed.

Lemma mapDelete_after m1 m2 k v :
  ~ In k (map fst m1) -> mapDelete k (m1 ++ (k, v) :: m2) = m1 ++ m2.
Proof.
  induction m1 as [|[k0 x] m1 IH]; simpl; intro H.
  - assert (Hs : sameKey k k = true) by (apply sameKey_eq; reflexivity).
    rewrite Hs. reflexivity.
  - destruct (sameKey k0 k) eqn:Hs; [apply sameKey_eq in Hs; tauto|].
    rewrite IH by tauto. reflexivity.
Qed.

End Maps.

Lemma recent_length (windowStart : Z) (times : list Z) :
  List.length (recent windowStart times) <= List.length times.
Proof.
  unfold recent. induction times as [|t times IH]; simpl; [lia|].
  destruct (windowStart <? t)%Z; simpl; lia.
Qed.

Lemma recent_again (windowStart : Z) (times : list Z) :
  recent windowStart (recent windowStart times) = recent windowStart times.
Proof.
  unfold recent. induction times as [|t times IH]; simpl; [reflexivity|].
  destruct (windowStart <? t)%Z eqn:H; simpl; [rewrite H, IH|]; auto.
Qed.

Lemma recent_In (windowStart t : Z) (times : list Z) :
  In t (recent windowStart times) <-> In t times /\ (windowStart < t)%Z.
Proof. unfold recent. rewrite filter_In, Z.ltb_lt. tauto. Qed.

(** On a map, the clean-up loop leaves the swept store. *)
Lemma cleanUp_swept (windowStart : Z) (store : RateStore) :
  NoDup (map fst store) -> cleanUp windowStart store = swept windowStart store.
Proof.
  unfold cleanUp. intro Hnd.
  assert (Hgen : forall rest done,
             NoDup (map fst (done ++ rest)) ->
             fold_left (cleanEntry windowStart) rest (done ++ rest)
             = done ++ swept windowStart rest).
  { induction rest as [|[k times] rest IH]; intros done Hd; simpl.
    - unfold swept. simpl. reflexivity.
    - assert (Hk : ~ In k (map fst done)).
      { rewrite map_app in Hd. simpl in Hd. apply NoDup_remove_2 in Hd.
        rewrite in_app_iff in Hd. tauto. }
      unfold cleanEntry at 2. cbn [fst snd].
      rewrite (mapSet_after done rest k _ times Hk), (mapGet_after done rest k _ Hk).
      unfold swept; cbn [map filter fst snd]. fold (swept windowStart rest).
      destruct (recent windowStart times) as [|t ts] eqn:Hr.
      + rewrite (mapDelete_after done rest k _ Hk). apply IH.
        rewrite map_app in *. simpl in Hd. apply NoDup_remove_1 in Hd. exact Hd.
      + replace (done ++ (k, t :: ts) :: rest) with ((done ++ [(k, t :: ts)]) ++ rest)
          by (rewrite <- app_assoc; reflexivity).
        rewrite IH; [rewrite <- app_assoc; reflexivity|].
        rewrite <- app_assoc. simpl.
        rewrite map_app in *. simpl in *. exact Hd. }
  exact (Hgen store [] Hnd).
Qed.

Lemma swept_In (windowStart : Z) (store : RateStore) (k : option string) (times : list Z) :
  In (k, times) (swept windowStart store)
  <-> exists old, In (k, old) store /\ times = recent windowStart old /\ times <> [].
Proof.
  unfold swept. rewrite filter_In, in_map_iff. simpl. split.
  - intros [([k' old] & Heq & Hin) Hne]. injection Heq as <- <-.
    exists old. split; [exact Hin|]. split; [reflexivity|].
    destruct (recent windowStart old); [discriminate | discriminate].
  - intros (old & Hin & -> & Hne). split; [exists (k, old); auto|].
    destruct (recent windowStart old); [contradiction | reflexivity].
Qed.

Lemma swept_NoDup (windowStart : Z) (store : RateStore) :
  NoDup (map fst store) -> NoDup (map fst (swept windowStart store)).
Proof.
  unfold swept. induction store as [|[k times] store IH]; simpl; intro H; [constructor|].
  inversion H as [|? ? Hk Hs]; subst.
  destruct (recent windowStart times); simpl; [apply IH, Hs|].
  constructor; [|apply IH, Hs].
  intro Hin. apply Hk. apply in_map_iff in Hin as ([k' ts] & <- & Hin).
  apply filter_In in Hin as [Hin _]. apply in_map_iff in Hin as ([k'' old] & Heq & Hin).
  injection Heq as <- _. apply in_map_iff. exists (k'', old). auto.
Qed.

Lemma swept_stored (windowStart : Z) (store : RateStore) (k : option string) :
  NoDup (map fst store) ->
  recent windowStart (stored k (swept windowStart store))
  = recent windowStart (stored k store).
Proof.
  intro Hnd. unfold stored.
  destruct (mapGet k (swept windowStart store)) as [times|] eqn:Hs.
  - apply (mapGet_In _ _ _ (swept_NoDup windowStart store Hnd)) in Hs.
    apply swept_In in Hs as (old & Hin & -> & _).
    apply (mapGet_In _ _ _ Hnd) in Hin. rewrite Hin. apply recent_again.
  - destruct (mapGet k store) as [old|] eqn:Ho; [|reflexivity].
    destruct (recent windowStart old) as [|t ts] eqn:Hr; [reflexivity|].
    assert (Hin : In (k, t :: ts) (swept windowStart store)).
    { apply swept_In. exists old. split; [apply mapGet_In; assumption|].
      split; [congruence | discriminate]. }
    apply (mapGet_In _ _ _ (swept_NoDup windowStart store Hnd)) in Hin. congruence.
Qed.

Lemma swept_tidy (maxRequests windowStart : Z) (store : RateStore) :
  tidy maxRequests store -> tidy maxRequests (swept windowStart store).
Proof.
  intros [Hnd Hall]. split; [apply swept_NoDup, Hnd|].
  intros k times Hin. apply swept_In in Hin as (old & Hin & -> & Hne).
  split; [exact Hne|]. destruct (Hall k old Hin) as [_ Hlen].
  pose proof (recent_length windowStart old). lia.
Qed.

Lemma rateLimit_tidy (maxRequests windowMs : Z) (client : option string) (now : Z)
      (store : RateStore) :
  tidy maxRequests store ->
  tidy maxRequests (fst (rateLimit maxRequests windowMs client now store)).
Proof.
  intro Ht. pose proof Ht as [Hnd _]. unfold rateLimit.
  rewrite (cleanUp_swept _ _ Hnd).
  pose proof (swept_tidy maxRequests (now - windowMs) store Ht) as [Hnd' Hall'].
  destruct (Z.leb_spec maxRequests
              (Z.of_nat (List.length
                 (recent (now - windowMs)
                    match mapGet client (swept (now - windowMs) store) with
                    | Some requests => requests
                    | None => []
                    end)))) as [Hfull|Hroom]; simpl.
  - split; assumption.
  - split; [apply mapSet_NoDup, Hnd'|].
    intros k times Hin. apply (mapSet_In _ _ _ _ _ Hnd') in Hin as [[-> ->]|Hin].
    + split; [destruct (recent _ _); discriminate|].
      rewrite length_app. simpl. lia.
    + exact (Hall' k times Hin).
Qed.

(** X12. Starting from the empty store, after any run of requests through a
    limiter the store has one entry per client, no empty entry, and no client
    with more recorded times than the limit. *)
Theorem rate_store_stays_within_limit (maxRequests windowMs : Z)
        (requests : list (option string * Z)) (store : RateStore) :
  tidy maxRequests [] 
  /\ (tidy maxRequests store -> tidy maxRequests (serve maxRequests windowMs requests store)).
Proof.
  split.
  - split; [constructor | intros ? ? []].
  - unfold serve. revert store. induction requests as [|[client now] requests IH];
      intros store Ht; simpl; [exact Ht|].
    apply IH, rateLimit_tidy, Ht.
Qed.

Lemma rate_store_witness :
  tidy 2 (serve 2 60000 Sample.traffic [])
  /\ serve 2 60000 Sample.traffic []
     = [(Some "10.0.0.1", [1000; 2000]%Z); (Some "10.0.0.2", [2500]%Z)].
Proof.
  split; [|reflexivity].
  destruct (rate_store_stays_within_limit 2 60000 Sample.traffic []) as [Hempty Hkeep].
  exact (Hkeep Hempty).
Defined.

Lemma rateLimit_cases (maxRequests windowMs : Z) (client : option string) (now : Z)
      (store : RateStore) :
  NoDup (map fst store) ->
  rateLimit maxRequests windowMs client now store
  = let inWindow := recent (now - windowMs) (stored client store) in
    if (maxRequests <=? Z.of_nat (List.length inWindow))%Z then
      (swept (now - windowMs) store,
       TooManyRequests (match inWindow with
                        | first :: _ => Num (ceilThousandth (first + windowMs - now))
                        | [] => NaN
                        end))
    else (mapSet client (inWindow ++ [now]) (swept (now - windowMs) store), Passed).
Proof.
  intro Hnd. unfold rateLimit. rewrite (cleanUp_swept _ _ Hnd).
  change (match mapGet client (swept (now - windowMs) store) with
          | Some requests => requests
          | None => []
          end) with (stored client (swept (now - windowMs) store)).
  rewrite (swept_stored _ _ _ Hnd). reflexivity.
Qed.

(** X13. On a map, a request is refused with 429 exactly when the client
    already has at least the allowed number of recorded times inside the
    window; a refused request is not recorded; an accepted one is recorded
    after the client's times inside the window, and leaves the other clients'
    records as the clean-up left them. When the limit is at least one and no
    recorded time lies in the future, the advertised retry delay is at least
    one second and at most the window rounded up to seconds. *)
Theorem rate_limit_refuses_at_the_limit (maxRequests windowMs : Z)
        (client : option string) (now : Z) (store : RateStore) :
  NoDup (map fst store) ->
  ((maxRequests <= Z.of_nat (List.length (recent (now - windowMs) (stored client store))))%Z ->
   fst (rateLimit maxRequests windowMs client now store) = swept (now - windowMs) store
   /\ exists retry, snd (rateLimit maxRequests windowMs client now store)
                    = TooManyRequests retry)
  /\ ((Z.of_nat (List.length (recent (now - windowMs) (stored client store))) < maxRequests)%Z ->
      snd (rateLimit maxRequests windowMs client now store) = Passed
      /\ stored client (fst (rateLimit maxRequests windowMs client now store))
         = recent (now - windowMs) (stored client store) ++ [now]
      /\ forall other, other <> client ->
                       stored other (fst (rateLimit maxRequests windowMs client now store))
                       = stored other (swept (now - windowMs) store))
  /\ ((1 <= maxRequests)%Z ->
      (maxRequests <= Z.of_nat (List.length (recent (now - windowMs) (stored client store))))%Z ->
      (forall t, In t (stored client store) -> (t <= now)%Z) ->
      exists seconds,
        snd (rateLimit maxRequests windowMs client now store) = TooManyRequests (Num seconds)
        /\ (1 <= seconds <= ceilThousandth windowMs)%Z).
Proof.
  intro Hnd. rewrite (rateLimit_cases _ _ _ _ _ Hnd). cbv zeta.
  set (inWindow := recent (now - windowMs) (stored client store)).
  split; [|split].
  - intro Hfull. destruct (Z.leb_spec maxRequests (Z.of_nat (List.length inWindow)));
      [|lia]. simpl. split; [reflexivity | eauto].
  - intro Hroom. destruct (Z.leb_spec maxRequests (Z.of_nat (List.length inWindow)));
      [lia|]. simpl. split; [reflexivity|]. unfold stored. split.
    + rewrite mapGet_mapSet.
      assert (Hs : sameKey client client = true) by (apply sameKey_eq; reflexivity).
      rewrite Hs. reflexivity.
    + intros other Hne. rewrite mapGet_mapSet.
      assert (Hs : sameKey client other = false) by (apply sameKey_neq; congruence).
      rewrite Hs. reflexivity.
  - intros Hpos Hfull Hpast.
    destruct (Z.leb_spec maxRequests (Z.of_nat (List.length inWindow))); [|lia]. simpl.
    destruct inWindow as [|first rest] eqn:Hw; [simpl in Hfull; lia|].
    exists (ceilThousandth (first + windowMs - now)). split; [reflexivity|].
    assert (Hin : In first (recent (now - windowMs) (stored client store)))
      by (fold inWindow; rewrite Hw; left; reflexivity).
    apply recent_In in Hin as [Hin Hlate]. specialize (Hpast first Hin).
    unfold ceilThousandth. split.
    + apply Z.div_le_lower_bound; lia.
    + apply Z.div_le_mono; lia.
Qed.

Lemma rate_limit_witness :
  (exists retry,
      snd (rateLimit 2 60000 (Some "10.0.0.1") 3000
                     [(Some "10.0.0.1", [1000; 2000]%Z)]) = TooManyRequests retry)
  /\ snd (rateLimit 2 60000 (Some "10.0.0.1") 61500
                    [(Some "10.0.0.1", [1000; 2000]%Z)]) = Passed
  /\ exists seconds,
       snd (rateLimit 2 60000 (Some "10.0.0.1") 3000
                      [(Some "10.0.0.1", [1000; 2000]%Z)]) = TooManyRequests (Num seconds)
       /\ (1 <= seconds <= 60)%Z.
Proof.
  assert (Hmap : NoDup (map fst [(Some "10.0.0.1", [1000; 2000]%Z)]))
    by (repeat constructor; simpl; tauto).
  pose proof (rate_limit_refuses_at_the_limit 2 60000 (Some "10.0.0.1") 3000 _ Hmap)
    as (Hfull & _ & Hretry).
  pose proof (rate_limit_refuses_at_the_limit 2 60000 (Some "10.0.0.1") 61500 _ Hmap)
    as (_ & Hroom & _).
  split; [|split].
  - apply Hfull. simpl. lia.
  - apply Hroom. simpl. lia.
  - apply Hretry; [lia | simpl; lia |].
    simpl. intros t [<-|[<-|[]]]; lia.
Defined.

(** *** GET /api/orders/:orderId and the route tables *)

Lemma fetch_failure_recognised (orderId detail : string) :
  includes "Failed to fetch order" ("Failed to fetch order " ++ orderId ++ ": " ++ detail)
  = true.
Proof. reflexivity. Qed.

Lemma orderByIdHandler_throw (svc : Service) (orderId : string) (e : Exn) :
  fetchOrder svc orderId = Throw e ->
  orderStatus (orderByIdHandler svc orderId) = 404%Z.
Proof.
  intro H. unfold orderByIdHandler, getOrderById. rewrite H.
  cbn [tryCatch bind message]. rewrite fetch_failure_recognised. reflexivity.
Qed.

Lemma orderByIdHandler_normal (svc : Service) (orderId : string) (order : RawOrder) :
  fetchOrder svc orderId = Normal order ->
  (hasCowlendarMetadata (env svc) order = false ->
   orderStatus (orderByIdHandler svc orderId) = 404%Z)
  /\ (hasCowlendarMetadata (env svc) order = true ->
      exists b, parseOrderWithCowlendar svc order = Normal b
                /\ orderStatus (orderByIdHandler svc orderId) = 200%Z
                /\ orderData (orderByIdHandler svc orderId)
                   = Some (transformForBookingApp b)).
Proof.
  intro H. unfold orderByIdHandler, getOrderById. rewrite H. cbn [tryCatch bind].
  split; intro Hq; rewrite Hq; cbn [negb]; [reflexivity|].
  destruct (parseOrderWithCowlendar_returns svc order) as [b Hb]. rewrite Hb.
  exists b. repeat split.
Qed.





(** X15. In routes/orders.js no request path selects the providers route:
    whatever path matches it is taken by the order lookup, registered before
    it, so GET /providers is an order lookup for the id "providers" and is
    answered 404 when the store has no such order. In routes/bookings.js each
    of the nine routes is selected by some path. *)
Theorem providers_route_is_shadowed :
  (forall path taken,
      selectRoute ordersRoutes path <> Some (OrdersProvidersRoute, taken))
  /\ selectRoute ordersRoutes "/providers" = Some (OrderByIdRoute, ["providers"])
  /\ (forall svc e,
        fetchOrder svc "providers" = Throw e ->
        orderStatus (orderByIdHandler svc "providers") = 404%Z)
  /\ (forall route, exists path taken,
        selectRoute bookingsRoutes path = Some (route, taken)).
Proof.
  split; [|split; [reflexivity|split]].
  - intros path taken. unfold selectRoute, ordersRoutes.
    destruct (pathSegments path) as [|piece [|piece' pieces]]; cbn [matchRoute];
      try discriminate;
      (destruct (String.eqb_spec piece "") as [->|_];
       [cbn; discriminate|]); try discriminate.
    destruct (toLowerCase "providers" =? toLowerCase piece); discriminate.
  - intros svc e He. exact (orderByIdHandler_throw svc "providers" e He).
  - intros [].
    + exists "/hosts". eexists; reflexivity.
    + exists "/host/Llamas". eexists; reflexivity.
    + exists "/host/Llamas/customer/john@example.com". eexists; reflexivity.
    + exists "/host/Llamas/events/2025-11-30". eexists; reflexivity.
    + exists "/". eexists; reflexivity.
    + exists "/5551". eexists; reflexivity.
    + exists "/customer/john@example.com". eexists; reflexivity.
    + exists "/events/2025-11-30". eexists; reflexivity.
    + exists "/debug/orders". eexists; reflexivity.
Qed.

Lemma providers_route_witness :
  orderStatus (orderByIdHandler Sample.shop "providers") = 404%Z
  /\ selectRoute ordersRoutes "/Providers/" = Some (OrderByIdRoute, ["Providers"]).
Proof.
  split; [|reflexivity].
  exact (proj1 (proj2 (proj2 providers_route_is_shadowed)) Sample.shop _ eq_refl).
Defined.

(** *** GET /api/orders *)

Lemma filter_length {A} (p : A -> bool) (l : list A) :
  List.length (filter p l) <= List.length l.
Proof. induction l as [|x l IH]; simpl; [lia|]. destruct (p x); simpl; lia. Qed.

Lemma filterWhen_length (field : option string) (test : string -> Booking -> bool)
      (orders : list Booking) :
  List.length (filterWhen field test orders) <= List.length orders.
Proof.
  unfold filterWhen. destruct field as [v|]; [|lia].
  destruct (v =? ""); [lia | apply filter_length].
Qed.

Lemma applyDateFilters_length (zeroVersus : string -> option comparison) (req : Request)
      (orders : list Booking) :
  List.length (applyDateFilters zeroVersus req orders) <= List.length orders.
Proof.
  unfold applyDateFilters.
  etransitivity; [apply filterWhen_length|].
  etransitivity; [apply filterWhen_length|]. apply filterWhen_length.
Qed.

Lemma Forall2_same_length {A B} (R : A -> B -> Prop) (xs : list A) (ys : list B) :
  Forall2 R xs ys -> List.length xs = List.length ys.
Proof. induction 1; simpl; congruence. Qed.

(** What [getOrdersByProvider] does with a provider that is not a string. *)
Lemma getOrdersByProviderOfNonString_cases (svc : Service) (params : Params) :
  match getEventOrders svc params None with
  | Normal eventOrders =>
      if existsb readsProviderName eventOrders
      then exists e, getOrdersByProviderOfNonString svc params = Throw e
      else getOrdersByProviderOfNonString svc params = Normal []
  | Throw e => getOrdersByProviderOfNonString svc params = Throw e
  end.
Proof.
  unfold getOrdersByProviderOfNonString. rewrite tryCatch_rethrow.
  destruct (getEventOrders svc params None) as [eventOrders|e]; cbn [bind];
    [|reflexivity].
  destruct (existsb readsProviderName eventOrders); [eauto | reflexivity].
Qed.

Lemma getEventOrders_of_fetch (svc : Service) (params : Params) :
  (forall e, fetchOrders svc (queryParams params) = Throw e ->
             exists e', getEventOrders svc params None = Throw e')
  /\ (forall orders, fetchOrders svc (queryParams params) = Normal orders ->
                     exists eventOrders,
                       getEventOrders svc params None = Normal eventOrders
                       /\ List.length eventOrders <= List.length orders).
Proof.
  split.
  - intros e He. unfold getEventOrders, getOrders. rewrite He. cbn. eauto.
  - intros orders Ho.
    assert (Hget : getOrders svc params = Normal orders)
      by (unfold getOrders; rewrite Ho; reflexivity).
    destruct (getEventOrders_all svc _ orders Hget) as (bs & Hbs & Hall).
    exists bs. split; [exact Hbs|].
    rewrite <- (Forall2_same_length _ _ _ Hall). apply filter_length.
Qed.

(** X16. GET /api/orders: when [authenticateApiKey] refuses, the answer is
    its refusal. For an authenticated request whose provider is a string or
    absent the answer is 500 exactly when the order fetch fails, and
    otherwise 200 with a count that is the number of bookings returned and is
    at most the number of orders the store sent; product lookups and schedule
    texts cannot turn the answer into an error. When the provider key is
    repeated or bracketed the provider is an array or an object, and a
    successful fetch is not enough: the answer is 500 as soon as one event
    order has a truthy host or vendor, and 200 without bookings otherwise. *)
Theorem orders_index_fails_only_with_the_store (zeroVersus : string -> option comparison)
        (svc : Service) (req : Request) :
  (forall failure,
      authenticateApiKey (env svc) req = Respond failure ->
      status (ordersIndex zeroVersus svc req) = failStatus failure
      /\ forall shown,
           status (ordersIndexOfList zeroVersus svc req shown) = failStatus failure)
  /\ (forall who e,
        authenticateApiKey (env svc) req = Next who ->
        fetchOrders svc (queryParams (serviceParams OrdersIndex req)) = Throw e ->
        status (ordersIndex zeroVersus svc req) = 500%Z
        /\ data (ordersIndex zeroVersus svc req) = []
        /\ forall shown, status (ordersIndexOfList zeroVersus svc req shown) = 500%Z)
  /\ (forall who orders,
        authenticateApiKey (env svc) req = Next who ->
        fetchOrders svc (queryParams (serviceParams OrdersIndex req)) = Normal orders ->
        status (ordersIndex zeroVersus svc req) = 200%Z
        /\ count (ordersIndex zeroVersus svc req)
           = List.length (data (ordersIndex zeroVersus svc req))
        /\ count (ordersIndex zeroVersus svc req) <= List.length orders
        /\ exists eventOrders,
             getEventOrders svc (serviceParams OrdersIndex req) None = Normal eventOrders
             /\ forall shown,
                  if existsb readsProviderName eventOrders
                  then status (ordersIndexOfList zeroVersus svc req shown) = 500%Z
                  else status (ordersIndexOfList zeroVersus svc req shown) = 200%Z
                       /\ data (ordersIndexOfList zeroVersus svc req shown) = []).
Proof.
  pose proof (getOrdersByProviderOfNonString_cases svc (serviceParams OrdersIndex req))
    as Hlist.
  split; [|split].
  - intros failure Hauth. unfold ordersIndex, ordersIndexOfList. rewrite Hauth.
    split; [reflexivity | intro shown; reflexivity].
  - intros who e Hauth He. unfold ordersIndex, ordersIndexOfList. rewrite Hauth.
    destruct (proj1 (getEventOrders_of_fetch svc _) e He) as [e' He'].
    rewrite He' in Hlist.
    unfold ordersIndexHandler, ordersIndexHandlerOfList, getOrdersByProvider.
    rewrite tryCatch_rethrow, He', Hlist. cbn [bind].
    destruct (truthy (rq_provider req)); cbn; auto.
  - intros who orders Hauth Ho. unfold ordersIndex, ordersIndexOfList. rewrite Hauth.
    destruct (proj2 (getEventOrders_of_fetch svc _) orders Ho) as (bs & Hbs & Hlen).
    rewrite Hbs in Hlist.
    assert (Htyped :
              status (ordersIndexHandler zeroVersus svc req) = 200%Z
              /\ count (ordersIndexHandler zeroVersus svc req)
                 = List.length (data (ordersIndexHandler zeroVersus svc req))
              /\ count (ordersIndexHandler zeroVersus svc req) <= List.length orders).
    { unfold ordersIndexHandler, getOrdersByProvider. rewrite tryCatch_rethrow, Hbs.
      destruct (truthy (rq_provider req)); simpl; rewrite !length_map;
        (split; [reflexivity|]; split; [reflexivity|]).
      + etransitivity; [apply applyDateFilters_length|].
        etransitivity; [apply filter_length | exact Hlen].
      + etransitivity; [apply applyDateFilters_length | exact Hlen]. }
    destruct Htyped as (H1 & H2 & H3).
    split; [exact H1|]. split; [exact H2|]. split; [exact H3|].
    exists bs. split; [exact Hbs|]. intro shown. unfold ordersIndexHandlerOfList.
    destruct (existsb readsProviderName bs).
    + destruct Hlist as [e ->]. reflexivity.
    + rewrite Hlist. split; [reflexivity|]. cbn [data].
      pose proof (applyDateFilters_length zeroVersus req []) as Hnil.
      destruct (applyDateFilters zeroVersus req []); [reflexivity|].
      simpl in Hnil. lia.
Qed.

Lemma orders_index_witness :
  status (ordersIndex Sample.datesOnly Sample.service
                      (Sample.request (Some "global_key_123") (Some "Other") None)) = 200%Z
  /\ count (ordersIndex Sample.datesOnly Sample.service
                        (Sample.request (Some "global_key_123") (Some "Other") None)) <= 6
  /\ status (ordersIndexOfList Sample.datesOnly Sample.service
                               (Sample.request (Some "global_key_123") None None) "a,b")
     = 500%Z.
Proof.
  destruct (proj2 (proj2 (orders_index_fails_only_with_the_store
                            Sample.datesOnly Sample.service
                            (Sample.request (Some "global_key_123") (Some "Other") None)))
              _ _ eq_refl eq_refl)
    as (Hs & _ & Hc & _).
  split; [exact Hs|]. split; [exact Hc|].
  destruct (proj2 (proj2 (orders_index_fails_only_with_the_store
                            Sample.datesOnly Sample.service
                            (Sample.request (Some "global_key_123") None None)))
              _ _ eq_refl eq_refl)
    as (_ & _ & _ & eventOrders & He & Hlist).
  vm_compute in He. injection He as <-. exact (Hlist "a,b").
Defined.

(** *** The legacy booking routes *)

Lemma legacyFilters_In (req : Request) (extra : LegacyQuery) (orders : list Booking)
      (b : Booking) :
  In b (legacyFilters req extra orders) -> In b orders.
Proof.
  unfold legacyFilters, filterWhen. intro H.
  destruct (lq_cowlendar_id extra) as [c|]; [destruct (c =? "")|];
    destruct (rq_event_date req) as [d|]; try destruct (d =? "");
    repeat (apply filter_In in H as [H _]); exact H.
Qed.

(** X17. Whatever GET /api/bookings/host/:hostName returns with status 200
    belongs to the named host: every booking in the data has a host equal to
    the requested name ignoring case, and the count is the number of
    bookings. For a caller with a host key the requested name is the caller's
    own, so every booking's host lowercases to the caller's identity. *)
Theorem host_route_returns_own_bookings (svc : Service) (req : Request) (extra : LegacyQuery) :
  listStatus (bookingsHost svc req extra) = 200%Z ->
  listCount (bookingsHost svc req extra) = List.length (listData (bookingsHost svc req extra))
  /\ (forall x, In x (listData (bookingsHost svc req extra)) ->
                equalIgnoringCase (bk_host x) (hostName req) = true)
  /\ (forall who h,
        authenticateApiKey (env svc) req = Next who ->
        authenticatedAs who = Some Host ->
        authenticatedHost who = Some h ->
        forall x, In x (listData (bookingsHost svc req extra)) ->
                  exists name, bk_host x = Some name /\ toLowerCase name = h).
Proof.
  unfold bookingsHost. intro Hs.
  destruct (hostGuards (env svc) req) as [who'|failure] eqn:Hg.
  - assert (Hdata : forall x, In x (listData (bookingsHostHandler svc req extra)) ->
                              exists name, bk_host x = Some name
                                           /\ toLowerCase name = toLowerCase (hostName req)).
    { unfold bookingsHostHandler.
      destruct (getOrdersByHost svc (hostName req) (serviceParams BookingsHost req))
        as [hostOrders|e] eqn:Hh; [|intros x []].
      simpl. intros x Hx. apply in_map_iff in Hx as (b & <- & Hb).
      apply legacyFilters_In in Hb.
      unfold getOrdersByHost in Hh. rewrite tryCatch_rethrow in Hh.
      apply bind_normal in Hh as (all & _ & Hh). injection Hh as <-.
      apply filter_In in Hb as [_ Hb]. unfold sameNameIgnoringCase in Hb.
      apply andb_true_iff in Hb as [_ Hb]. simpl.
      destruct (host b) as [name|]; [|discriminate].
      exists name. split; [reflexivity|]. apply String.eqb_eq. exact Hb. }
    split; [|split].
    + unfold bookingsHostHandler.
      destruct (getOrdersByHost svc (hostName req) (serviceParams BookingsHost req));
        reflexivity.
    + intros x Hx. destruct (Hdata x Hx) as (name & -> & Hn). simpl.
      apply String.eqb_eq. exact Hn.
    + intros who h Hauth Has Hh x Hx.
      destruct (Hdata x Hx) as (name & Hname & Hn). exists name. split; [exact Hname|].
      unfold hostGuards in Hg. rewrite Hauth in Hg.
      unfold validateHostAccess in Hg. rewrite Has, Hh in Hg. simpl in Hg.
      destruct (String.eqb_spec h (toLowerCase (hostName req))) as [Heq|_];
        [rewrite Heq; exact Hn | discriminate].
  - simpl in Hs. split; [reflexivity|]. split; [intros x []|]. intros ? ? ? ? ? x [].
Qed.

Lemma host_route_witness :
  listStatus (bookingsHost Sample.service Sample.ownRequest Sample.noExtra) = 200%Z
  /\ map bk_host (listData (bookingsHost Sample.service Sample.ownRequest Sample.noExtra))
     = [Some "Llamas"]
  /\ forall x, In x (listData (bookingsHost Sample.service Sample.ownRequest Sample.noExtra)) ->
               equalIgnoringCase (bk_host x) "LLamas" = true.
Proof.
  split; [reflexivity|]. split; [reflexivity|].
  exact (proj1 (proj2 (host_route_returns_own_bookings
                         Sample.service Sample.ownRequest Sample.noExtra eq_refl))).
Defined.

(** X18. The order_id branch of GET /api/bookings normalises whatever order
    the store returns, without the qualification test of the order lookup of
    routes/orders.js: for an order that does not qualify as a booking, GET
    /api/orders/:orderId answers 404 while GET /api/bookings?order_id= answers
    200 with exactly one booking; and for an id the store does not know the
    former answers 404 and the latter 500. *)
Theorem order_id_branch_skips_qualification (svc : Service) (req : Request)
        (extra : LegacyQuery) (orderId : string) :
  lq_order_id extra = Some orderId ->
  orderId <> "" ->
  (forall order,
      fetchOrder svc orderId = Normal order ->
      hasCowlendarMetadata (env svc) order = false ->
      orderStatus (orderByIdHandler svc orderId) = 404%Z
      /\ listStatus (bookingsIndexHandler svc req extra) = 200%Z
      /\ exists b, parseOrderWithCowlendar svc order = Normal b
                   /\ listData (bookingsIndexHandler svc req extra) = [transformForBookun b])
  /\ (forall e,
        fetchOrder svc orderId = Throw e ->
        orderStatus (orderByIdHandler svc orderId) = 404%Z
        /\ listStatus (bookingsIndexHandler svc req extra) = 500%Z).
Proof.
  intros Hid Hne.
  assert (Hbranch : truthy (lq_order_id extra) = true
                    /\ orDefault (lq_order_id extra) "" = orderId).
  { rewrite Hid. unfold truthy, orDefault.
    destruct (String.eqb_spec orderId ""); [contradiction | auto]. }
  destruct Hbranch as [Ht Hd]. split.
  - intros order Hf Hq.
    split; [exact (proj1 (orderByIdHandler_normal svc orderId order Hf) Hq)|].
    unfold bookingsIndexHandler, getOrderById. rewrite Ht, Hd, Hf. cbn [tryCatch bind].
    destruct (parseOrderWithCowlendar_returns svc order) as [b Hb]. rewrite Hb.
    split; [reflexivity|]. exists b. split; reflexivity.
  - intros e Hf. split; [exact (orderByIdHandler_throw svc orderId e Hf)|].
    unfold bookingsIndexHandler, getOrderById. rewrite Ht, Hd, Hf. reflexivity.
Qed.

(** The gift-card order of the sample is a booking for one route only. *)
Lemma order_id_branch_witness :
  orderStatus (orderByIdHandler Sample.shop "6") = 404%Z
  /\ listStatus (bookingsIndexHandler Sample.shop (Sample.request None None None)
                                      (Sample.byOrderId "6")) = 200%Z.
Proof.
  destruct (proj1 (order_id_branch_skips_qualification
                     Sample.shop (Sample.request None None None) (Sample.byOrderId "6") "6"
                     eq_refl ltac:(discriminate))
                  Sample.plainOrder eq_refl eq_refl) as (H404 & H200 & _).
  split; [exact H404 | exact H200].
Defined.

(** X19. GET /api/bookings/:id never answers 200 for a Shopify id (the
    default id type): the normalisation is not awaited, so a qualifying order
    ends in 500, a non-qualifying one in 404 and a failed fetch in 500. With
    the id type cowlendar the answer is 200 exactly when some event order
    carries that Cowlendar id. *)
Theorem shopify_id_lookup_never_succeeds (svc : Service) (bookingId : string)
        (extra : LegacyQuery) :
  (lq_id_type extra = None \/ lq_id_type extra = Some "shopify" ->
   itemStatus (bookingsByIdHandler svc bookingId extra) <> 200%Z
   /\ (forall order, fetchOrder svc bookingId = Normal order ->
                     itemStatus (bookingsByIdHandler svc bookingId extra)
                     = if hasCowlendarMetadata (env svc) order then 500%Z else 404%Z))
  /\ (lq_id_type extra = Some "cowlendar" ->
      forall eventOrders,
        getEventOrders svc (onlyLimit (Num 250)) None = Normal eventOrders ->
        (itemStatus (bookingsByIdHandler svc bookingId extra) = 200%Z
         <-> exists b, In b eventOrders /\ cowlendarId b = Some bookingId)).
Proof.
  split.
  - intro Htype.
    assert (Hshop : match lq_id_type extra with Some t => t | None => "shopify" end
                    = "shopify") by (destruct Htype as [-> | ->]; reflexivity).
    unfold bookingsByIdHandler, getOrderById. rewrite Hshop. cbn [String.eqb Ascii.eqb].
    change ("shopify" =? "shopify") with true. cbv iota.
    destruct (fetchOrder svc bookingId) as [order|e]; cbn [tryCatch bind].
    + destruct (hasCowlendarMetadata (env svc) order) eqn:Hq; cbn.
      * split; [discriminate|]. intros o Ho. injection Ho as <-. rewrite Hq. reflexivity.
      * split; [discriminate|]. intros o Ho. injection Ho as <-. rewrite Hq. reflexivity.
    + cbn. split; [discriminate | intros o Ho; discriminate].
  - intros Htype eventOrders He. unfold bookingsByIdHandler. rewrite Htype, He.
    change ("cowlendar" =? "shopify") with false.
    change ("cowlendar" =? "cowlendar") with true. cbn [bind].
    destruct (find (fun order => strictEq (cowlendarId order) bookingId) eventOrders)
      as [found|] eqn:Hfind; cbn.
    + split; [|reflexivity]. intros _. apply find_some in Hfind as [Hin Heq].
      exists found. split; [exact Hin|]. unfold strictEq in Heq.
      destruct (cowlendarId found) as [c|]; [|discriminate].
      apply String.eqb_eq in Heq. congruence.
    + split; [discriminate|]. intros (b & Hin & Hc).
      pose proof (find_none _ _ Hfind b Hin) as Hb. cbv beta in Hb.
      rewrite Hc in Hb. simpl in Hb. rewrite String.eqb_refl in Hb. discriminate.
Qed.

Lemma shopify_id_lookup_witness :
  itemStatus (bookingsByIdHandler Sample.shop "1" Sample.noExtra) = 500%Z
  /\ itemStatus (bookingsByIdHandler Sample.shop "6" Sample.noExtra) = 404%Z.
Proof.
  split.
  - exact (proj2 (proj1 (shopify_id_lookup_never_succeeds Sample.shop "1" Sample.noExtra)
                        (or_introl eq_refl)) Sample.llamasOrder eq_refl).
  - exact (proj2 (proj1 (shopify_id_lookup_never_succeeds Sample.shop "6" Sample.noExtra)
                        (or_introl eq_refl)) Sample.plainOrder eq_refl).
Defined.

(** *** OAuth tokens *)

Import BookingKit BookingKitRoutes.

Lemma mapGet_same {V} (k : option string) (v : V) (m : list (option string * V)) :
  mapGet k (mapSet k v m) = Some v.
Proof.
  rewrite mapGet_mapSet.
  assert (Hs : sameKey k k = true) by (apply sameKey_eq; reflexivity).
  rewrite Hs. reflexivity.
Qed.

(** X20. After a successful code exchange at time [t0] for a token valid
    [seconds] seconds, the access token is served from the map, with no
    request and no change of the map, at every time more than five minutes
    before the expiry; from five minutes before the expiry on, a non-empty
    refresh token is used to fetch a new token, which is returned and stored
    with its own expiry, the old refresh token being kept when the server
    sends none. *)
Theorem token_is_served_until_five_minutes_before_expiry
        (client : OAuthClient) (code uri : string) (t0 seconds : Z)
        (store : TokenStore) (granted : TokenResponse) :
  postToken client (AuthorizationCode code uri) = Normal granted ->
  tr_expires_in granted = Num seconds ->
  (forall now later,
      (now < t0 + seconds * 1000 - 300000)%Z ->
      getValidAccessToken client now later
                          (fst (exchangeCodeForToken client code uri t0 store))
      = (fst (exchangeCodeForToken client code uri t0 store),
         Normal (tr_access_token granted)))
  /\ (forall now later token renewed,
        (t0 + seconds * 1000 - 300000 <= now)%Z ->
        tr_refresh_token granted = Some token -> token <> "" ->
        postToken client (RefreshToken token) = Normal renewed ->
        snd (getValidAccessToken client now later
                                 (fst (exchangeCodeForToken client code uri t0 store)))
        = Normal (tr_access_token renewed)
        /\ mapGet (clientId client)
                  (fst (getValidAccessToken client now later
                          (fst (exchangeCodeForToken client code uri t0 store))))
           = Some {| access_token := tr_access_token renewed;
                     refresh_token := orElse (tr_refresh_token renewed) (Some token);
                     expires_at := plus (Num later) (times1000 (tr_expires_in renewed));
                     token_type := tr_token_type renewed |}).
Proof.
  intros Hpost Hexp. unfold exchangeCodeForToken. rewrite Hpost, Hexp. cbn [fst times1000 plus].
  split.
  - intros now later Hnow. unfold getValidAccessToken. rewrite mapGet_same.
    cbn [expires_at plus reached].
    destruct (Z.leb_spec (t0 + seconds * 1000 + -300000) now); [lia|]. reflexivity.
  - intros now later token renewed Hnow Htoken Hne Hrenew.
    unfold getValidAccessToken. rewrite mapGet_same.
    cbn [expires_at plus reached refresh_token].
    destruct (Z.leb_spec (t0 + seconds * 1000 + -300000) now); [|lia].
    rewrite Htoken. unfold truthy, orDefault.
    destruct (String.eqb_spec token ""); [contradiction|]. cbn [negb andb].
    unfold refreshToken. rewrite Hrenew. cbn [fst snd].
    split; [reflexivity | apply mapGet_same].
Qed.

Lemma token_lifecycle_witness :
  snd (getValidAccessToken Sample.oauth 1000000 1000001
         (fst (exchangeCodeForToken Sample.oauth "code" "https://shop/cb" 0 [])))
  = Normal (Some "access-1")
  /\ snd (getValidAccessToken Sample.oauth 3300000 3300001
            (fst (exchangeCodeForToken Sample.oauth "code" "https://shop/cb" 0 [])))
     = Normal (Some "access-2").
Proof.
  destruct (token_is_served_until_five_minutes_before_expiry
              Sample.oauth "code" "https://shop/cb" 0 3600 [] _ eq_refl eq_refl)
    as [Hfresh Hrenew].
  split.
  - rewrite (Hfresh 1000000%Z 1000001%Z); [reflexivity | lia].
  - refine (proj1 (Hrenew 3300000%Z 3300001%Z "refresh-1" _ _ eq_refl _ eq_refl));
      [lia | discriminate].
Defined.

(** X21. A stored token that has no refresh token, or whose expiry is not a
    number (the server sent no usable [expires_in]), is handed out unchanged
    at every time, also long after it expired, and no request is made. When a
    due refresh fails, the call throws and the map keeps the expired token.
    Without a stored token the call throws. *)
Theorem stale_token_is_still_handed_out (client : OAuthClient) (now later : Z)
        (store : TokenStore) :
  (forall tokenData,
      mapGet (clientId client) store = Some tokenData ->
      truthy (refresh_token tokenData) = false \/ expires_at tokenData = NaN ->
      getValidAccessToken client now later store
      = (store, Normal (access_token tokenData)))
  /\ (forall tokenData token e,
        mapGet (clientId client) store = Some tokenData ->
        reached now (plus (expires_at tokenData) (Num (-300000))) = true ->
        refresh_token tokenData = Some token -> token <> "" ->
        postToken client (RefreshToken token) = Throw e ->
        fst (getValidAccessToken client now later store) = store
        /\ exists err, snd (getValidAccessToken client now later store) = Throw err)
  /\ (mapGet (clientId client) store = None ->
      exists err, getValidAccessToken client now later store = (store, Throw err)).
Proof.
  split; [|split].
  - intros tokenData Hget Hcase. unfold getValidAccessToken. rewrite Hget.
    destruct Hcase as [Hno | Hnan].
    + rewrite Hno, andb_false_r. reflexivity.
    + rewrite Hnan. reflexivity.
  - intros tokenData token e Hget Hdue Htoken Hne Hfail.
    unfold getValidAccessToken. rewrite Hget, Hdue, Htoken. unfold truthy, orDefault.
    destruct (String.eqb_spec token ""); [contradiction|]. cbn [negb andb].
    unfold refreshToken. rewrite Hfail. cbn [fst snd]. split; [reflexivity | eauto].
  - intro Hget. unfold getValidAccessToken. rewrite Hget. eauto.
Qed.

Lemma stale_token_witness :
  getValidAccessToken Sample.oauth 999999999 1000000000 Sample.staleStore
  = (Sample.staleStore, Normal (Some "old")).
Proof.
  exact (proj1 (stale_token_is_still_handed_out Sample.oauth 999999999 1000000000
                  Sample.staleStore)
               _ eq_refl (or_introl eq_refl)).
Defined.

(** *** Webhooks *)

Lemma handleBooking_processed (actionName : string) (data : EventData) (result : Processing) :
  handleBooking actionName data = Normal result ->
  processed result = true /\ action result = Some actionName.
Proof.
  destruct data; simpl; intro H; [discriminate| |]; injection H as <-; auto.
Qed.

Lemma processWebhook_cases (payload : Payload) :
  match payload with
  | NullPayload => exists e, processWebhook payload = Throw e
  | Members event_type data =>
      if handledEvent event_type then
        match data with
        | NoData => exists e, processWebhook payload = Throw e
        | _ => exists result, processWebhook payload = Normal result
                              /\ processed result = true
        end
      else exists result, processWebhook payload = Normal result
                          /\ processed result = false
  end.
Proof.
  unfold processWebhook. rewrite tryCatch_rethrow.
  destruct payload as [|event_type data]; [eauto|].
  destruct event_type as [|name|shown]; cbn [isEvent handledEvent existsb]; [eauto| |eauto].
  destruct (name =? "booking.created")%string; cbn [orb];
    [destruct data; cbn [handleBooking processed]; eauto|].
  destruct (name =? "booking.updated")%string; cbn [orb];
    [destruct data; cbn [handleBooking processed]; eauto|].
  destruct (name =? "booking.cancelled")%string; cbn [orb];
    [destruct data; cbn [handleBooking processed]; eauto|].
  eauto.
Qed.

(** X22. A webhook whose signature check fails is answered 401 whatever the
    body parses to. A webhook that passes the check and parses is answered
    500 exactly when the payload is null or names a handled event type
    (booking.created, booking.updated, booking.cancelled) without data, and
    200 otherwise; the result it carries is marked processed exactly for the
    handled event types, so an unknown event type is acknowledged with 200
    and an unprocessed result. *)
Theorem webhook_route_outcomes (hmacSha256Hex : string -> string -> string)
        (parseJson : string -> Completion Payload) (secret : option string)
        (sig1 sig2 : option string) (body : string) :
  (verifyWebhookSignature hmacSha256Hex secret body (orElse sig1 sig2) = Normal false ->
   forall otherParser,
     hookStatus (webhookRoute hmacSha256Hex otherParser secret sig1 sig2 body) = 401%Z)
  /\ (forall payload,
        verifyWebhookSignature hmacSha256Hex secret body (orElse sig1 sig2) = Normal true ->
        parseJson body = Normal payload ->
        (hookStatus (webhookRoute hmacSha256Hex parseJson secret sig1 sig2 body) = 200%Z
         \/ hookStatus (webhookRoute hmacSha256Hex parseJson secret sig1 sig2 body) = 500%Z)
        /\ (hookStatus (webhookRoute hmacSha256Hex parseJson secret sig1 sig2 body) = 500%Z
            <-> payload = NullPayload
                \/ exists event_type, payload = Members event_type NoData
                                      /\ handledEvent event_type = true)
        /\ (forall result event_type data,
              hookResult (webhookRoute hmacSha256Hex parseJson secret sig1 sig2 body)
              = Some result ->
              payload = Members event_type data ->
              processed result = handledEvent event_type)).
Proof.
  split.
  - intros Hv otherParser. unfold webhookRoute. rewrite Hv. reflexivity.
  - intros payload Hv Hp. unfold webhookRoute. rewrite Hv, Hp.
    pose proof (processWebhook_cases payload) as Hc.
    destruct payload as [|event_type data].
    + destruct Hc as [e ->]. simpl. split; [auto|]. split; [tauto|].
      intros ? ? ? H; discriminate H.
    + destruct (handledEvent event_type) eqn:Hh.
      * destruct data as [| |id].
        -- destruct Hc as [e ->]; simpl. split; [auto|]. split.
           ++ split; [eauto | reflexivity].
           ++ intros ? ? ? H; discriminate H.
        -- destruct Hc as (result & -> & Hpr); simpl. split; [auto|]. split.
           ++ split; [discriminate|]. intros [H|(t & H & _)]; discriminate H.
           ++ intros r t d H Hm. injection H as <-. injection Hm as <- _. congruence.
        -- destruct Hc as (result & -> & Hpr); simpl. split; [auto|]. split.
           ++ split; [discriminate|]. intros [H|(t & H & _)]; discriminate H.
           ++ intros r t d H Hm. injection H as <-. injection Hm as <- _. congruence.
      * destruct Hc as (result & -> & Hpr); simpl. split; [auto|]. split.
        -- split; [discriminate|]. intros [H|(t & H & Ht)]; [discriminate H|].
           injection H as <- _. congruence.
        -- intros r t d H Hm. injection H as <-. injection Hm as <- _. congruence.
Qed.

Lemma webhook_route_witness :
  hookStatus (webhookRoute Sample.hexOfPayload Sample.parseAsRefund (Some "s3cret")
                           (Some "sha256=00") None "{}") = 401%Z
  /\ hookStatus (webhookRoute Sample.hexOfPayload Sample.parseAsRefund None
                              None None "{}") = 200%Z.
Proof.
  destruct (webhook_route_outcomes Sample.hexOfPayload Sample.parseAsRefund (Some "s3cret")
              (Some "sha256=00") None "{}") as [Hbad _].
  destruct (webhook_route_outcomes Sample.hexOfPayload Sample.parseAsRefund None
              None None "{}") as [_ Hgood].
  split; [exact (Hbad eq_refl Sample.parseAsRefund)|].
  destruct (Hgood _ eq_refl eq_refl) as ([H|H] & _); [exact H | discriminate H].
Defined.

(** *** Synchronisation *)

Lemma synced_or_failed (results : list SyncResult) :
  List.length (filter isSynced results) + List.length (filter isFailed results)
  = List.length results.
Proof.
  induction results as [|r results IH]; simpl; [reflexivity|].
  unfold isSynced, isFailed in *. destruct (syncState r); simpl; lia.
Qed.

Lemma only_the_order_fetch_cases (svc : Service) (params : Params) (name : string) :
  (~ returns (fetchOrders svc (queryParams params))
   /\ (exists e, getOrdersByProvider svc name params = Throw e)
   /\ (exists e, getEventOrders svc params None = Throw e))
  \/ (returns (fetchOrders svc (queryParams params))
      /\ (exists bs, getOrdersByProvider svc name params = Normal bs)
      /\ (exists bs, getEventOrders svc params None = Normal bs)).
Proof.
  pose proof (getEventOrders_returns svc params None) as He.
  rewrite getOrders_returns in He.
  unfold getOrdersByProvider. rewrite tryCatch_rethrow.
  destruct (getEventOrders svc params None) as [bs|e].
  - right. split; [apply He; eexists; reflexivity|]. simpl. eauto.
  - left. split; [|simpl; eauto].
    intro H. apply He in H as [x Hx]. discriminate Hx.
Qed.

Lemma syncHandler_status (createBooking : Booking -> Completion (option string))
      (svc : Service) (body : SyncBody) :
  syncStatus (syncHandler createBooking svc body) = 500%Z
  <-> ~ returns (ordersToSync svc body).
Proof.
  unfold syncHandler, returns.
  destruct (ordersToSync svc body) as [[|order orders]|e]; cbn [syncStatus].
  - split; [discriminate | intro H; exfalso; apply H; eauto].
  - split; [discriminate | intro H; exfalso; apply H; eauto].
  - split; [intros _ [x Hx]; discriminate Hx | reflexivity].
Qed.

(** X23. The sync route: when [authenticateApiKey] refuses, the answer is its
    refusal and nothing is sent. For an authenticated caller the route sends
    every order it collected, one after the other: a refused booking is
    recorded as failed and does not stop the others, the results are in the
    order of the orders and carry their Shopify ids, and the two counts add
    up to the number of orders. With a list of order ids the answer is always
    200 (orders that cannot be fetched or are not bookings are left out);
    without one the route fetches with a limit of at most 100 and answers 500
    exactly when that fetch fails, or when the provider is a truthy value
    that is not a string and one event order has a truthy host or vendor. *)
Theorem sync_accounts_for_every_order (createBooking : Booking -> Completion (option string))
        (svc : Service) (req : Request) (body : SyncBody) :
  (forall failure,
      authenticateApiKey (env svc) req = Respond failure ->
      syncStatus (syncRoute createBooking svc req body) = failStatus failure
      /\ syncResults (syncRoute createBooking svc req body) = [])
  /\ (forall who,
        authenticateApiKey (env svc) req = Next who ->
        (forall orders,
            ordersToSync svc body = Normal orders ->
            syncStatus (syncRoute createBooking svc req body) = 200%Z
            /\ syncedCount (syncRoute createBooking svc req body)
               + failedCount (syncRoute createBooking svc req body) = List.length orders
            /\ map shopify_order_id (syncResults (syncRoute createBooking svc req body))
               = map shopifyOrderId orders
            /\ forall r, In r (syncResults (syncRoute createBooking svc req body)) ->
                         exists order, In order orders
                                       /\ (syncState r = Synced
                                           <-> returns (createBooking order)))
        /\ (forall order_ids,
              sync_order_ids body = Some order_ids ->
              syncStatus (syncRoute createBooking svc req body) = 200%Z)
        /\ (sync_order_ids body = None ->
            (forall n, q_limit (queryParams (syncParams body)) = Num n -> (n <= 100)%Z)
            /\ (syncStatus (syncRoute createBooking svc req body) = 500%Z
                <-> ~ returns (fetchOrders svc (queryParams (syncParams body)))
                    \/ (sync_provider body = NotText true
                        /\ exists eventOrders,
                             getEventOrders svc (syncParams body) None = Normal eventOrders
                             /\ existsb readsProviderName eventOrders = true)))).
Proof.
  split.
  - intros failure Hauth. unfold syncRoute. rewrite Hauth. split; reflexivity.
  - intros who Hauth.
    assert (Hroute : syncRoute createBooking svc req body = syncHandler createBooking svc body)
      by (unfold syncRoute; rewrite Hauth; reflexivity).
    rewrite Hroute. split; [|split].
    + intros orders Ho. unfold syncHandler. rewrite Ho.
      destruct orders as [|order orders]; [simpl; repeat split; intros r []|].
      set (all := order :: orders). cbn [syncStatus syncedCount failedCount syncResults].
      split; [reflexivity|]. split; [rewrite synced_or_failed; apply length_map|].
      split.
      * rewrite map_map. apply map_ext. intro o. unfold syncOrder.
        destruct (createBooking o); reflexivity.
      * intros r Hr. apply in_map_iff in Hr as (o & <- & Hin). exists o.
        split; [exact Hin|]. unfold syncOrder, returns.
        destruct (createBooking o) as [id|e]; simpl.
        -- split; eauto.
        -- split; [discriminate | intros [x Hx]; discriminate Hx].
    + intros order_ids Hids. unfold syncHandler, ordersToSync. rewrite Hids.
      destruct (fold_left (collectOrder svc) order_ids []); reflexivity.
    + intro Hnone. split.
      * intros n Hn. unfold syncParams in Hn. simpl in Hn.
        exact (mathMin_bound _ _ _ Hn).
      * rewrite syncHandler_status. unfold ordersToSync. rewrite Hnone.
        pose proof (getOrdersByProviderOfNonString_cases svc (syncParams body)) as Hlist.
        assert (Hplain : forall name,
                   (~ returns (getEventOrders svc (syncParams body) None)
                    <-> ~ returns (fetchOrders svc (queryParams (syncParams body))))
                   /\ (~ returns (getOrdersByProvider svc name (syncParams body))
                       <-> ~ returns (fetchOrders svc (queryParams (syncParams body))))).
        { intro name.
          destruct (only_the_order_fetch_cases svc (syncParams body) name)
            as [(Hf & [e Hp] & [e' He])|(Hf & [ps Hp] & [es He])]; rewrite Hp, He.
          - split; (split; [intros _; exact Hf | intros _ [x Hx]; discriminate Hx]).
          - split; (split; [intro H; exfalso; apply H; eexists; reflexivity
                           | intro H; contradiction]). }
        destruct (sync_provider body) as [|provider|[|]] eqn:Hprovider.
        -- rewrite (proj1 (Hplain "")). split; [auto|].
           intros [H|(H & _)]; [exact H | discriminate H].
        -- destruct (provider =? "").
           ++ rewrite (proj1 (Hplain "")). split; [auto|].
              intros [H|(H & _)]; [exact H | discriminate H].
           ++ rewrite (proj2 (Hplain provider)). split; [auto|].
              intros [H|(H & _)]; [exact H | discriminate H].
        -- destruct (getEventOrders svc (syncParams body) None) as [bs|e] eqn:He.
           ++ assert (Hfetch : returns (fetchOrders svc (queryParams (syncParams body)))).
              { apply getOrders_returns,
                  (getEventOrders_returns svc (syncParams body) None).
                rewrite He. eexists. reflexivity. }
              destruct (existsb readsProviderName bs) eqn:Hr.
              ** destruct Hlist as [e ->]. split.
                 --- intros _. right. split; [reflexivity|]. exists bs. auto.
                 --- intros _ [x Hx]. discriminate Hx.
              ** rewrite Hlist. split.
                 --- intro H. exfalso. apply H. eexists. reflexivity.
                 --- intros [H|(_ & bs' & Hbs' & Hr')]; [contradiction|].
                     injection Hbs' as <-. congruence.
           ++ rewrite Hlist. split.
              ** intros _. left. apply (proj1 (Hplain "")).
                 intros [x Hx]. discriminate Hx.
              ** intros _ [x Hx]. discriminate Hx.
        -- rewrite (proj1 (Hplain "")). split; [auto|].
           intros [H|(H & _)]; [exact H | discriminate H].
Qed.

(** In the sample every event order but the second is booked. *)
Lemma sync_witness :
  syncStatus (syncRoute Sample.createSample Sample.service Sample.globalRequest
                        Sample.syncAll) = 200%Z
  /\ syncedCount (syncRoute Sample.createSample Sample.service Sample.globalRequest
                            Sample.syncAll) = 4
  /\ failedCount (syncRoute Sample.createSample Sample.service Sample.globalRequest
                            Sample.syncAll) = 1
  /\ q_limit (queryParams (syncParams Sample.syncAll)) = Num 100.
Proof.
  destruct (proj2 (sync_accounts_for_every_order Sample.createSample Sample.service
                     Sample.globalRequest Sample.syncAll) _ eq_refl)
    as (Hall & _ & Hlimit).
  destruct (getEventOrders Sample.service (syncParams Sample.syncAll) None) as [orders|]
    eqn:Ho; [|discriminate Ho].
  destruct (Hall orders Ho) as (Hs & _ & _ & _).
  split; [exact Hs|]. split; [reflexivity|]. split; reflexivity.
Defined.

(** *** Accepted signatures *)

Lemma bytes_equal (a b : list nat) :
  List.length a = List.length b ->
  forallb (fun p => Nat.eqb (fst p) (snd p)) (combine a b) = true <-> a = b.
Proof.
  revert b; induction a as [|x a IH]; intros [|y b]; simpl; try discriminate.
  - intros _. tauto.
  - intro Hlen. injection Hlen as Hlen.
    rewrite andb_true_iff, Nat.eqb_eq, (IH b Hlen). split.
    + intros [-> ->]. reflexivity.
    + intro H. injection H as -> ->. auto.
Qed.

(** X24. With a webhook secret configured and a signature present, the check
    answers true exactly when the signature, with its first [sha256=] taken
    out, has the same UTF-8 bytes as the hexadecimal digest of the payload
    under the secret. *)
Theorem signature_accepted_iff_digest_matches (hmacSha256Hex : string -> string -> string)
        (key payload sig : string) :
  key <> "" ->
  (verifyWebhookSignature hmacSha256Hex (Some key) payload (Some sig) = Normal true
   <-> utf8 (replace "sha256=" "" sig) = utf8 (hmacSha256Hex key payload))
  /\ (verifyWebhookSignature hmacSha256Hex (Some key) payload
                             (Some ("sha256=" ++ hmacSha256Hex key payload)%string)
      = Normal true).
Proof.
  intro Hkey.
  assert (Hiff : forall s,
             verifyWebhookSignature hmacSha256Hex (Some key) payload (Some s) = Normal true
             <-> utf8 (replace "sha256=" "" s) = utf8 (hmacSha256Hex key payload)).
  { intro s. unfold verifyWebhookSignature, timingSafeEqual.
    destruct (String.eqb_spec key ""); [contradiction|].
    destruct (Nat.eqb_spec (List.length (utf8 (hmacSha256Hex key payload)))
                           (List.length (utf8 (replace "sha256=" "" s)))) as [Hlen|Hlen];
      simpl.
    - pose proof (bytes_equal _ _ Hlen) as Hb.
      destruct (forallb _ _).
      + split; [intros _; symmetry; apply Hb; reflexivity | reflexivity].
      + split; [discriminate|]. intro H. symmetry in H. apply Hb in H. discriminate H.
    - split; [discriminate|]. intro H. rewrite H in Hlen. contradiction. }
  split; [apply Hiff|].
  apply Hiff. reflexivity.
Qed.

Lemma signature_accepted_witness :
  verifyWebhookSignature Sample.hexOfPayload (Some "s3cret") "{}"
    (Some "sha256=3b5d5c3712955042212316173ccf37be800b1c9a2e6de4b7a1f0c3d5e8a9b6c4")
  = Normal true.
Proof.
  exact (proj2 (signature_accepted_iff_digest_matches Sample.hexOfPayload "s3cret" "{}" ""
                  ltac:(discriminate))).
Defined.

(** *** Path forms of the legacy routes *)

Lemma getOrders_query (svc : Service) (p q : Params) :
  queryParams p = queryParams q -> getOrders svc p = getOrders svc q.
Proof.
  intro H. unfold getOrders. rewrite H. reflexivity.
Qed.

Lemma getEventOrders_query (svc : Service) (p q : Params) (hostFilter : option string) :
  queryParams p = queryParams q ->
  getEventOrders svc p hostFilter = getEventOrders svc q hostFilter.
Proof.
  intro H. unfold getEventOrders. rewrite (getOrders_query svc p q H). reflexivity.
Qed.

Lemma getOrdersByHost_query (svc : Service) (name : string) (p q : Params) :
  queryParams p = queryParams q ->
  getOrdersByHost svc name p = getOrdersByHost svc name q.
Proof.
  intro H. unfold getOrdersByHost. rewrite (getEventOrders_query svc p q None H). reflexivity.
Qed.

Lemma sameAnswer_listed (a b : list BookunBooking) :
  a = b -> sameAnswer (listed a) (listed b).
Proof.
  intros ->. repeat split.
Qed.

Lemma sameAnswer_failed (code : Z) (e1 e2 : string) :
  sameAnswer (failed code e1) (failed code e2).
Proof.
  repeat split.
Qed.

(** X25. The path forms of the legacy routes answer as the query forms do.
    For a request without [cowlendar_id], [order_id] and [host]:
    [/host/:hostName/events/:date] and [/events/:date] give the status and
    the bookings of [/host/:hostName?event_date=] and [/?event_date=] when
    the limit is given (the defaults are 100 and 50) and no customer e-mail
    is; [/host/:hostName/customer/:email] and [/customer/:email] give those
    of [/host/:hostName?customer_email=] and [/?customer_email=] when no
    event date is given. *)
Theorem path_forms_answer_as_query_forms (svc : Service) (req : Request)
        (extra : LegacyQuery) :
  truthy (lq_cowlendar_id extra) = false ->
  truthy (lq_order_id extra) = false ->
  truthy (lq_host extra) = false ->
  (forall date,
      date <> "" -> rq_event_date req = Some date ->
      truthy (rq_customer_email req) = false -> rq_limit req <> None ->
      sameAnswer (bookingsHostEventsHandler svc req date) (bookingsHostHandler svc req extra)
      /\ sameAnswer (bookingsEventsHandler svc req date) (bookingsIndexHandler svc req extra))
  /\ (param_email req <> "" -> rq_customer_email req = Some (param_email req) ->
      truthy (rq_event_date req) = false ->
      sameAnswer (bookingsHostCustomerHandler svc req) (bookingsHostHandler svc req extra)
      /\ sameAnswer (bookingsCustomerHandler svc req) (bookingsIndexHandler svc req extra)).
Proof.
  intros Hc Ho Hh. split.
  - intros date Hdate Hd He Hl.
    assert (Hq : forall path, path = BookingsHost \/ path = BookingsIndex ->
               queryParams (serviceParams BookingsHostEvents req)
               = queryParams (serviceParams path req)
               /\ queryParams (serviceParams BookingsEvents req)
                  = queryParams (serviceParams path req)).
    { intros path [-> | ->]; unfold serviceParams, queryParams, onlyLimit, emailParam, limitOr;
        rewrite He; destruct (rq_limit req); try contradiction; cbn; auto. }
    assert (Hf : forall orders,
               legacyFilters req extra orders
               = filter (fun order => strictEq (bookingDate order) date) orders).
    { intro orders. unfold legacyFilters, filterWhen. rewrite Hd.
      destruct (String.eqb_spec date ""); [contradiction|].
      destruct (lq_cowlendar_id extra) as [c|]; [|reflexivity].
      cbn in Hc. apply negb_false_iff in Hc. rewrite Hc. reflexivity. }
    split.
    + unfold bookingsHostEventsHandler, bookingsHostHandler.
      rewrite (getOrdersByHost_query svc (hostName req) _ _ (proj1 (Hq BookingsHost (or_introl eq_refl)))).
      destruct (getOrdersByHost svc (hostName req) (serviceParams BookingsHost req));
        [|apply sameAnswer_failed].
      apply sameAnswer_listed. rewrite Hf. reflexivity.
    + unfold bookingsEventsHandler, bookingsIndexHandler. rewrite Ho, Hh.
      rewrite (getEventOrders_query svc _ _ None (proj2 (Hq BookingsIndex (or_intror eq_refl)))).
      destruct (getEventOrders svc (serviceParams BookingsIndex req) None); cbn [bind];
        [|apply sameAnswer_failed].
      apply sameAnswer_listed. rewrite Hf. reflexivity.
  - intros Hmail He Hd.
    assert (Hq : forall path, path = BookingsHost \/ path = BookingsIndex ->
               queryParams (serviceParams BookingsHostCustomer req)
               = queryParams (serviceParams path req)
               /\ queryParams (serviceParams BookingsCustomer req)
                  = queryParams (serviceParams path req)).
    { intros path [-> | ->]; unfold serviceParams, queryParams, emailParam, truthy;
        rewrite He; destruct (String.eqb_spec (param_email req) ""); try contradiction;
        cbn; auto. }
    assert (Hf : forall orders, legacyFilters req extra orders = orders).
    { intro orders. unfold legacyFilters, filterWhen.
      destruct (rq_event_date req) as [d|].
      - cbn in Hd. apply negb_false_iff in Hd. rewrite Hd.
        destruct (lq_cowlendar_id extra) as [c|]; [|reflexivity].
        cbn in Hc. apply negb_false_iff in Hc. rewrite Hc. reflexivity.
      - destruct (lq_cowlendar_id extra) as [c|]; [|reflexivity].
        cbn in Hc. apply negb_false_iff in Hc. rewrite Hc. reflexivity. }
    split.
    + unfold bookingsHostCustomerHandler, bookingsHostHandler.
      rewrite (getOrdersByHost_query svc (hostName req) _ _ (proj1 (Hq BookingsHost (or_introl eq_refl)))).
      destruct (getOrdersByHost svc (hostName req) (serviceParams BookingsHost req));
        [|apply sameAnswer_failed].
      apply sameAnswer_listed. rewrite Hf. reflexivity.
    + unfold bookingsCustomerHandler, bookingsIndexHandler. rewrite Ho, Hh.
      rewrite (getEventOrders_query svc _ _ None (proj2 (Hq BookingsIndex (or_intror eq_refl)))).
      destruct (getEventOrders svc (serviceParams BookingsIndex req) None); cbn [bind];
        [|apply sameAnswer_failed].
      apply sameAnswer_listed. rewrite Hf. reflexivity.
Qed.

Lemma path_forms_witness :
  sameAnswer (bookingsHostEventsHandler Sample.service Sample.dayRequest "2024-03-15")
             (bookingsHostHandler Sample.service Sample.dayRequest Sample.noExtra).
Proof.
  destruct (path_forms_answer_as_query_forms Sample.service Sample.dayRequest Sample.noExtra
              eq_refl eq_refl eq_refl) as [Hdate _].
  apply (Hdate "2024-03-15"); [discriminate | reflexivity | reflexivity | discriminate].
Defined.

(** *** Requests to the partner API *)

(** X26. No request reaches the partner API without a token: when
    [getValidAccessToken] throws, because no token is stored or a due
    refresh failed, [makeAuthenticatedRequest] fails in the same way whatever
    the API would have answered. Every failure of [makeAuthenticatedRequest],
    and so of [createBooking] and [updateBooking], is an Error whose message
    starts with [API request failed: ]; without a stored token the token map
    is left as it was. *)
Theorem no_request_without_a_token (Body Response : Type) (client : OAuthClient)
        (method endpoint : string) (data : option Body) (now later : Z) (store : TokenStore) :
  (forall e,
      snd (getValidAccessToken client now later store) = Throw e ->
      forall request1 request2 : ApiRequest Body -> Completion Response,
        makeAuthenticatedRequest Body Response request1 client method endpoint data now later store
        = makeAuthenticatedRequest Body Response request2 client method endpoint data now later store)
  /\ (mapGet (clientId client) store = None ->
      forall request : ApiRequest Body -> Completion Response,
        makeAuthenticatedRequest Body Response request client method endpoint data now later store
        = (store, Throw (Error "API request failed: No access token available. Please complete OAuth flow first.")))
  /\ (forall (request : ApiRequest Body -> Completion Response) e,
        snd (makeAuthenticatedRequest Body Response request client method endpoint data
                                      now later store) = Throw e ->
        exists detail, e = Error ("API request failed: " ++ detail))
  /\ (forall (request : ApiRequest Body -> Completion Response) bookingData bookingId e,
        snd (createBooking Body Response request client bookingData now later store) = Throw e
        \/ snd (updateBooking Body Response request client bookingId bookingData now later store)
           = Throw e ->
        exists detail, e = Error ("API request failed: " ++ detail)).
Proof.
  assert (Hfail : forall (request : ApiRequest Body -> Completion Response) m u d e,
             snd (makeAuthenticatedRequest Body Response request client m u d now later store)
             = Throw e ->
             exists detail, e = Error ("API request failed: " ++ detail)).
  { intros request m u d e. unfold makeAuthenticatedRequest.
    destruct (getValidAccessToken client now later store) as [store' [token|e']]; cbn [snd].
    - destruct (request _) as [response|e']; cbn [tryCatch]; intro H; [discriminate H|].
      injection H as <-. exists (message e'). reflexivity.
    - intro H. injection H as <-. exists (message e'). reflexivity. }
  split; [|split; [|split]].
  - intros e He request1 request2. unfold makeAuthenticatedRequest.
    destruct (getValidAccessToken client now later store) as [store' [token|e']];
      cbn [snd] in He; [discriminate He | reflexivity].
  - intros Hnone request. unfold makeAuthenticatedRequest, getValidAccessToken.
    rewrite Hnone. reflexivity.
  - intros request e. apply Hfail.
  - intros request bookingData bookingId e [H|H].
    + unfold createBooking in H.
      destruct (makeAuthenticatedRequest Body Response request client "POST" "/bookings"
                  (Some bookingData) now later store) as [store' [response|e']] eqn:Hm;
        cbn [snd] in H; [discriminate H|].
      injection H as <-. apply (Hfail request "POST" "/bookings" (Some bookingData)).
      rewrite Hm. reflexivity.
    + unfold updateBooking in H.
      destruct (makeAuthenticatedRequest Body Response request client "PUT"
                  ("/bookings/" ++ bookingId) (Some bookingData) now later store)
        as [store' [response|e']] eqn:Hm; cbn [snd] in H; [discriminate H|].
      injection H as <-.
      apply (Hfail request "PUT" ("/bookings/" ++ bookingId)%string (Some bookingData)).
      rewrite Hm. reflexivity.
Qed.

Lemma no_request_witness :
  makeAuthenticatedRequest unit (option string) Sample.echoBearer Sample.oauth
                           "GET" "/bookings" None 0%Z 0%Z []
  = ([], Throw (Error "API request failed: No access token available. Please complete OAuth flow first.")).
Proof.
  destruct (no_request_without_a_token unit (option string) Sample.oauth "GET" "/bookings"
              None 0%Z 0%Z []) as (_ & Hnone & _).
  exact (Hnone eq_refl Sample.echoBearer).
Defined.

(** *** The OAuth callback *)

Lemma sameKey_some (a b : option string) :
  truthy a = true -> sameKey a b = true -> exists s, s <> "" /\ a = Some s /\ b = Some s.
Proof.
  intros Ht Hs. apply sameKey_eq in Hs. subst b.
  destruct a as [s|]; [|discriminate Ht].
  exists s. split; [|auto].
  intros ->. discriminate Ht.
Qed.

(** X27. The OAuth callback asks for a token only behind its three checks.
    An answer 200 means that no [error] was sent, a code was, and the session
    holds a non-empty state equal to the [state] sent; the state is then
    cleared, so the same callback on the session left is refused with 400.
    A refusal with 400 leaves the token map and the session as they were and
    does not depend on the OAuth server. Behind the checks the answer
    follows the exchange: when the token request throws the answer is 500,
    with the token map unchanged and the state still in the session; when it
    returns the answer is 200 with that token response, stored under the
    client id. *)
Theorem oauth_callback_needs_matching_state (client : OAuthClient) (redirectUri : string)
        (query : CallbackQuery) (session : Session) (now : Z) (store : TokenStore) :
  let '(store', session', response) := authCallback client redirectUri query session now store in
  (callbackStatus response = 200%Z \/ callbackStatus response = 400%Z
   \/ callbackStatus response = 500%Z)
  /\ (callbackStatus response = 200%Z ->
      (exists s, s <> "" /\ session = Some (Some s) /\ cb_state query = Some s)
      /\ truthy (cb_code query) = true /\ truthy (cb_error query) = false
      /\ session' = Some None
      /\ forall otherClient uri later tokens,
           callbackStatus (snd (authCallback otherClient uri query session' later tokens))
           = 400%Z)
  /\ (callbackStatus response = 400%Z ->
      store' = store /\ session' = session
      /\ forall otherClient,
           authCallback otherClient redirectUri query session now store
           = (store, session, response))
  /\ (callbackStatus response = 500%Z -> store' = store /\ session' = session)
  /\ (forall s,
        truthy (cb_error query) = false -> truthy (cb_code query) = true ->
        s <> "" -> session = Some (Some s) -> cb_state query = Some s ->
        (forall e,
            postToken client (AuthorizationCode (orDefault (cb_code query) "") redirectUri)
            = Throw e ->
            callbackStatus response = 500%Z)
        /\ (forall tokenData,
              postToken client (AuthorizationCode (orDefault (cb_code query) "") redirectUri)
              = Normal tokenData ->
              callbackStatus response = 200%Z
              /\ callbackToken response = Some tokenData
              /\ mapGet (clientId client) store'
                 = Some {| access_token := tr_access_token tokenData;
                           refresh_token := tr_refresh_token tokenData;
                           expires_at := plus (Num now) (times1000 (tr_expires_in tokenData));
                           token_type := tr_token_type tokenData |})).
Proof.
  unfold authCallback.
  destruct (truthy (cb_error query)) eqn:He; cbn [negb].
  { cbn. split; [auto|]. split; [discriminate|]. split; [auto|].
    split; [discriminate|]. intros s H. discriminate H. }
  destruct (truthy (cb_code query)) eqn:Hc; cbn [negb].
  2:{ cbn. split; [auto|]. split; [discriminate|]. split; [auto|].
      split; [discriminate|]. intros s _ H. discriminate H. }
  set (sessionState := match session with Some oauth_state => oauth_state | None => None end).
  destruct (truthy sessionState) eqn:Hs; cbn [negb orb].
  2:{ cbn. split; [auto|]. split; [discriminate|]. split; [auto|].
      split; [discriminate|]. intros s _ _ Hne Hsession _. exfalso.
      subst sessionState. rewrite Hsession in Hs. cbn in Hs.
      destruct (String.eqb_spec s ""); [contradiction | discriminate Hs]. }
  unfold differs. destruct (sameKey sessionState (cb_state query)) eqn:Hk; cbn [negb].
  2:{ cbn. split; [auto|]. split; [discriminate|]. split; [auto|].
      split; [discriminate|]. intros s _ _ _ Hsession Hstate. exfalso.
      subst sessionState. rewrite Hsession, Hstate in Hk.
      apply sameKey_neq in Hk. congruence. }
  destruct (sameKey_some _ _ Hs Hk) as (s & Hne & Hss & Hst).
  assert (Hsession : session = Some (Some s)).
  { subst sessionState. destruct session as [o|]; [congruence | discriminate Hss]. }
  unfold exchangeCodeForToken.
  destruct (postToken client _) as [tokenData|e]; cbn.
  - split; [auto|]. split; [|split; [discriminate|split; [discriminate|]]].
    + intros _. split; [eauto|]. split; [reflexivity|]. split; [reflexivity|].
      rewrite Hsession. split; [reflexivity|].
      intros otherClient uri later tokens. reflexivity.
    + intros s' _ _ _ _ _. split; [intros e H; discriminate H|].
      intros tokenData' H. injection H as <-.
      split; [reflexivity|]. split; [reflexivity|]. apply mapGet_same.
  - split; [auto|]. split; [discriminate|]. split; [discriminate|]. split; [auto|].
    intros s' _ _ _ _ _. split; [reflexivity|]. intros tokenData H. discriminate H.
Qed.

Lemma oauth_callback_witness :
  callbackStatus (snd (authCallback Sample.oauth "https://clubjoy.example/cb" Sample.callback
                                    (Some (Some "4f2a")) 0%Z [])) = 200%Z
  /\ callbackStatus (snd (authCallback Sample.oauth "https://clubjoy.example/cb" Sample.callback
                                       (Some None) 0%Z [])) = 400%Z.
Proof.
  split; [reflexivity|].
  pose proof (oauth_callback_needs_matching_state Sample.oauth "https://clubjoy.example/cb"
                Sample.callback (Some (Some "4f2a")) 0%Z []) as H.
  cbn in H. destruct H as (_ & H & _).
  destruct (H eq_refl) as (_ & _ & _ & _ & Hreplay).
  exact (Hreplay Sample.oauth "https://clubjoy.example/cb" 0%Z []).
Defined.

(** *** The authorisation status *)

Lemma authStatus_cases (isoText : Z -> string) (e : Env) (now : Z) (store : TokenStore) :
  match mapGet (getenv e "BOOKINGKIT_CLIENT_ID") store with
  | Some td =>
      if timeValue (expires_at td)
      then exists text,
          authStatus isoText e now store
          = {| statusCode := 200; statusSuccess := true; authorized := true;
               token_expired := Some (reached now (expires_at td));
               status_expires_at := Some text |}
      else authStatus isoText e now store
           = {| statusCode := 500; statusSuccess := false; authorized := false;
                token_expired := None; status_expires_at := None |}
  | None =>
      authStatus isoText e now store
      = {| statusCode := 200; statusSuccess := true; authorized := false;
           token_expired := None; status_expires_at := None |}
  end.
Proof.
  unfold authStatus, toISOString, timeValue.
  destruct (mapGet (getenv e "BOOKINGKIT_CLIENT_ID") store) as [td|]; [|reflexivity].
  destruct (expires_at td) as [|z]; [reflexivity|].
  destruct (Z.abs z <=? 8640000000000000)%Z; [eauto | reflexivity].
Qed.

(** X28. The status route: when [authenticateApiKey] refuses, the answer is
    its refusal. For an authenticated caller the answer is 200 or 500, and
    500 exactly when a token is stored whose expiry is not a time value,
    which is the case after an exchange whose response carried no usable
    [expires_in]; when the answer is 200 the token is reported as authorised
    exactly when one is stored, and a token reported as expired is one that
    [getValidAccessToken] treats as due. *)
Theorem auth_status_fails_without_expiry (isoText : Z -> string) (e : Env) (req : Request)
        (now : Z) (store : TokenStore) :
  (forall failure,
      authenticateApiKey e req = Respond failure ->
      statusCode (authStatusRoute isoText e req now store) = failStatus failure
      /\ authorized (authStatusRoute isoText e req now store) = false)
  /\ (forall who,
        authenticateApiKey e req = Next who ->
        (statusCode (authStatusRoute isoText e req now store) = 200%Z
         \/ statusCode (authStatusRoute isoText e req now store) = 500%Z)
        /\ (statusCode (authStatusRoute isoText e req now store) = 500%Z
            <-> exists tokenData,
                mapGet (getenv e "BOOKINGKIT_CLIENT_ID") store = Some tokenData
                /\ timeValue (expires_at tokenData) = false)
        /\ (statusCode (authStatusRoute isoText e req now store) = 200%Z ->
            authorized (authStatusRoute isoText e req now store)
            = match mapGet (getenv e "BOOKINGKIT_CLIENT_ID") store with
              | Some _ => true
              | None => false
              end)
        /\ (forall tokenData,
              mapGet (getenv e "BOOKINGKIT_CLIENT_ID") store = Some tokenData ->
              token_expired (authStatusRoute isoText e req now store) = Some true ->
              reached now (plus (expires_at tokenData) (Num (-300000))) = true))
  /\ (forall who client code uri tokenData at_ tokens,
        authenticateApiKey e req = Next who ->
        clientId client = getenv e "BOOKINGKIT_CLIENT_ID" ->
        postToken client (AuthorizationCode code uri) = Normal tokenData ->
        tr_expires_in tokenData = NaN ->
        statusCode (authStatusRoute isoText e req now
                      (fst (exchangeCodeForToken client code uri at_ tokens)))
        = 500%Z).
Proof.
  split; [|split].
  - intros failure Hauth. unfold authStatusRoute. rewrite Hauth. split; reflexivity.
  - intros who Hauth. unfold authStatusRoute. rewrite Hauth.
    pose proof (authStatus_cases isoText e now store) as Hcases.
    destruct (mapGet (getenv e "BOOKINGKIT_CLIENT_ID") store) as [td|] eqn:Hg.
    + destruct (timeValue (expires_at td)) eqn:Ht.
      * destruct Hcases as [text ->]. cbn [statusCode authorized token_expired].
        split; [auto|]. split; [|split; [reflexivity|]].
        -- split; [discriminate|].
           intros (td' & Heq & Hf). injection Heq as <-. congruence.
        -- intros td' Heq H. injection Heq as <-. injection H as H.
           unfold reached, plus in *. destruct (expires_at td) as [|z]; [discriminate H|].
           apply Z.leb_le in H. apply Z.leb_le. lia.
      * rewrite Hcases. cbn [statusCode authorized token_expired].
        split; [auto|]. split; [|split; [discriminate|]].
        -- split; [eauto | reflexivity].
        -- intros td' _ H. discriminate H.
    + rewrite Hcases. cbn [statusCode authorized token_expired].
      split; [auto|]. split; [|split; [reflexivity|]].
      * split; [discriminate|]. intros (td' & Heq & _). discriminate Heq.
      * intros td' Heq. discriminate Heq.
  - intros who client code uri tokenData at_ tokens Hauth Hid Hp Hn.
    unfold authStatusRoute. rewrite Hauth.
    unfold exchangeCodeForToken. rewrite Hp. cbn [fst].
    unfold authStatus. rewrite <- Hid, mapGet_same. cbn [expires_at]. rewrite Hn.
    reflexivity.
Qed.

Lemma auth_status_witness :
  statusCode (authStatusRoute Sample.noText Sample.partnerEnvironment Sample.globalRequest 0%Z
                (fst (exchangeCodeForToken Sample.openEnded "code-1"
                                           "https://clubjoy.example/cb" 0%Z []))) = 500%Z
  /\ statusCode (authStatusRoute Sample.noText Sample.partnerEnvironment
                                 (Sample.request None None None) 0%Z []) = 401%Z.
Proof.
  split.
  - destruct (auth_status_fails_without_expiry Sample.noText Sample.partnerEnvironment
                Sample.globalRequest 0%Z []) as (_ & _ & H).
    exact (H _ Sample.openEnded "code-1" "https://clubjoy.example/cb" _ 0%Z []
             eq_refl eq_refl eq_refl eq_refl).
  - destruct (auth_status_fails_without_expiry Sample.noText Sample.partnerEnvironment
                (Sample.request None None None) 0%Z []) as (H & _).
    exact (proj1 (H _ eq_refl)).
Defined.
